(** * networkbot: monitoring aggregation and context formatting

    A shallow embedding of [utils/monitoring.js], [utils/diagnostics.js]
    and the configuration routes of the web server, with the properties
    of the design document stated and settled against it.

    Conventions of the embedding.
    - A JavaScript string is its sequence of UTF-16 code units
      ([jsstring]); ASCII literals are written [lit "..."].
    - A JavaScript number is an integer of [Z]; the counters, status
      codes and port numbers of the program are integers.  A number
      read by [parseInt] is rounded to the nearest double, and
      [Infinity] is written [infinity].
    - A value received from an HTTP API is a [json]; a JavaScript value
      that may be [undefined] is an [option json], [None] being
      [undefined].
    - A thrown exception is a [Throw] result carrying the fields of the
      error object that the program inspects. *)

From Stdlib Require Import String Ascii DecimalString.
From Stdlib Require Import ZArith NArith Lia Bool List.
Import ListNotations.

Set Implicit Arguments.

(** ** JavaScript values *)

Module JS.

Definition jsstring := list N.

Definition lit (s : string) : jsstring :=
  map N_of_ascii (list_ascii_of_string s).

Fixpoint str_eqb (a b : jsstring) : bool :=
  match a, b with
  | [], [] => true
  | x :: a', y :: b' => N.eqb x y && str_eqb a' b'
  | _, _ => false
  end.

#[warnings="-register-all"]
Inductive json : Type :=
| JNull
| JBool (b : bool)
| JNum (n : Z)
| JStr (s : jsstring)
| JArr (xs : list json)
| JObj (fields : list (string * json)).

(** [undefined] is [None]. *)
Definition value := option json.

Definition undefined : value := None.

(** The error objects of the program: [message], and the two fields the
    handlers look at, [code] and [response.status]. *)
Record jserror := mkError {
  message : jsstring;
  code : option jsstring;
  response_status : option Z
}.

Definition Error (msg : jsstring) : jserror := mkError msg None None.

Inductive result (A : Type) : Type :=
| Ok (a : A)
| Throw (e : jserror).

Arguments Ok {A} a.
Arguments Throw {A} e.

Definition bind {A B} (r : result A) (k : A -> result B) : result B :=
  match r with
  | Ok a => k a
  | Throw e => Throw e
  end.

(** [p.catch(() => d)] *)
Definition catch_default {A} (r : result A) (d : A) : A :=
  match r with
  | Ok a => a
  | Throw _ => d
  end.

Fixpoint assoc (k : string) (fields : list (string * json)) : value :=
  match fields with
  | [] => None
  | (k', v) :: rest => if String.eqb k k' then Some v else assoc k rest
  end.

(** [TypeError] of V8 for a property read on [null]. *)
Definition TypeError_null (k : string) : jserror :=
  Error (lit "Cannot read properties of null (reading '" ++ lit k ++ lit "')").

(** [o.k] for a value [o] that is not [undefined].  The keys the program
    reads are data fields; the built-in properties of strings and arrays
    ([length], indices) are never among them. *)
Definition get (k : string) (o : json) : result value :=
  match o with
  | JNull => Throw (TypeError_null k)
  | JObj fields => Ok (assoc k fields)
  | _ => Ok None
  end.

(** [o?.k] *)
Definition opt_get (k : string) (o : value) : value :=
  match o with
  | Some (JObj fields) => assoc k fields
  | _ => None
  end.

(** [a ?? b] *)
Definition nullish (a b : value) : value :=
  match a with
  | None | Some JNull => b
  | Some _ => a
  end.

Definition isArray (v : value) : bool :=
  match v with
  | Some (JArr _) => true
  | _ => false
  end.

(** [typeof v === 'object'] *)
Definition typeof_object (v : value) : bool :=
  match v with
  | Some JNull | Some (JArr _) | Some (JObj _) => true
  | _ => false
  end.

(** ToBoolean *)
Definition truthy (v : value) : bool :=
  match v with
  | None | Some JNull => false
  | Some (JBool b) => b
  | Some (JNum n) => negb (Z.eqb n 0)
  | Some (JStr s) => match s with [] => false | _ => true end
  | Some (JArr _) | Some (JObj _) => true
  end.

(** [x || d] *)
Definition or_else (x : json) (d : json) : json :=
  if truthy (Some x) then x else d.

(** [x && typeof x === 'object'] *)
Definition is_object (x : json) : bool :=
  truthy (Some x) && typeof_object (Some x).

(** [x.k] for a value [x] known not to be [null]. *)
Definition field (k : string) (x : json) : value := opt_get k (Some x).

(** *** Strings *)

(** WhiteSpace and LineTerminator code points of ECMAScript: what
    [String.prototype.trim] strips and [\s] matches. *)
Definition is_space (c : N) : bool :=
  existsb (N.eqb c)
    [9; 10; 11; 12; 13; 32; 160; 5760; 8232; 8233; 8239; 8287; 12288; 65279]%N
  || (N.leb 8192 c && N.leb c 8202).

Definition is_digit (c : N) : bool := N.leb 48 c && N.leb c 57.
Definition is_upper (c : N) : bool := N.leb 65 c && N.leb c 90.
Definition is_lower (c : N) : bool := N.leb 97 c && N.leb c 122.
Definition is_alpha (c : N) : bool := is_upper c || is_lower c.
Definition is_alnum (c : N) : bool := is_alpha c || is_digit c.

(** [\w] *)
Definition is_word (c : N) : bool := is_alnum c || N.eqb c 95.

Fixpoint trimStart (s : jsstring) : jsstring :=
  match s with
  | c :: s' => if is_space c then trimStart s' else s
  | [] => []
  end.

Definition trimEnd (s : jsstring) : jsstring := rev (trimStart (rev s)).

Definition trim (s : jsstring) : jsstring := trimEnd (trimStart s).

(** [toLowerCase] on the ASCII letters.  The results are only ever
    compared with lower-case ASCII words without the letter k, which no
    other code unit lower-cases into. *)
Definition lower (c : N) : N := if is_upper c then (c + 32)%N else c.

Definition toLowerCase (s : jsstring) : jsstring := map lower s.

Fixpoint startsWith (s p : jsstring) : bool :=
  match p, s with
  | [], _ => true
  | x :: p', y :: s' => N.eqb x y && startsWith s' p'
  | _ :: _, [] => false
  end.

Fixpoint includes (s p : jsstring) : bool :=
  startsWith s p ||
  match s with
  | [] => false
  | _ :: s' => includes s' p
  end.

Fixpoint join (sep : jsstring) (parts : list jsstring) : jsstring :=
  match parts with
  | [] => []
  | [p] => p
  | p :: rest => p ++ sep ++ join sep rest
  end.

(** Number::toString for an integer. *)
Definition num_to_string (n : Z) : jsstring :=
  lit (DecimalString.NilZero.string_of_int (Z.to_int n)).

Local Open Scope Z_scope.

(** [Infinity]: the first power of two that is too large for a double. *)
Definition infinity : Z := 2 ^ 1024.

(** The Number value of a natural number: the nearest double, ties
    going to the even significand, and [Infinity] from 2^1024 - 2^970. *)
Definition to_double (n : Z) : Z :=
  if n <? 2 ^ 53 then n
  else
    let e := Z.log2 n - 52 in
    let q := n / 2 ^ e in
    let r := n mod 2 ^ e in
    let half := 2 ^ (e - 1) in
    let q' := if r <? half then q
              else if half <? r then q + 1
              else if Z.even q then q else q + 1 in
    Z.min (q' * 2 ^ e) infinity.

(** The number of decimal digits of a positive integer. *)
Definition ndigits (n : Z) : Z := Z.of_nat (length (num_to_string n)).

(** The digits [s] of Number::toString for a double [v] of 10^21 or
    more: the shortest [s] such that [s] followed by zeros reads back
    as [v], and of two the one nearer to [v]; [k] is the length tried. *)
Fixpoint shortest_digits (fuel : nat) (k : Z) (v : Z) : Z :=
  let scale := 10 ^ (ndigits v - k) in
  let lo := v / scale in
  let hi := lo + 1 in
  let ok_lo := to_double (lo * scale) =? v in
  let ok_hi := to_double (hi * scale) =? v in
  match fuel with
  | O => lo
  | S fuel' =>
      if ok_lo && ok_hi
      then if v - lo * scale <=? hi * scale - v then lo else hi
      else if ok_lo then lo
      else if ok_hi then hi
      else shortest_digits fuel' (k + 1) v
  end.

(** The digit before the point in the exponent form of [String(v)]. *)
Definition leading_digit (v : Z) : Z :=
  let s := shortest_digits 17 1 v in
  s / 10 ^ (ndigits s - 1).

(** [parseInt(n, 10)] for a number [n], which is the double nearest to
    the integer given: [String(n)] is read up to its first character
    that is no digit, after the sign.  An integer below 10^21 is printed
    in full; a larger one is printed as [d.ddde+21], of which only [d]
    is read; [Infinity] gives [NaN], which is [None]. *)
Definition parseInt_number (n : Z) : option Z :=
  let v := to_double (Z.abs n) in
  if infinity <=? v then None
  else if 10 ^ 21 <=? v then Some (Z.sgn n * leading_digit v)
  else Some (Z.sgn n * v).

Local Close Scope Z_scope.

(** ToString, as applied by [String(v)], template literals and
    [v.toString()], for values with the built-in prototypes. *)
Fixpoint ToString (v : json) : jsstring :=
  match v with
  | JNull => lit "null"
  | JBool true => lit "true"
  | JBool false => lit "false"
  | JNum n => num_to_string n
  | JStr s => s
  | JArr xs =>
      (fix elems (l : list json) : jsstring :=
         match l with
         | [] => []
         | x :: rest =>
             match x with JNull => [] | _ => ToString x end ++
             match rest with [] => [] | _ => lit "," ++ elems rest end
         end) xs
  | JObj _ => lit "[object Object]"
  end.

(** [String(v)] for a value that may be [undefined]. *)
Definition String_ (v : value) : jsstring :=
  match v with
  | None => lit "undefined"
  | Some j => ToString j
  end.

(** [a === b] against a string literal. *)
Definition is_str (v : value) (s : string) : bool :=
  match v with
  | Some (JStr t) => str_eqb t (lit s)
  | _ => false
  end.

(** [a === n] against a number literal. *)
Definition is_num (v : value) (n : Z) : bool :=
  match v with
  | Some (JNum m) => Z.eqb m n
  | _ => false
  end.

(** [a === b] against a boolean literal. *)
Definition is_bool (v : value) (b : bool) : bool :=
  match v with
  | Some (JBool c) => Bool.eqb c b
  | _ => false
  end.

End JS.

Import JS.

(** ** Regular expressions

    A backtracking matcher with the priorities of ECMAScript: the left
    alternative first, greedy repetition, the leftmost start position.
    Patterns of the program are transcribed constructor by constructor. *)

Module Regex.

Inductive regex : Type :=
| Eps
| Chr (p : N -> bool)
| Seq (r1 r2 : regex)
| Alt (r1 r2 : regex)
| Star (r : regex)
| Grp (i : nat) (r : regex)
| WordB
| Bos
| Eos.

(** Matcher state: the code unit before the current position ([None] at
    the start of the input), the rest of the input, the captures. *)
Record mstate := mkState {
  prev : option N;
  rest : jsstring;
  caps : list (nat * jsstring)
}.

Definition word_at (c : option N) : bool :=
  match c with
  | Some x => is_word x
  | None => false
  end.

Definition consumed (before after : mstate) : jsstring :=
  firstn (length (rest before) - length (rest after)) (rest before).

(** Greedy repetition of [body], then [k]: one more round is tried
    first, and a round that consumes nothing is refused.  A round
    consumes a code unit, so [n] rounds suffice for an input shorter
    than [n]. *)
Fixpoint iterate {R} (body : mstate -> (mstate -> option R) -> option R)
  (k : mstate -> option R) (n : nat) (st : mstate) : option R :=
  match n with
  | O => k st
  | S n' =>
      match body st (fun st' =>
              if Nat.ltb (length (rest st')) (length (rest st))
              then iterate body k n' st' else None) with
      | Some x => Some x
      | None => k st
      end
  end.

Fixpoint rmatch {R} (r : regex) (st : mstate) (k : mstate -> option R) : option R :=
  match r with
  | Eps => k st
  | Chr p =>
      match rest st with
      | c :: s' => if p c then k (mkState (Some c) s' (caps st)) else None
      | [] => None
      end
  | Seq r1 r2 => rmatch r1 st (fun st' => rmatch r2 st' k)
  | Alt r1 r2 =>
      match rmatch r1 st k with
      | Some x => Some x
      | None => rmatch r2 st k
      end
  | Star r1 => iterate (rmatch r1) k (S (length (rest st))) st
  | Grp i r1 =>
      rmatch r1 st (fun st' =>
        k (mkState (prev st') (rest st') ((i, consumed st st') :: caps st')))
  | WordB =>
      if xorb (word_at (prev st)) (word_at (hd_error (rest st))) then k st else None
  | Bos => match prev st with None => k st | Some _ => None end
  | Eos => match rest st with [] => k st | _ :: _ => None end
  end.

(** A successful match: its text, its captures and where it ended. *)
Record rmatch_result := mkMatch {
  matched : jsstring;
  groups : list (nat * jsstring);
  after : mstate
}.

Definition match_here (r : regex) (st : mstate) : option rmatch_result :=
  rmatch r st (fun st' => Some (mkMatch (consumed st st') (caps st') st')).

(** [RegExp.prototype.exec] without the [g] flag: the first position
    from the left at which the pattern matches. *)
Fixpoint exec_from (r : regex) (p : option N) (s : jsstring) : option rmatch_result :=
  match match_here r (mkState p s []) with
  | Some m => Some m
  | None =>
      match s with
      | [] => None
      | c :: s' => exec_from r (Some c) s'
      end
  end.

Definition exec (r : regex) (s : jsstring) : option rmatch_result :=
  exec_from r None s.

Definition test (r : regex) (s : jsstring) : bool :=
  match exec r s with Some _ => true | None => false end.

(** Capture [i] of a match; [None] is [undefined]. *)
Fixpoint group (i : nat) (gs : list (nat * jsstring)) : option jsstring :=
  match gs with
  | [] => None
  | (j, s) :: gs' => if Nat.eqb i j then Some s else group i gs'
  end.

(** [s.match(r)] with the [g] flag: every match from the left, each
    search resuming where the last match ended (one further on after an
    empty match). *)
Fixpoint match_all_from (fuel : nat) (r : regex) (p : option N) (s : jsstring)
  : list jsstring :=
  match fuel with
  | O => []
  | S fuel' =>
      match exec_from r p s with
      | None => []
      | Some m =>
          let st := after m in
          match matched m, rest st with
          | [], [] => [[]]
          | [], c :: s' => [] :: match_all_from fuel' r (Some c) s'
          | _ :: _, _ => matched m :: match_all_from fuel' r (prev st) (rest st)
          end
      end
  end.

Definition match_all (r : regex) (s : jsstring) : list jsstring :=
  match_all_from (S (length s)) r None s.

(** [s.replace(r, '')] without the [g] flag. *)
Fixpoint remove_first_from (r : regex) (p : option N) (s : jsstring) : jsstring :=
  match match_here r (mkState p s []) with
  | Some m => rest (after m)
  | None =>
      match s with
      | [] => []
      | c :: s' => c :: remove_first_from r (Some c) s'
      end
  end.

Definition remove_first (r : regex) (s : jsstring) : jsstring :=
  remove_first_from r None s.

(** Pattern syntax. *)
Fixpoint seqs (rs : list regex) : regex :=
  match rs with
  | [] => Eps
  | [r] => r
  | r :: rs' => Seq r (seqs rs')
  end.

Fixpoint alts (rs : list regex) : regex :=
  match rs with
  | [] => Eps
  | [r] => r
  | r :: rs' => Alt r (alts rs')
  end.

Definition plus (r : regex) : regex := Seq r (Star r).
Definition opt (r : regex) : regex := Alt r Eps.

(** [r{1,n}], greedy. *)
Fixpoint upto (n : nat) (r : regex) : regex :=
  match n with
  | O => Eps
  | S O => r
  | S n' => Seq r (opt (upto n' r))
  end.

(** A literal under the [i] flag. *)
Definition chr_i (c : N) : regex := Chr (fun x => N.eqb (lower x) (lower c)).
Definition lit_i (s : string) : regex := seqs (map chr_i (lit s)).

(** A literal without the [i] flag. *)
Definition chr (c : N) : regex := Chr (N.eqb c).

Definition space : regex := Chr is_space.
Definition digit : regex := Chr is_digit.

(** [.]: anything but a line terminator. *)
Definition dot : regex :=
  Chr (fun c => negb (existsb (N.eqb c) [10; 13; 8232; 8233]%N)).

End Regex.


(** ** The diagnostics runner, [utils/diagnostics.js] *)

Module Diagnostics.

Import Regex.

Local Open Scope Z_scope.

Definition PING_TIMEOUT_MS : Z := 15000.
Definition TRACEROUTE_TIMEOUT_MS : Z := 30000.
Definition PORT_CHECK_TIMEOUT_MS : Z := 5000.
Definition MAX_PING_COUNT : Z := 5.
Definition MAX_TRACEROUTE_HOPS : Z := 20.

(** The character class [[a-zA-Z0-9.\-_:\[\]]]. *)
Definition host_char (c : N) : bool :=
  is_alnum c || existsb (N.eqb c) (lit ".-_:[]").

(** [/^[a-zA-Z0-9.\-_:\[\]]+$/] *)
Definition host_re : regex := seqs [Bos; plus (Chr host_char); Eos].

(**
<<
function sanitizeHost(input) {
  if (typeof input !== 'string') return null;
  const s = input.trim();
  if (s.length === 0 || s.length > 253) return null;
  if (!/^[a-zA-Z0-9.\-_:\[\]]+$/.test(s)) return null;
  return s;
}
>> *)
Definition sanitizeHost (input : value) : option jsstring :=
  match input with
  | Some (JStr i) =>
      let s := trim i in
      if (Nat.eqb (length s) 0 || Nat.ltb 253 (length s))%bool then None
      else if negb (test host_re s) then None
      else Some s
  | _ => None
  end.

(** *** The operating system

    What [child_process.exec] and a TCP connect answer is given by the
    environment; what the program asks of it is recorded. *)

Inductive exec_outcome : Type :=
| ExecOk (stdout stderr : jsstring)
| ExecFail (msg stdout stderr : jsstring).

Inductive connect_outcome : Type :=
| ConnectEvent
| ErrorEvent (msg : jsstring)
| TimerFired.

Record os := mkOs {
  win32 : bool;
  execAsync : jsstring -> exec_outcome;
  socket_connect : Z -> jsstring -> connect_outcome
}.

Inductive effect : Type :=
| Exec (cmd : jsstring)
| Connect (port : Z) (host : jsstring).

(** [{ success, output, error }] *)
Record cmd_result := mkCmd {
  success : bool;
  output : jsstring;
  error : option jsstring
}.

(** [{ open, message }] *)
Record port_result := mkPort {
  open : bool;
  pmessage : jsstring
}.

Definition is_some_Z (o : option Z) : bool :=
  match o with Some _ => true | None => false end.

(** [a || b] on strings. *)
Definition or_str (a b : jsstring) : jsstring :=
  match a with [] => b | _ => a end.

(** [Math.min(Math.max(1, parseInt(n, 10) || dflt), hi)] for a number
    [n]. *)
Definition clamp (n dflt hi : Z) : Z :=
  Z.min (Z.max 1 match parseInt_number n with
                 | Some p => if Z.eqb p 0 then dflt else p
                 | None => dflt
                 end) hi.

Definition run_cmd (w : os) (cmd fallback : jsstring) : cmd_result * list effect :=
  match execAsync w cmd with
  | ExecOk stdout stderr => (mkCmd true (stdout ++ stderr) None, [Exec cmd])
  | ExecFail msg stdout stderr =>
      (mkCmd false (stdout ++ stderr) (Some (or_str msg fallback)), [Exec cmd])
  end.

Definition invalid_host : cmd_result :=
  mkCmd false [] (Some (lit "Invalid or missing host")).

Definition ping_cmd (w : os) (c : Z) (target : jsstring) : jsstring :=
  if win32 w
  then lit "ping -n " ++ num_to_string c ++ lit " " ++ target
  else lit "ping -c " ++ num_to_string c ++ lit " -W 3 " ++ target.

(** [async function runPing(host, count = 4)] *)
Definition runPing (w : os) (host : value) (count : Z) : cmd_result * list effect :=
  match sanitizeHost host with
  | None => (invalid_host, [])
  | Some target =>
      let c := clamp count 4 MAX_PING_COUNT in
      run_cmd w (ping_cmd w c target) (lit "Ping failed")
  end.

Definition traceroute_cmd (w : os) (hops : Z) (target : jsstring) : jsstring :=
  if win32 w
  then lit "tracert -h " ++ num_to_string hops ++ lit " " ++ target
  else lit "traceroute -m " ++ num_to_string hops ++ lit " " ++ target ++
       lit " 2>/dev/null || tracepath -m " ++ num_to_string hops ++ lit " " ++ target.

(** [async function runTraceroute(host, maxHops = 15)] *)
Definition runTraceroute (w : os) (host : value) (maxHops : Z)
  : cmd_result * list effect :=
  match sanitizeHost host with
  | None => (invalid_host, [])
  | Some target =>
      let hops := clamp maxHops 15 MAX_TRACEROUTE_HOPS in
      run_cmd w (traceroute_cmd w hops target) (lit "Traceroute failed")
  end.

(** [function testPort(host, port)], for a number [port]:
<<
  const p = parseInt(port, 10);
  if (!Number.isInteger(p) || p < 1 || p > 65535) return Promise.resolve({ ... });
>> *)
Definition testPort (w : os) (host : value) (port : Z) : port_result * list effect :=
  match sanitizeHost host with
  | None => (mkPort false (lit "Invalid or missing host"), [])
  | Some target =>
      let p := match parseInt_number port with Some p => p | None => 0 end in
      if (negb (is_some_Z (parseInt_number port)) || (p <? 1) || (65535 <? p))%bool
      then (mkPort false (lit "Invalid port (use 1-65535)"), [])
      else
        match socket_connect w p target with
        | ConnectEvent =>
            (mkPort true (lit "Port " ++ num_to_string p ++ lit " is open on " ++ target),
             [Connect p target])
        | ErrorEvent msg =>
            (mkPort false (or_str msg (lit "Connection refused or unreachable")),
             [Connect p target])
        | TimerFired =>
            (mkPort false
               (lit "Connection timed out after " ++
                num_to_string (PORT_CHECK_TIMEOUT_MS / 1000) ++ lit "s"),
             [Connect p target])
        end
  end.

(** *** Intent detectors *)

(** [parseInt(s, 10)] of a string of decimal digits: the number they
    write, as a double. *)
Definition parseInt_digits (s : jsstring) : Z :=
  to_double (fold_left (fun acc c => 10 * acc + (Z.of_N c - 48)) s 0).

Definition host_grp (i : nat) : regex := Grp i (plus (Chr host_char)).
Definition port_grp (i : nat) : regex := Grp i (upto 5 digit).
Definition it_that_them (i : nat) : regex :=
  Grp i (alts [lit_i "it"; lit_i "that"; lit_i "them"]).

(** [\s*[?.]?$] *)
Definition sentence_end : regex :=
  seqs [Star space; opt (Chr (fun c => existsb (N.eqb c) (lit "?."))); Eos].

Record port_request := mkPortReq { pr_host : jsstring; pr_port : Z }.
Record ping_request := mkPingReq { pg_host : jsstring; pg_count : Z }.
Record trace_request := mkTraceReq { tr_host : jsstring; tr_maxHops : Z }.

(** The four patterns of [detectPortTestRequest], each with the index of
    its port group and of its host group. *)
Definition port_tests : list (regex * nat * nat) :=
  [ (seqs [alts [lit_i "test"; lit_i "check"; lit_i "is"]; plus space; lit_i "port";
           plus space; port_grp 1; plus space;
           alts [lit_i "on"; lit_i "at"; lit_i "to"]; plus space; host_grp 2], 1, 2)%nat;
    (seqs [host_grp 1; plus space; lit_i "port"; plus space; port_grp 2], 2, 1)%nat;
    (seqs [lit_i "port"; plus space; port_grp 1; plus space;
           alts [lit_i "on"; lit_i "at"]; plus space; host_grp 2], 1, 2)%nat;
    (seqs [alts [lit_i "test"; lit_i "check"]; plus space; host_grp 1; plus space;
           lit_i "port"; plus space; port_grp 2], 2, 1)%nat ].

Fixpoint first_port_test (tests : list (regex * nat * nat)) (m : jsstring)
  : option port_request :=
  match tests with
  | [] => None
  | (re, portIdx, hostIdx) :: tests' =>
      match exec re m with
      | Some mt =>
          match group portIdx (groups mt), group hostIdx (groups mt) with
          | Some ps, Some (c :: h) =>
              let p := parseInt_digits ps in
              if ((1 <=? p) && (p <=? 65535))%bool
              then Some (mkPortReq (c :: h) p)
              else first_port_test tests' m
          | _, _ => first_port_test tests' m
          end
      | None => first_port_test tests' m
      end
  end.

Definition detectPortTestRequest (message : jsstring) : option port_request :=
  first_port_test port_tests (trim message).

Definition detectPortTestIntentWithoutHost (message : jsstring) : bool :=
  let m := trim message in
  test (seqs [WordB; alts [lit_i "test"; lit_i "check"]; plus space; lit_i "port";
              plus space; upto 5 digit; plus space;
              opt (seqs [lit_i "on"; plus space]); it_that_them 1; sentence_end]) m
  || test (seqs [WordB; lit_i "port"; plus space; upto 5 digit; plus space;
                 lit_i "on"; plus space; it_that_them 1; sentence_end]) m.

Definition extractPortFromMessage (message : jsstring) : option Z :=
  match exec (seqs [WordB; lit_i "port"; plus space; port_grp 1; WordB]) (trim message) with
  | Some mt =>
      match group 1 (groups mt) with
      | Some ps =>
          let p := parseInt_digits ps in
          if ((1 <=? p) && (p <=? 65535))%bool then Some p else None
      | None => None
      end
  | None => None
  end.

(** [/\bping\s+([a-zA-Z0-9.\-_:\[\]]+)(?:\s+(\d+))?/i] *)
Definition pingRe : regex :=
  seqs [WordB; lit_i "ping"; plus space; host_grp 1;
        opt (seqs [plus space; Grp 2 (plus digit)])].

Definition detectPingRequest (message : jsstring) : option ping_request :=
  match exec pingRe (trim message) with
  | Some mt =>
      match group 1 (groups mt) with
      | Some h =>
          Some (mkPingReq h
                  match group 2 (groups mt) with
                  | Some (d :: ds) => parseInt_digits (d :: ds)
                  | _ => 4
                  end)
      | None => None
      end
  | None => None
  end.

Definition detectPingIntentWithoutHost (message : jsstring) : bool :=
  let m := trim message in
  test (seqs [WordB;
              opt (alts [lit_i "can you "; lit_i "please "; lit_i "could you "]);
              lit_i "ping"; Star space; opt (it_that_them 1); sentence_end]) m
  || test (seqs [Bos; lit_i "ping"; Star space; it_that_them 1; sentence_end]) m.

Definition trace_word : regex :=
  alts [lit_i "traceroute"; lit_i "tracert";
        seqs [lit_i "trace"; plus space; lit_i "route"]].

(** [/\b(?:traceroute|tracert|trace\s+route)\s+(?:to\s+)?([a-zA-Z0-9.\-_:\[\]]+)(?:\s+(\d+))?/i] *)
Definition traceRe : regex :=
  seqs [WordB; trace_word; plus space; opt (seqs [lit_i "to"; plus space]);
        host_grp 1; opt (seqs [plus space; Grp 2 (plus digit)])].

Definition detectTracerouteRequest (message : jsstring) : option trace_request :=
  match exec traceRe (trim message) with
  | Some mt =>
      match group 1 (groups mt) with
      | Some h =>
          Some (mkTraceReq h
                  match group 2 (groups mt) with
                  | Some (d :: ds) => parseInt_digits (d :: ds)
                  | _ => 15
                  end)
      | None => None
      end
  | None => None
  end.

Definition detectTracerouteIntentWithoutHost (message : jsstring) : bool :=
  let m := trim message in
  test (seqs [WordB; opt (alts [lit_i "can you "; lit_i "please "]); trace_word;
              Star space; opt (seqs [lit_i "to"; plus space]); it_that_them 1;
              sentence_end]) m
  || test (seqs [Bos; alts [lit_i "traceroute"; lit_i "tracert"]; Star space;
                 opt (seqs [lit_i "to"; plus space]); it_that_them 1; sentence_end]) m.

(** [/\b(?:\d{1,3}\.){3}\d{1,3}\b/g] *)
Definition IPV4_REGEX : regex :=
  let octet_dot := Seq (upto 3 digit) (chr 46) in
  seqs [WordB; octet_dot; octet_dot; octet_dot; upto 3 digit; WordB].

(** [/\b(?:[a-zA-Z0-9](?:[a-zA-Z0-9-]*[a-zA-Z0-9])?\.)+[a-zA-Z]{2,}\b/g] *)
Definition HOSTNAME_REGEX : regex :=
  let label :=
    seqs [Chr is_alnum;
          opt (Seq (Star (Chr (fun c => is_alnum c || N.eqb c 45))) (Chr is_alnum));
          chr 46] in
  seqs [WordB; plus label; Chr is_alpha; Chr is_alpha; Star (Chr is_alpha); WordB].

Definition resolveHostFromConversation (conversationText : jsstring) : option jsstring :=
  match trim conversationText with
  | [] => None
  | _ =>
      match rev (match_all IPV4_REGEX conversationText) with
      | ip :: _ => Some ip
      | [] =>
          match rev (match_all HOSTNAME_REGEX conversationText) with
          | h :: _ => Some h
          | [] => None
          end
      end
  end.

End Diagnostics.

(** ** The local-controller client, [class UniFiMonitor] *)

Module UniFiMonitor.

Import Regex.

Local Open Scope Z_scope.

(** The fields of the client object. *)
Record monitor := mkMonitor {
  baseUrl : jsstring;
  apiKey : jsstring;
  site : jsstring;
  verifySSL : bool;
  cookie : option jsstring;
  csrfToken : option jsstring;
  apiPrefix : option jsstring;       (* '/unifi-api/network' or '/proxy/network' *)
  useSessionAuth : option bool       (* true = cookie+CSRF, false = X-API-Key only *)
}.

Definition set_cookie_field (v : option jsstring) (m : monitor) : monitor :=
  mkMonitor (baseUrl m) (apiKey m) (site m) (verifySSL m) v (csrfToken m)
            (apiPrefix m) (useSessionAuth m).
Definition set_csrfToken (v : option jsstring) (m : monitor) : monitor :=
  mkMonitor (baseUrl m) (apiKey m) (site m) (verifySSL m) (cookie m) v
            (apiPrefix m) (useSessionAuth m).
Definition set_apiPrefix (v : option jsstring) (m : monitor) : monitor :=
  mkMonitor (baseUrl m) (apiKey m) (site m) (verifySSL m) (cookie m) (csrfToken m)
            v (useSessionAuth m).
Definition set_useSessionAuth (v : option bool) (m : monitor) : monitor :=
  mkMonitor (baseUrl m) (apiKey m) (site m) (verifySSL m) (cookie m) (csrfToken m)
            (apiPrefix m) v.

(** [s.replace(/\/$/, '')] *)
Definition strip_slash (s : jsstring) : jsstring :=
  remove_first (Seq (chr 47) Eos) s.

(** [constructor(config)], the configuration fields already defaulted. *)
Definition new (cfg_baseUrl cfg_apiKey cfg_site : jsstring) (cfg_verifySSL : bool)
  : monitor :=
  mkMonitor (strip_slash cfg_baseUrl) cfg_apiKey
            (match cfg_site with [] => lit "default" | _ => cfg_site end)
            cfg_verifySSL None None None None.

Definition unifi_api : jsstring := lit "/unifi-api/network".
Definition proxy_network : jsstring := lit "/proxy/network".

Definition getCleanBaseUrl (this : monitor) : jsstring :=
  strip_slash
    (remove_first (seqs [lit_i "/proxy/network"; Star dot; Eos])
       (remove_first (seqs [lit_i "/unifi-api/network"; Star dot; Eos])
          (baseUrl this))).

Definition detectApiPrefix (this : monitor) : monitor :=
  if includes (baseUrl this) unifi_api then set_apiPrefix (Some unifi_api) this
  else if includes (baseUrl this) proxy_network then set_apiPrefix (Some proxy_network) this
  else set_apiPrefix
         (Some (if includes (baseUrl this) (lit "unifi-api")
                then unifi_api else proxy_network)) this.

(** *** The controller seen over HTTP *)

Record request := mkRequest {
  is_post : bool;
  url : jsstring;
  login_password : option jsstring;  (* the body of the login POST *)
  x_api_key : option jsstring;
  cookie_header : option jsstring;
  csrf_header : option jsstring
}.

Record response := mkResponse {
  status : Z;
  set_cookie : option (list jsstring);
  x_csrf_token : option jsstring;
  data : value
}.

(** What comes of a request: an answer, a transport failure, or a
    redirect that axios follows.  In [Redirected next o] the answer is
    a 3xx status with a [Location]; [next] is the request the HTTP
    library then sends to the new location (for a [GET], the same
    method and headers), and [o] is what comes of that request. *)
Inductive outcome : Type :=
| Responded (r : response)
| NetworkError (errcode msg : jsstring)
| Redirected (next : request) (o : outcome).

(** A controller answers a call of axios knowing the calls made before
    it, latest first. *)
Definition controller := list request -> request -> outcome.

(** The state threaded through the client: its fields and its calls of
    axios so far, latest first.  What axios sends besides when it
    follows a redirect is given by [follow_ups]. *)
Definition st : Type := monitor * list request.

Definition M (A : Type) : Type := st -> result A * st.

Definition ret {A} (a : A) : M A := fun s => (Ok a, s).
Definition throw {A} (e : jserror) : M A := fun s => (Throw e, s).

Definition mbind {A B} (m : M A) (k : A -> M B) : M B :=
  fun s =>
    match m s with
    | (Ok a, s') => k a s'
    | (Throw e, s') => (Throw e, s')
    end.

Definition try_catch {A} (m : M A) (handler : jserror -> M A) : M A :=
  fun s =>
    match m s with
    | (Ok a, s') => (Ok a, s')
    | (Throw e, s') => handler e s'
    end.

Definition this_ : M monitor := fun s => (Ok (fst s), s).
Definition update (f : monitor -> monitor) : M unit :=
  fun s => (Ok tt, (f (fst s), snd s)).

Declare Scope client_scope.
Delimit Scope client_scope with client.
Notation "x <- m ;; k" := (mbind m (fun x => k))
  (at level 61, m at next level, right associativity) : client_scope.
Notation "m ;; k" := (mbind m (fun _ => k))
  (at level 61, right associativity) : client_scope.
Local Open Scope client_scope.

(** The options every request is made with; the headers are part of the
    [request], and the TLS agent is not modelled.
<<
  getRequestOptions(extraHeaders = {}) {
    const opts = {
      timeout: 15000,
      validateStatus: (status) => status < 500,
      headers: { 'Content-Type': 'application/json', ...extraHeaders },
    };
>> *)
Record request_options := mkOptions {
  timeout : Z;
  validateStatus : Z -> bool
}.

Definition getRequestOptions : request_options :=
  mkOptions 15000 (fun status => status <? 500).

(** What axios settles a call with. *)
Inductive answer : Type :=
| Answered (r : response)
| Failed (errcode msg : jsstring).

(** None of the request options sets [maxRedirects], so the redirects
    of a call are followed up to the default of the follow-redirects
    package that axios sends its requests through, 21; the next one
    fails the call. *)
Definition maxRedirects : nat := 21.

Fixpoint settle (redirects : nat) (o : outcome) : answer :=
  match o with
  | Responded r => Answered r
  | NetworkError c msg => Failed c msg
  | Redirected _ o' =>
      match redirects with
      | O => Failed (lit "ERR_FR_TOO_MANY_REDIRECTS")
                    (lit "Maximum number of redirects exceeded")
      | S n => settle n o'
      end
  end.

(** The requests axios sends after the first while it follows the
    redirects of one call, in order. *)
Fixpoint follow_ups (redirects : nat) (o : outcome) : list request :=
  match o with
  | Redirected next o' =>
      match redirects with
      | O => []
      | S n => next :: follow_ups n o'
      end
  | _ => []
  end.

(** axios: the call is recorded; redirects are followed; a response
    whose status passes [validateStatus] resolves, any other rejects
    with an error carrying [response]; a transport failure rejects with
    an error carrying [code]. *)
Definition axios (w : controller) (req : request) (opts : request_options) : M response :=
  fun s =>
    let s' := (fst s, req :: snd s) in
    match settle maxRedirects (w (snd s) req) with
    | Answered r =>
        if validateStatus opts (status r) then (Ok r, s')
        else (Throw (mkError (lit "Request failed with status code " ++
                              num_to_string (status r))
                             (Some (lit "ERR_BAD_RESPONSE")) (Some (status r))), s')
    | Failed c msg => (Throw (mkError msg (Some c) None), s')
    end.

Definition nonempty (o : option jsstring) : option jsstring :=
  match o with
  | Some (c :: s) => Some (c :: s)
  | _ => None
  end.

Definition is_401_403 (status : Z) : bool := (status =? 401) || (status =? 403).

Definition err_is_401_403 (err : jserror) : bool :=
  match response_status err with
  | Some s => is_401_403 s
  | None => false
  end.

Definition err_is_refused (err : jserror) : bool :=
  match code err with
  | Some c => str_eqb c (lit "ECONNREFUSED")
  | None => false
  end.

(** [c.split(';')[0]] *)
Fixpoint before_semicolon (c : jsstring) : jsstring :=
  match c with
  | [] => []
  | x :: c' => if N.eqb x 59 then [] else x :: before_semicolon c'
  end.

(** The probe of one prefix in [detectApiPrefixByProbing]: whether it is
    taken. *)
Definition probe_accepts (res : response) : bool :=
  (status res =? 200) &&
  (is_str (opt_get "rc" (opt_get "meta" (data res))) "ok"
   || match nullish (opt_get "data" (data res)) None with
      | Some _ => true
      | None => false
      end).

Fixpoint probe_prefixes (w : controller) (base : jsstring) (prefixes : list jsstring)
  : M unit :=
  match prefixes with
  | [] => update detectApiPrefix
  | prefix :: others =>
      this <- this_ ;;
      found <- try_catch
                 (res <- axios w (mkRequest false (base ++ prefix ++ lit "/api/self") None
                                    None (cookie this) (csrfToken this))
                          getRequestOptions ;;
                  ret (probe_accepts res))
                 (fun _ => ret false) ;;
      if found then update (set_apiPrefix (Some prefix))
      else probe_prefixes w base others
  end.

Definition detectApiPrefixByProbing (w : controller) : M unit :=
  this <- this_ ;;
  probe_prefixes w (getCleanBaseUrl this) [unifi_api; proxy_network].

Definition authenticate (w : controller) : M bool :=
  this <- this_ ;;
  match baseUrl this, apiKey this with
  | [], _ | _, [] => throw (Error (lit "UniFi API key not configured"))
  | _, _ =>
      let base := getCleanBaseUrl this in
      try_catch
        (response <- axios w (mkRequest true (base ++ lit "/api/auth/login")
                                (Some (apiKey this)) None None None)
                           getRequestOptions ;;
         if negb (status response =? 200)
         then throw (Error (lit "UniFi API key authentication failed"))
         else
           match set_cookie response with
           | Some cookies =>
               update (set_cookie_field
                         (Some (join (lit "; ") (map before_semicolon cookies))))
           | None => ret tt
           end ;;
           update (set_csrfToken (nonempty (x_csrf_token response))) ;;
           try_catch (detectApiPrefixByProbing w) (fun _ => update detectApiPrefix) ;;
           update (set_useSessionAuth (Some true)) ;;
           ret true)
        (fun err =>
           if err_is_refused err
           then throw (Error (lit "Cannot connect to UniFi controller at " ++ base))
           else if err_is_401_403 err
           then throw (Error (lit "UniFi API key is invalid or expired. Check Network > Control Plane > Integrations (or Controller Settings " ++ [8594%N] ++ lit " API Access)."))
           else throw (Error (lit "UniFi authentication error: " ++ message err)))
  end.

(** [getApiBaseUrl], which fixes the prefix when none is set. *)
Definition getApiBaseUrl : M jsstring :=
  this <- this_ ;;
  match apiPrefix this with
  | None => update detectApiPrefix
  | Some _ => ret tt
  end ;;
  this <- this_ ;;
  ret (getCleanBaseUrl this ++ match apiPrefix this with Some p => p | None => [] end).

(** [doRequest] of [apiRequest]. *)
Definition doRequest (w : controller) (endpoint : jsstring) (useSession : bool)
  : M response :=
  base <- getApiBaseUrl ;;
  this <- this_ ;;
  let with_session :=
    match useSession, nonempty (cookie this) with
    | true, Some _ => true
    | _, _ => false
    end in
  axios w (mkRequest false (base ++ endpoint) None
             (nonempty (Some (apiKey this)))
             (if with_session then cookie this else None)
             (if with_session then nonempty (csrfToken this) else None))
    getRequestOptions.

(** The envelope rule at the end of [apiRequest]:
<<
      const data = response.data;
      if (data?.data !== undefined) return data.data;
      if (Array.isArray(data)) return data;
      if (data && typeof data === 'object') return [data];
      return [];
>> *)
Definition unwrap (data : value) : json :=
  match opt_get "data" data with
  | Some inner => inner
  | None =>
      match data with
      | Some (JArr xs) => JArr xs
      | Some d => if truthy data && typeof_object data then JArr [d] else JArr []
      | None => JArr []
      end
  end.

Definition normalize_endpoint (endpoint : jsstring) : jsstring :=
  if startsWith endpoint (lit "/api/") then endpoint
  else if startsWith endpoint (lit "/") then lit "/api" ++ endpoint
  else lit "/api/" ++ endpoint.

(** How one activation of [apiRequest] ends without throwing: with a
    payload, or with [return this.apiRequest(endpoint)], whose outcome
    is the activation's own. *)
Inductive step : Type :=
| Return (payload : json)
| Again.

Definition reset_session (this : monitor) : monitor :=
  set_useSessionAuth None (set_apiPrefix None (set_csrfToken None
    (set_cookie_field None this))).

(** The [try] block of [apiRequest]. *)
Definition apiRequest_try (w : controller) (endpoint : jsstring) : M step :=
  this <- this_ ;;
  response <-
    match useSessionAuth this with
    | Some true =>
        match nonempty (cookie this) with
        | None => authenticate w ;; ret tt
        | Some _ => ret tt
        end ;;
        doRequest w endpoint true
    | _ =>
        response <- doRequest w endpoint false ;;
        if is_401_403 (status response)
        then
          update (set_useSessionAuth (Some true)) ;;
          authenticate w ;;
          doRequest w endpoint true
        else ret response
    end ;;
  if is_401_403 (status response)
  then
    update reset_session ;;
    authenticate w ;;
    ret Again
  else ret (Return (unwrap (data response))).

(** The [catch] block of [apiRequest]. *)
Definition apiRequest_catch (err : jserror) : M step :=
  this <- this_ ;;
  if err_is_refused err
  then throw (Error (lit "Cannot connect to UniFi controller at " ++ baseUrl this))
  else if err_is_401_403 err
  then throw (Error (lit "UniFi API key authentication failed. Check your API key."))
  else
    match response_status err, apiPrefix this with
    | Some 404, Some prefix =>
        let other := if str_eqb prefix proxy_network then unifi_api else proxy_network in
        update (set_apiPrefix (Some other)) ;;
        ret Again
    | _, _ => throw err
    end.

(** [apiRequest(endpoint)].  Each activation costs one unit of [fuel];
    [None] is the answer of a run that needs more activations than
    [fuel]. *)
Fixpoint apiRequest (fuel : nat) (w : controller) (endpoint : jsstring) (s : st)
  : option (result json) * st :=
  match fuel with
  | O => (None, s)
  | S fuel' =>
      let endpoint := normalize_endpoint endpoint in
      match try_catch (apiRequest_try w endpoint) apiRequest_catch s with
      | (Ok (Return payload), s') => (Some (Ok payload), s')
      | (Ok Again, s') => apiRequest fuel' w endpoint s'
      | (Throw e, s') => (Some (Throw e), s')
      end
  end.

(** *** Typed fetchers

    The fetchers of one client run jointly ([Promise.all]) over the
    shared session, so they are written over what [apiRequest] answers
    for each endpoint: [api endpoint] is the payload it resolves to, or
    the error it rejects with. *)

Section Fetchers.

(** The site of the client, and what each call of [apiRequest] settles
    with: the fetchers are described for calls that settle. *)
Variable this_site : jsstring.
Variable api : jsstring -> result json.

(** The filter-and-map pipeline of [getSiteEvents] that selects the
    connection events of the last minutes; it reads the clock, and it
    throws on an event whose key is not a string. *)
Variable connection_events_of : list json -> result (list json).

Definition site_endpoint (path : string) : jsstring :=
  lit "/api/s/" ++ this_site ++ lit path.

(** [Array.isArray(x) ? x : []] *)
Definition array_or_empty (x : json) : list json :=
  match x with
  | JArr xs => xs
  | _ => []
  end.

(** [try { ... } catch (error) { throw new Error(`${prefix}${error.message}`) }] *)
Definition rethrow {A} (prefix : string) (r : result A) : result A :=
  match r with
  | Ok a => Ok a
  | Throw e => Throw (Error (lit prefix ++ message e))
  end.

(** [{ system, sites }] *)
Record system_info := mkSystemInfo {
  si_system : json;
  si_sites : json
}.

Definition getSystemInfo : result system_info :=
  rethrow "Failed to get UniFi system info: "
    (let system := catch_default (api (lit "/api/self")) (JObj []) in
     let sites := catch_default (api (lit "/api/sites")) (JArr []) in
     Ok (mkSystemInfo
           match system with
           | JArr xs => match xs with x :: _ => or_else x (JObj []) | [] => JObj [] end
           | _ => or_else system (JObj [])
           end
           match sites with
           | JArr _ => sites
           | _ => or_else sites (JArr [])
           end)).

Definition getDevices : result (list json) :=
  rethrow "Failed to get UniFi devices: "
    (bind (api (site_endpoint "/stat/device")) (fun devices =>
     Ok (array_or_empty devices))).

Definition getClients : result (list json) :=
  rethrow "Failed to get UniFi clients: "
    (bind (api (site_endpoint "/stat/sta")) (fun clients =>
     Ok (array_or_empty clients))).

(** [try { const raw = await this.apiRequest(path); return Array.isArray(raw) ? raw : []; }
     catch (error) { return []; }] *)
Definition list_or_empty (path : string) : result (list json) :=
  Ok (catch_default (bind (api (site_endpoint path)) (fun raw =>
                     Ok (array_or_empty raw))) []).

Definition getNetworks : result (list json) := list_or_empty "/rest/networkconf".
Definition getWlans : result (list json) := list_or_empty "/rest/wlanconf".
Definition getPortProfiles : result (list json) := list_or_empty "/rest/portconf".
Definition getPortForwards : result (list json) := list_or_empty "/rest/portforward".
Definition getRouting : result (list json) := list_or_empty "/stat/routing".

Definition getAlarms (limit : nat) : result (list json) :=
  Ok (catch_default (bind (api (site_endpoint "/stat/alarm")) (fun raw =>
                     Ok (firstn limit (array_or_empty raw)))) []).

Definition getSiteHealth : result json :=
  Ok (catch_default
        (bind (api (site_endpoint "/stat/health")) (fun raw =>
         let arr := match raw with
                    | JArr xs => xs
                    | _ => if truthy (Some raw) then [raw] else []
                    end in
         Ok match arr with
            | x :: _ => or_else x (JObj [])
            | [] => JObj []
            end))
        (JObj [])).

(** [normalize] of [getIntrusionEvents]. *)
Definition normalize_events (raw : json) : list json :=
  match raw with
  | JArr xs => xs
  | JObj fields =>
      match assoc "data" fields, assoc "events" fields, assoc "by_source" fields with
      | Some (JArr xs), _, _ => xs
      | _, Some (JArr xs), _ => xs
      | _, _, Some (JArr xs) => xs
      | _, _, _ => []
      end
  | _ => []
  end.

Fixpoint first_events (limit : nat) (endpoints : list jsstring) : list json :=
  match endpoints with
  | [] => []
  | endpoint :: others =>
      match api endpoint with
      | Ok raw =>
          match normalize_events raw with
          | [] => first_events limit others
          | list => firstn limit list
          end
      | Throw _ => first_events limit others
      end
  end.

Definition getIntrusionEvents (limit : nat) : result (list json) :=
  Ok (first_events limit
        [site_endpoint "/stat/ips"; site_endpoint "/rest/ips";
         site_endpoint "/stat/threat"; site_endpoint "/rest/threat"]).

(** [{ eventLog, connectionEvents }] *)
Record site_events := mkSiteEvents {
  eventLog : list json;
  connectionEvents : list json
}.

Definition getSiteEvents (eventLogLimit : nat) : result site_events :=
  Ok (catch_default
        (bind (api (site_endpoint "/stat/event")) (fun raw =>
         let events :=
           match raw with
           | JArr xs => xs
           | _ => match opt_get "data" (Some raw) with
                  | Some (JArr xs) => if truthy (Some raw) then xs else []
                  | _ => []
                  end
           end in
         bind (connection_events_of events) (fun selected =>
         Ok (mkSiteEvents (firstn eventLogLimit events) selected))))
        (mkSiteEvents [] [])).

(** *** Health metrics *)

(** [xs.filter(pred)] for a predicate that may throw. *)
Fixpoint filter_r (pred : json -> result bool) (xs : list json) : result (list json) :=
  match xs with
  | [] => Ok []
  | x :: xs' =>
      bind (pred x) (fun keep =>
      bind (filter_r pred xs') (fun kept =>
      Ok (if keep then x :: kept else kept)))
  end.

(** [String(a ?? b ?? ... ?? '').trim()] is a non-empty string. *)
Definition has_text (candidates : list value) : bool :=
  match trim (String_ (fold_right nullish (Some (JStr [])) candidates)) with
  | [] => false
  | _ :: _ => true
  end.

Definition isValidClient (c : json) : bool :=
  is_object c &&
  (has_text [field "mac" c; field "mac_address" c]
   || has_text [field "ip" c; field "fixed_ip" c; opt_get "ip" (field "network" c)]
   || has_text [field "hostname" c; field "name" c]).

Definition isValidDevice (d : json) : bool :=
  is_object d && has_text [field "mac" d; field "mac_address" d].

Definition MAX_LIST : nat := 250.

(** [{ total, online, offline }] *)
Record device_counts := mkDeviceCounts {
  total : Z;
  online : Z;
  offline : Z
}.

(** [{ total, wireless, wired }] *)
Record client_counts := mkClientCounts {
  c_total : Z;
  wireless : Z;
  wired : Z
}.

(** The result of [getHealthMetrics], without the [types] tally and the
    [timestamp]. *)
Record health_metrics := mkHealth {
  devices : device_counts;
  devicesList : list json;
  clients : client_counts;
  clientsList : list json;
  system : json
}.

Definition len (xs : list json) : Z := Z.of_nat (length xs).

Definition getHealthMetrics : result health_metrics :=
  rethrow "Failed to get UniFi health metrics: "
    (let devices := catch_default getDevices [] in
     let clients := catch_default getClients [] in
     let systemInfo := catch_default (bind getSystemInfo (fun i => Ok (Some i))) None in
     bind (filter_r (fun d => bind (get "state" d) (fun v => Ok (is_num v 1))) devices)
       (fun online_ =>
     let onlineDevices := len online_ in
     let totalDevices := len devices in
     bind (filter_r (fun c => bind (get "is_wired" c) (fun v => Ok (is_bool v false))) clients)
       (fun wireless_ =>
     bind (filter_r (fun c => bind (get "is_wired" c) (fun v => Ok (is_bool v true))) clients)
       (fun wired_ =>
     let clientsList := firstn MAX_LIST (filter isValidClient clients) in
     let devicesList := firstn MAX_LIST (filter isValidDevice devices) in
     Ok (mkHealth
           (mkDeviceCounts totalDevices onlineDevices (totalDevices - onlineDevices))
           devicesList
           (mkClientCounts (len clients) (len wireless_) (len wired_))
           clientsList
           match systemInfo with
           | Some i => or_else (si_system i) (JObj [])
           | None => JObj []
           end))))).

(** [x?.length] *)
Definition length_of (x : json) : value :=
  match x with
  | JArr xs => Some (JNum (len xs))
  | JStr str => Some (JNum (Z.of_nat (length str)))
  | JObj fields => assoc "length" fields
  | _ => None
  end.

(** [{ success, message }] of [testConnection]:
<<
      const systemInfo = await this.getSystemInfo();
      return {
        success: true,
        message: `Connected to UniFi controller. Found ${systemInfo.sites?.length || 0} site(s).`,
        ...
    } catch (error) {
      return { success: false, message: error.message };
>> *)
Definition testConnection : bool * jsstring :=
  match getSystemInfo with
  | Ok systemInfo =>
      (true,
       lit "Connected to UniFi controller. Found " ++
       String_ (if truthy (length_of (si_sites systemInfo))
                then length_of (si_sites systemInfo)
                else Some (JNum 0)) ++
       lit " site(s).")
  | Throw e => (false, message e)
  end.

End Fetchers.

(** *** Requests that do not settle

    The fetchers above are given what each call of [apiRequest] settles
    with.  A call of [apiRequest] need not settle: it calls itself again
    after every login that follows a 401.  Below, [None] is a promise
    that stays pending.  [Promise.all] of the two requests of
    [getSystemInfo], each with its own [catch], settles when both have
    settled, and [testConnection] awaits it. *)
Definition getSystemInfo_async (api : jsstring -> option (result json))
  : option (result system_info) :=
  match api (lit "/api/self"), api (lit "/api/sites") with
  | Some system, Some sites =>
      Some (getSystemInfo
              (fun endpoint => if str_eqb endpoint (lit "/api/self") then system else sites))
  | _, _ => None
  end.

Definition testConnection_async (api : jsstring -> option (result json))
  : option (bool * jsstring) :=
  match api (lit "/api/self"), api (lit "/api/sites") with
  | Some system, Some sites =>
      Some (testConnection
              (fun endpoint => if str_eqb endpoint (lit "/api/self") then system else sites))
  | _, _ => None
  end.

End UniFiMonitor.

(** ** The cloud-fleet client, [class UniFiSiteManagerMonitor] *)

Module UniFiSiteManagerMonitor.

Import UniFiMonitor.

Local Open Scope Z_scope.

Section Runtime.

(** StringToNumber of ECMAScript on the strings that denote an integer;
    [None] is [NaN] (and any number that is not an integer, which like
    [NaN] is different from 1). *)
Variable StringToNumber : jsstring -> option Z.

(** [Number(v)] *)
Definition Number_ (v : value) : option Z :=
  match v with
  | None => None
  | Some JNull => Some 0
  | Some (JBool b) => Some (if b then 1 else 0)
  | Some (JNum n) => Some n
  | Some (JStr s) => StringToNumber s
  | Some j => StringToNumber (ToString j)
  end.

(** [(a ?? b ?? ... ?? '')] *)
Definition first_of (candidates : list value) : value :=
  fold_right nullish (Some (JStr [])) candidates.

(**
<<
  _deviceIsOnline(d) {
    if (d == null || typeof d !== 'object') return false;
    const s = (d.state ?? d.connectionState ?? d.status ?? d.connection_status ?? '').toString().toLowerCase();
    if (s === 'connected' || s === 'online' || s === '1') return true;
    if (d.connected === true || d.isOnline === true) return true;
    const n = Number(d.state ?? d.status);
    if (n === 1) return true;
    return false;
  }
>> *)
Definition _deviceIsOnline (d : json) : bool :=
  match d with
  | JNull => false
  | _ =>
      if negb (typeof_object (Some d)) then false
      else
        let s := toLowerCase (String_ (first_of [field "state" d; field "connectionState" d;
                                                 field "status" d; field "connection_status" d])) in
        if str_eqb s (lit "connected") || str_eqb s (lit "online") || str_eqb s (lit "1")
        then true
        else if is_bool (field "connected" d) true || is_bool (field "isOnline" d) true
        then true
        else
          match Number_ (nullish (field "state" d) (field "status" d)) with
          | Some 1 => true
          | _ => false
          end
  end.

(** The callback of [anyWithStatus]:
<<
        const v = d.state ?? d.status ?? d.connectionState ?? d.connected ?? d.isOnline;
        return v !== undefined && v !== null && v !== '';
>> *)
Definition status_value (d : json) : value :=
  nullish (field "state" d) (nullish (field "status" d) (nullish (field "connectionState" d)
    (nullish (field "connected" d) (field "isOnline" d)))).

Definition has_status (d : json) : result bool :=
  bind (get "state" d) (fun _ =>
  Ok match status_value d with
     | None | Some JNull | Some (JStr []) => false
     | Some _ => true
     end).

(** [xs.some(pred)] for a predicate that may throw. *)
Fixpoint some_r (pred : json -> result bool) (xs : list json) : result bool :=
  match xs with
  | [] => Ok false
  | x :: xs' => bind (pred x) (fun b => if b then Ok true else some_r pred xs')
  end.

Definition is_wireless (c : json) : bool :=
  truthy (Some c) &&
  (is_bool (field "is_wired" c) false
   || is_bool (field "wired" c) false
   || (truthy (field "type" c) &&
       includes (toLowerCase (String_ (field "type" c))) (lit "wireless"))).

Definition isValidClient (c : json) : bool :=
  is_object c &&
  (has_text [field "mac" c; field "mac_address" c]
   || has_text [field "ip" c; field "fixed_ip" c; opt_get "ip" (field "network" c);
                field "ip_address" c]
   || has_text [field "hostname" c; field "name" c]).

Definition isValidDevice (d : json) : bool :=
  is_object d &&
  (has_text [field "mac" d; field "mac_address" d]
   || has_text [field "serial" d; field "serial_number" d]
   || has_text [field "id" d; field "device_id" d; field "_id" d]
   || has_text [field "name" d; field "hostname" d; field "display_name" d;
                field "device_name" d; field "label" d]).

(** The result of the cloud [getHealthMetrics], without the [timestamp]. *)
Record cloud_metrics := mkCloud {
  sites_total : Z;
  sitesList : list json;
  devices : device_counts;
  devicesList : list json;
  rawDeviceList : list json;
  clients : client_counts;
  clientsList : list json
}.

(** [getHealthMetrics], given what [getSites()], [getDevices()] and
    [getClients().catch(() => [])] resolve to (the first two never
    reject). *)
Definition getHealthMetrics (sites devices clients : json) : result cloud_metrics :=
  let deviceList := array_or_empty devices in
  let siteList := array_or_empty sites in
  let clientList := array_or_empty clients in
  let online := len (filter _deviceIsOnline deviceList) in
  bind (if (0 <? len deviceList) && (online =? 0)
        then bind (some_r has_status deviceList) (fun anyWithStatus =>
             Ok (if negb anyWithStatus then len deviceList else online))
        else Ok online) (fun online =>
  let wirelessClients := len (filter is_wireless clientList) in
  let wiredClients := len clientList - wirelessClients in
  let clientsList := firstn MAX_LIST (filter isValidClient clientList) in
  let devicesList := firstn MAX_LIST (filter isValidDevice deviceList) in
  Ok (mkCloud (len siteList) (firstn 100 siteList)
        (mkDeviceCounts (len deviceList) online (len deviceList - online))
        devicesList (firstn MAX_LIST deviceList)
        (mkClientCounts (len clientList) wirelessClients wiredClients)
        clientsList)).

End Runtime.

End UniFiSiteManagerMonitor.

(** ** The aggregator, [getMonitoringData] *)

Module Aggregator.

Import UniFiMonitor.

Local Open Scope Z_scope.

(** One entry of [monitoring.unifi.controllers] in the configuration. *)
Record controller_config := mkConfig {
  cfg_id : jsstring;
  cfg_name : jsstring;
  cfg_enabled : bool;
  cfg_baseUrl : jsstring;
  cfg_site : jsstring
}.

(** One entry of [data.unifi.controllers]. *)
Record controller_result := mkController {
  id : jsstring;
  name : jsstring;
  success : bool;
  error : option jsstring;
  metrics : option health_metrics;
  recentConnectionEvents : list json;
  eventLog : list json;
  networks : list json;
  wlans : list json;
  alarms : list json;
  portProfiles : list json;
  siteHealth : json;
  portForwards : list json;
  routes : list json;
  intrusionEvents : list json
}.

(** [data.unifi.summary] *)
Record summary := mkSummary {
  controllers_total : Z;
  controllers_online : Z;
  controllers_offline : Z;
  sum_devices : device_counts;
  sum_clients : client_counts
}.

Record unifi_data := mkUnifi {
  controllers : list controller_result;
  unifi_summary : option summary
}.

Section Aggregation.

(** What [apiRequest] of the client built for a controller answers, and
    the connection-event selection of that client. *)
Variable api_of : controller_config -> jsstring -> result json.
Variable connection_events_of : list json -> result (list json).

(** [cfg.name || cfg.baseUrl] *)
Definition display_name (cfg : controller_config) : jsstring :=
  match cfg_name cfg with
  | [] => cfg_baseUrl cfg
  | n => n
  end.

Definition site_of (cfg : controller_config) : jsstring :=
  match cfg_site cfg with
  | [] => lit "default"
  | s => s
  end.

(** The callback mapped over the enabled controllers. *)
Definition fetch_controller (cfg : controller_config) : controller_result :=
  let site := site_of cfg in
  let api := api_of cfg in
  match
    bind (getHealthMetrics site api) (fun metrics =>
    let siteEvents := catch_default (getSiteEvents site api connection_events_of 80)
                        (mkSiteEvents [] []) in
    let networks := catch_default (getNetworks site api) [] in
    let wlans := catch_default (getWlans site api) [] in
    let alarms := catch_default (getAlarms site api 30) [] in
    let portProfiles := catch_default (getPortProfiles site api) [] in
    let siteHealth := catch_default (getSiteHealth site api) (JObj []) in
    let portForwards := catch_default (getPortForwards site api) [] in
    let routes := catch_default (getRouting site api) [] in
    let intrusionEvents := catch_default (getIntrusionEvents site api 50) [] in
    Ok (mkController (cfg_id cfg) (display_name cfg) true None (Some metrics)
          (UniFiMonitor.connectionEvents siteEvents) (UniFiMonitor.eventLog siteEvents)
          networks wlans alarms portProfiles
          (if is_object siteHealth then siteHealth else JObj [])
          portForwards routes intrusionEvents))
  with
  | Ok r => r
  | Throw err =>
      mkController (cfg_id cfg) (display_name cfg) false (Some (message err)) None
        [] [] [] [] [] [] (JObj []) [] [] []
  end.

(** [ok.reduce((s, c) => s + (f(c) || 0), 0)] *)
Definition sum_over (f : health_metrics -> Z) (ok : list controller_result) : Z :=
  fold_left (fun s c => s + match metrics c with Some m => f m | None => 0 end) ok 0.

(** The UniFi Network half of [getMonitoringData]. *)
Definition getMonitoringData (unifiControllers : list controller_config) : unifi_data :=
  let enabledUnifi := filter cfg_enabled unifiControllers in
  match enabledUnifi with
  | [] => mkUnifi [] None
  | _ =>
      let results := map fetch_controller enabledUnifi in
      let ok := filter success results in
      match ok with
      | [] => mkUnifi results None
      | _ =>
          let dev_total := sum_over (fun m => total (UniFiMonitor.devices m)) ok in
          let dev_online := sum_over (fun m => online (UniFiMonitor.devices m)) ok in
          mkUnifi results
            (Some (mkSummary
                     (Z.of_nat (length enabledUnifi)) (Z.of_nat (length ok))
                     (Z.of_nat (length enabledUnifi) - Z.of_nat (length ok))
                     (mkDeviceCounts dev_total dev_online (dev_total - dev_online))
                     (mkClientCounts
                        (sum_over (fun m => c_total (UniFiMonitor.clients m)) ok)
                        (sum_over (fun m => wireless (UniFiMonitor.clients m)) ok)
                        (sum_over (fun m => wired (UniFiMonitor.clients m)) ok))))
      end
  end.

End Aggregation.

End Aggregator.

(** ** The context formatter, [getMonitoringContext] *)

Module Formatter.

Import Diagnostics Aggregator.

Local Open Scope Z_scope.

Definition em_dash : jsstring := [8212%N].
Definition en_dash : jsstring := [8211%N].
Definition ellipsis : jsstring := [8230%N].
Definition middle_dot : jsstring := [183%N].
Definition quoted (s : jsstring) : jsstring := [34%N] ++ s ++ [34%N].

(** *** Diagnostics on request *)

(** [conversationHistory.slice(-6).map((m) => (m && m.message ? String(m.message) : '')).join(' ')] *)
Definition recentText (conversationHistory : list json) : jsstring :=
  join (lit " ")
    (map (fun m => if truthy (Some m) && truthy (field "message" m)
                   then String_ (field "message" m) else [])
         (skipn (length conversationHistory - 6) conversationHistory)).

(** [typeof query === 'string' ? query.trim() : ''] *)
Definition message_of (query : value) : jsstring :=
  match query with
  | Some (JStr q) => trim q
  | _ => []
  end.

Definition referent (conversationHistory : list json) (msg : jsstring) : option jsstring :=
  match resolveHostFromConversation (recentText conversationHistory ++ lit " " ++ msg) with
  | Some (c :: h) => Some (c :: h)
  | _ => None
  end.

Definition pingReq (msg : jsstring) (conversationHistory : list json) : option ping_request :=
  match msg with
  | [] => None
  | _ =>
      match detectPingRequest msg with
      | Some r => Some r
      | None =>
          if detectPingIntentWithoutHost msg
          then option_map (fun host => mkPingReq host 4) (referent conversationHistory msg)
          else None
      end
  end.

Definition traceReq (msg : jsstring) (conversationHistory : list json) : option trace_request :=
  match msg with
  | [] => None
  | _ =>
      match detectTracerouteRequest msg with
      | Some r => Some r
      | None =>
          if detectTracerouteIntentWithoutHost msg
          then option_map (fun host => mkTraceReq host 15) (referent conversationHistory msg)
          else None
      end
  end.

Definition portReq (msg : jsstring) (conversationHistory : list json) : option port_request :=
  match msg with
  | [] => None
  | _ =>
      match detectPortTestRequest msg with
      | Some r => Some r
      | None =>
          if detectPortTestIntentWithoutHost msg
          then
            match referent conversationHistory msg, extractPortFromMessage msg with
            | Some host, Some port => Some (mkPortReq host port)
            | _, _ => None
            end
          else None
      end
  end.

(** What follows the preamble of a ping or a traceroute:
<<
      context += result.output || result.error || 'No output.\n';
      if (result.error) context += `(Error: ${result.error})\n`;
>> *)
Definition command_text (result : cmd_result) : jsstring :=
  let err := match Diagnostics.error result with Some e => e | None => [] end in
  or_str (output result) (or_str err (lit "No output." ++ [10%N])) ++
  match err with
  | [] => []
  | _ => lit "(Error: " ++ err ++ lit ")" ++ [10%N]
  end.

Definition ping_preamble (host : jsstring) : jsstring :=
  [10; 10]%N ++ lit "Ping result (from this server to " ++ host ++
  lit "); use this to answer the user and help diagnose connectivity:" ++ [10%N].

Definition traceroute_preamble (host : jsstring) : jsstring :=
  [10; 10]%N ++ lit "Traceroute result (from this server to " ++ host ++
  lit "); use this to answer the user and help diagnose path/latency:" ++ [10%N].

Definition port_preamble (host : jsstring) (port : Z) : jsstring :=
  [10; 10]%N ++ lit "Port test result (from this server to " ++ host ++ lit ":" ++
  num_to_string port ++ lit "); use this to answer the user:" ++ [10%N].

Definition ping_block (w : os) (req : option ping_request) : jsstring * list effect :=
  match req with
  | None => ([], [])
  | Some r =>
      let (result, effects) := runPing w (Some (JStr (pg_host r))) (pg_count r) in
      (ping_preamble (pg_host r) ++ command_text result, effects)
  end.

Definition traceroute_block (w : os) (req : option trace_request) : jsstring * list effect :=
  match req with
  | None => ([], [])
  | Some r =>
      let (result, effects) := runTraceroute w (Some (JStr (tr_host r))) (tr_maxHops r) in
      (traceroute_preamble (tr_host r) ++ command_text result, effects)
  end.

Definition port_block (w : os) (req : option port_request) : jsstring * list effect :=
  match req with
  | None => ([], [])
  | Some r =>
      let (result, effects) := testPort w (Some (JStr (pr_host r))) (pr_port r) in
      (port_preamble (pr_host r) (pr_port r) ++
       (if open result
        then lit "Port " ++ num_to_string (pr_port r) ++ lit " is OPEN on " ++ pr_host r ++ lit "."
        else lit "Port " ++ num_to_string (pr_port r) ++ lit " is closed or unreachable: " ++
             pmessage result) ++ [10%N],
       effects)
  end.

(** The opening of [getMonitoringContext], up to the IP lookup: the text
    appended to the context and what was asked of the operating system. *)
Definition getMonitoringContext_diagnostics
  (w : os) (query : value) (conversationHistory : list json) : jsstring * list effect :=
  let msg := message_of query in
  let (c1, e1) := ping_block w (pingReq msg conversationHistory) in
  let (c2, e2) := traceroute_block w (traceReq msg conversationHistory) in
  let (c3, e3) := port_block w (portReq msg conversationHistory) in
  (c1 ++ c2 ++ c3, e1 ++ e2 ++ e3).

(** *** List sections *)

Section Sections.

(** [summarizeCloudItem(item)], the one-line summary of a cloud item. *)
Variable summarizeCloudItem : json -> jsstring.

(** [xs.map((item, i) => f(i + 1, item))] *)
Fixpoint map_numbered {A B} (f : Z -> A -> B) (i : Z) (xs : list A) : list B :=
  match xs with
  | [] => []
  | x :: xs' => f (i + 1) x :: map_numbered f (i + 1) xs'
  end.

(** [lines] of [formatCloudList]. *)
Definition cloud_lines (arr : list json) (maxItems : nat) : list jsstring :=
  map_numbered (fun i item => lit "  " ++ num_to_string i ++ lit ". " ++ summarizeCloudItem item)
    0 (firstn maxItems arr).

(** [`\n  … and ${arr.length - maxItems} more`] *)
Definition more_marker (n : Z) : jsstring :=
  [10%N] ++ lit "  " ++ ellipsis ++ lit " and " ++ num_to_string n ++ lit " more".

Definition cloud_header (label : jsstring) : jsstring :=
  [10%N] ++ lit "UniFi Site Manager (cloud) " ++ en_dash ++ lit " " ++ label ++
  lit " (use for user questions about this data):" ++ [10%N].

(**
<<
function formatCloudList(arr, label, maxItems = 50) {
  if (!Array.isArray(arr) || arr.length === 0) return '';
  const lines = arr.slice(0, maxItems).map((item, i) => `  ${i + 1}. ${summarizeCloudItem(item)}`);
  return `\nUniFi Site Manager (cloud) – ${label} (use for user questions about this data):\n${lines.join('\n')}${arr.length > maxItems ? `\n  … and ${arr.length - maxItems} more` : ''}\n`;
}
>> *)
Definition formatCloudList (arr : value) (label : jsstring) (maxItems : nat) : jsstring :=
  match arr with
  | Some (JArr (x :: xs)) =>
      let arr := x :: xs in
      cloud_header label ++ join [10%N] (cloud_lines arr maxItems) ++
      (if Nat.ltb maxItems (length arr)
       then more_marker (Z.of_nat (length arr) - Z.of_nat maxItems) else []) ++
      [10%N]
  | _ => []
  end.

(** The lists of [monitoringData.siteManager.metrics] that
    [getMonitoringContext] hands to [formatCloudList]. *)
Record cloud_lists := mkCloudLists {
  m_sitesList : value;
  cloudAlerts : value;
  internetHealth : value;
  cloudEvents : value;
  cloudNetworks : value;
  cloudWlans : value;
  cloudGateways : value;
  trafficOrInsights : value
}.

(** [if (Array.isArray(arr) && arr.length > 0) context += formatCloudList(arr, label, maxItems)]:
    the text appended. *)
Definition cloud_section (arr : value) (label : jsstring) (maxItems : nat) : jsstring :=
  match arr with
  | Some (JArr (_ :: _)) => formatCloudList arr label maxItems
  | _ => []
  end.

(** The eight calls of [formatCloudList] in [getMonitoringContext], in
    the order of the context (the client and device lists of the cloud
    come between the first and the second):
<<
      context += formatCloudList(m.sitesList, 'sites list', 30);
      context += formatCloudList(m.cloudAlerts, 'alerts', 30);
      context += formatCloudList(m.internetHealth, 'internet health / metrics', 20);
      context += formatCloudList(m.cloudEvents, 'events / activity', 40);
      context += formatCloudList(m.cloudNetworks, 'networks', 30);
      context += formatCloudList(m.cloudWlans, 'WLANs / SSIDs', 20);
      context += formatCloudList(m.cloudGateways, 'gateways', 20);
      context += formatCloudList(m.trafficOrInsights, 'traffic / insights / performance', 20);
>> *)
Definition cloud_sections (m : cloud_lists) : list jsstring :=
  [ cloud_section (m_sitesList m) (lit "sites list") 30;
    cloud_section (cloudAlerts m) (lit "alerts") 30;
    cloud_section (internetHealth m) (lit "internet health / metrics") 20;
    cloud_section (cloudEvents m) (lit "events / activity") 40;
    cloud_section (cloudNetworks m) (lit "networks") 30;
    cloud_section (cloudWlans m) (lit "WLANs / SSIDs") 20;
    cloud_section (cloudGateways m) (lit "gateways") 20;
    cloud_section (trafficOrInsights m) (lit "traffic / insights / performance") 20 ]%nat.

(** [a ?? b ?? ... ?? dflt] read off an item that must not be [null]. *)
Definition pick (item : json) (keys : list string) (dflt : jsstring) : result jsstring :=
  match keys with
  | [] => Ok dflt
  | k :: _ =>
      bind (get k item) (fun _ =>
      Ok (String_ (fold_right nullish (Some (JStr dflt)) (map (fun k => field k item) keys))))
  end.

(** [v != null] *)
Definition not_nullish (v : value) : bool :=
  match v with
  | None | Some JNull => false
  | Some _ => true
  end.

(** One line of the networks section:
<<
          const name = n.name ?? n.display_name ?? '—';
          const purpose = n.purpose ?? n.type ?? '—';
          const vlan = n.vlan != null ? n.vlan : (n.vlan_id != null ? n.vlan_id : '—');
          const subnet = n.ip_subnet ?? n.subnet ?? n.cidr ?? '—';
          const dhcp = n.dhcpd_enabled != null ? (n.dhcpd_enabled ? 'DHCP on' : 'no DHCP') : '';
          context += `  · ${name} | purpose: ${purpose} | VLAN: ${vlan} | subnet: ${subnet} ${dhcp}\n`;
>> *)
Definition network_line (n : json) : result jsstring :=
  bind (pick n ["name"; "display_name"]%string em_dash) (fun name =>
  bind (pick n ["purpose"; "type"]%string em_dash) (fun purpose =>
  bind (pick n ["vlan"; "vlan_id"]%string em_dash) (fun vlan =>
  bind (pick n ["ip_subnet"; "subnet"; "cidr"]%string em_dash) (fun subnet =>
  let dhcp := if not_nullish (field "dhcpd_enabled" n)
              then if truthy (field "dhcpd_enabled" n) then lit "DHCP on" else lit "no DHCP"
              else [] in
  Ok (lit "  " ++ middle_dot ++ lit " " ++ name ++ lit " | purpose: " ++ purpose ++
      lit " | VLAN: " ++ vlan ++ lit " | subnet: " ++ subnet ++ lit " " ++ dhcp ++ [10%N]))))).

(** One line of the WLAN section:
<<
          const name = w.name ?? w.ssid ?? '—';
          const enabled = w.enabled != null ? (w.enabled ? 'enabled' : 'disabled') : '—';
          const security = w.security ?? w.wpa_mode ?? w.auth ?? '—';
          context += `  · ${name} | ${enabled} | security: ${security}\n`;
>> *)
Definition wlan_line (w : json) : result jsstring :=
  bind (pick w ["name"; "ssid"]%string em_dash) (fun name =>
  let enabled := if not_nullish (field "enabled" w)
                 then if truthy (field "enabled" w) then lit "enabled" else lit "disabled"
                 else em_dash in
  bind (pick w ["security"; "wpa_mode"; "auth"]%string em_dash) (fun security =>
  Ok (lit "  " ++ middle_dot ++ lit " " ++ name ++ lit " | " ++ enabled ++
      lit " | security: " ++ security ++ [10%N]))).

(** [xs.forEach((x) => { context += line(x) })]: the lines appended, in
    order, unless one throws. *)
Fixpoint each_line (line : json -> result jsstring) (xs : list json)
  : result (list jsstring) :=
  match xs with
  | [] => Ok []
  | x :: xs' =>
      bind (line x) (fun l =>
      bind (each_line line xs') (fun ls => Ok (l :: ls)))
  end.

(** The lines a section appends for one controller: its heading, then
    one line for each item. *)
Definition controller_lines (line : json -> result jsstring) (items : list json)
  (c : controller_result) : result (list jsstring) :=
  bind (each_line line items) (fun ls =>
  Ok ((lit "- " ++ name c ++ lit ":" ++ [10%N]) :: ls)).

Fixpoint each_controller (line : json -> result jsstring)
  (items : controller_result -> list json) (cs : list controller_result)
  : result (list jsstring) :=
  match cs with
  | [] => Ok []
  | c :: cs' =>
      bind (controller_lines line (items c) c) (fun ls =>
      bind (each_controller line items cs') (fun rest => Ok (ls ++ rest)))
  end.

(** A section that lists [items c] for every successful controller that
    has some:
<<
    const withItems = (monitoringData.unifi.controllers || []).filter(
      (c) => c.success && Array.isArray(c.items) && c.items.length > 0);
    if (withItems.length > 0) {
      context += heading;
      withItems.forEach((controller) => { ... });
    }
>> *)
Definition list_section (heading : jsstring) (line : json -> result jsstring)
  (items : controller_result -> list json) (cs : list controller_result)
  : result (list jsstring) :=
  match filter (fun c => success c && negb (Nat.eqb (length (items c)) 0)) cs with
  | [] => Ok []
  | withItems =>
      bind (each_controller line items withItems) (fun ls => Ok (heading :: ls))
  end.

Definition networks_section (cs : list controller_result) : result (list jsstring) :=
  list_section
    ([10%N] ++ lit "UniFi networks (VLANs); use for " ++
     quoted (lit "what VLANs exist?") ++ lit ", " ++
     quoted (lit "which VLAN has subnet X?") ++ lit ", " ++
     quoted (lit "list networks") ++ lit ":" ++ [10%N])
    network_line networks cs.

Definition wlans_section (cs : list controller_result) : result (list jsstring) :=
  list_section
    ([10%N] ++ lit "UniFi WLANs (SSIDs); use for " ++
     quoted (lit "what Wi" ++ [8209%N] ++ lit "Fi networks?") ++ lit ", " ++
     quoted (lit "list SSIDs") ++ lit ", " ++
     quoted (lit "which SSID is enabled") ++ lit ":" ++ [10%N])
    wlan_line wlans cs.

(** *** List sections that show a slice *)

(** [minsAgo] of a connection event with the given [time], as the
    template prints it; it reads the clock. *)
Variable minsAgo : value -> jsstring.

(** [x.k1 ?? x.k2 ?? ... ?? dflt] for an [x] that is not [null]. *)
Definition pick_raw (item : json) (keys : list string) (dflt : jsstring) : value :=
  fold_right nullish (Some (JStr dflt)) (map (fun k => field k item) keys).

(** [v !== s] against a string. *)
Definition differs (v : value) (s : jsstring) : bool :=
  match v with
  | Some (JStr t) => negb (str_eqb t s)
  | _ => true
  end.

(** [a || b] *)
Definition or_value (a b : value) : value := if truthy a then a else b.

(** One line of the recent connections:
<<
          const t = e.time != null ? (e.time > 1e12 ? e.time / 1000 : e.time) : 0;
          const minsAgo = t ? Math.round((nowSec - t) / 60) : '?';
          context += `  · ${e.hostname || e.mac} (${e.mac}) — ${minsAgo} min ago\n`;
>> *)
Definition connection_line (e : json) : result jsstring :=
  bind (get "time" e) (fun time =>
  Ok (lit "  " ++ middle_dot ++ lit " " ++
      String_ (or_value (field "hostname" e) (field "mac" e)) ++
      lit " (" ++ String_ (field "mac" e) ++ lit ") " ++ em_dash ++ lit " " ++
      minsAgo time ++ lit " min ago" ++ [10%N])).

(** One line of the alarms:
<<
          const key = a.key ?? a.msg ?? a.message ?? '—';
          const msg = (a.msg ?? a.message ?? a.key ?? '').toString();
          const ts = a.timestamp ?? a.time ?? '—';
          context += `  · ${key}${msg && msg !== key ? ` — ${msg}` : ''} (${ts})\n`;
>> *)
Definition alarm_line (a : json) : result jsstring :=
  bind (get "key" a) (fun _ =>
  let key := pick_raw a ["key"; "msg"; "message"]%string em_dash in
  let msg := String_ (pick_raw a ["msg"; "message"; "key"]%string []) in
  let ts := pick_raw a ["timestamp"; "time"]%string em_dash in
  Ok (lit "  " ++ middle_dot ++ lit " " ++ String_ key ++
      (if truthy (Some (JStr msg)) && differs key msg
       then lit " " ++ em_dash ++ lit " " ++ msg
       else []) ++
      lit " (" ++ String_ ts ++ lit ")" ++ [10%N])).

(** One line of the routes:
<<
          const dst = r.dst ?? r.destination ?? r.network ?? '—';
          const gw = r.gateway ?? r.via ?? r.next_hop ?? '—';
          const dev = r.dev ?? r.interface ?? r.if ?? '—';
          const dist = r.distance ?? r.metric ?? '';
          context += `  · ${dst} via ${gw}${dev !== '—' ? ` dev ${dev}` : ''}${dist ? ` metric ${dist}` : ''}\n`;
>> *)
Definition route_line (r : json) : result jsstring :=
  bind (get "dst" r) (fun _ =>
  let dst := pick_raw r ["dst"; "destination"; "network"]%string em_dash in
  let gw := pick_raw r ["gateway"; "via"; "next_hop"]%string em_dash in
  let dev := pick_raw r ["dev"; "interface"; "if"]%string em_dash in
  let dist := pick_raw r ["distance"; "metric"]%string [] in
  Ok (lit "  " ++ middle_dot ++ lit " " ++ String_ dst ++ lit " via " ++ String_ gw ++
      (if differs dev em_dash then lit " dev " ++ String_ dev else []) ++
      (if truthy dist then lit " metric " ++ String_ dist else []) ++ [10%N])).

(** One line of the site health:
<<
          const subName = s.subsystem ?? s.name ?? s.type ?? '—';
          const subStatus = s.status ?? s.state ?? '—';
          context += `  · ${subName}: ${subStatus}\n`;
>> *)
Definition subsystem_line (s : json) : result jsstring :=
  bind (get "subsystem" s) (fun _ =>
  Ok (lit "  " ++ middle_dot ++ lit " " ++
      String_ (pick_raw s ["subsystem"; "name"; "type"]%string em_dash) ++ lit ": " ++
      String_ (pick_raw s ["status"; "state"]%string em_dash) ++ [10%N])).

(** The lines a section appends for the controllers it shows: for each
    a heading made from the slice [items.slice(0, cap)], then one line
    for each item of the slice. *)
Fixpoint each_sliced (heading : controller_result -> list json -> jsstring)
  (line : json -> result jsstring) (items : controller_result -> list json) (cap : nat)
  (cs : list controller_result) : result (list jsstring) :=
  match cs with
  | [] => Ok []
  | c :: cs' =>
      let list := firstn cap (items c) in
      bind (each_line line list) (fun ls =>
      bind (each_sliced heading line items cap cs') (fun rest =>
      Ok ((heading c list :: ls) ++ rest)))
  end.

(** A section that shows a slice of a list of every controller that
    passes [shows], and says so when no controller does but one
    succeeded:
<<
    const withItems = (monitoringData.unifi.controllers || []).filter(shows);
    if (withItems.length > 0) {
      context += title;
      withItems.forEach((controller) => {
        const list = controller.items.slice(0, cap);
        context += heading;
        list.forEach((x) => { context += line(x) });
      });
    } else if ((monitoringData.unifi.controllers || []).some((c) => c.success)) {
      context += otherwise;
    }
>> *)
Definition sliced_section (title : jsstring) (otherwise : option jsstring)
  (shows : controller_result -> bool)
  (heading : controller_result -> list json -> jsstring)
  (line : json -> result jsstring) (items : controller_result -> list json) (cap : nat)
  (cs : list controller_result) : result (list jsstring) :=
  match filter shows cs with
  | [] =>
      match otherwise with
      | Some text => Ok (if existsb success cs then [text] else [])
      | None => Ok []
      end
  | withItems =>
      bind (each_sliced heading line items cap withItems) (fun ls => Ok (title :: ls))
  end.

(** [c.success && Array.isArray(c.items) && c.items.length > 0] *)
Definition has_some (items : controller_result -> list json) (c : controller_result) : bool :=
  success c && negb (Nat.eqb (length (items c)) 0).

(** The recent connections: [recentConnectionEvents.slice(0, 50)]. *)
Definition connections_section (cs : list controller_result) : result (list jsstring) :=
  sliced_section
    ([10%N] ++ lit "Recent connections (last 5 minutes; use this for " ++
     quoted (lit "clients connected in the past X minutes") ++ lit "):" ++ [10%N])
    (Some ([10%N] ++ lit "Recent connections: no connection events in the last 5 minutes (or event API not available)." ++ [10%N]))
    (has_some recentConnectionEvents)
    (fun c events => lit "- " ++ name c ++ lit ": " ++
                     num_to_string (Z.of_nat (length events)) ++ lit " connection(s)" ++ [10%N])
    connection_line recentConnectionEvents 50 cs.

(** The alarms: [controller.alarms.slice(0, 20)]. *)
Definition alarms_section (cs : list controller_result) : result (list jsstring) :=
  sliced_section
    ([10%N] ++ lit "UniFi recent alarms (use for " ++ quoted (lit "any issues?") ++ lit ", " ++
     quoted (lit "show alarms") ++ lit ", diagnostics):" ++ [10%N])
    (Some ([10%N] ++ lit "UniFi alarms: no recent alarms (or alarm API not available)." ++ [10%N]))
    (has_some alarms)
    (fun c shown => lit "- " ++ name c ++ lit " (" ++
                    num_to_string (Z.of_nat (length shown)) ++ lit " recent):" ++ [10%N])
    alarm_line alarms 20 cs.

(** The routes: [routes.slice(0, 100)]. *)
Definition routes_section (cs : list controller_result) : result (list jsstring) :=
  sliced_section
    ([10%N] ++ lit "UniFi routes (use for " ++ quoted (lit "what routes are established?") ++
     lit ", " ++ quoted (lit "list routes") ++ lit ", " ++ quoted (lit "routing table") ++
     lit ", " ++ quoted (lit "static routes") ++ lit "):" ++ [10%N])
    (Some ([10%N] ++ lit "UniFi routes: no route data (or stat/routing API not available)." ++ [10%N]))
    (has_some routes)
    (fun c _ => lit "- " ++ name c ++ lit ":" ++ [10%N])
    route_line routes 100 cs.

(** [Object.keys(h).length] of an object or an array. *)
Definition keys_length (h : json) : nat :=
  match h with
  | JObj fields => length fields
  | JArr xs => length xs
  | _ => O
  end.

(** [c.success && c.siteHealth && typeof c.siteHealth === 'object' &&
     Object.keys(c.siteHealth).length > 0] *)
Definition health_shown (c : controller_result) : bool :=
  success c && is_object (siteHealth c) && negb (Nat.eqb (keys_length (siteHealth c)) 0).

(** [h.status ?? h.overall ?? '—'] *)
Definition health_status (c : controller_result) : jsstring :=
  String_ (pick_raw (siteHealth c) ["status"; "overall"]%string em_dash).

(** [const subs = h.subsystem ?? h.subsystems; const arr = Array.isArray(subs) ? subs : [];] *)
Definition subsystems (c : controller_result) : list json :=
  match nullish (field "subsystem" (siteHealth c)) (field "subsystems" (siteHealth c)) with
  | Some (JArr xs) => xs
  | _ => []
  end.

(** The site health: [arr.slice(0, 15)]. *)
Definition health_section (cs : list controller_result) : result (list jsstring) :=
  sliced_section
    ([10%N] ++ lit "UniFi site health (use for " ++ quoted (lit "controller health?") ++
     lit ", " ++ quoted (lit "site health") ++ lit ", diagnostics):" ++ [10%N])
    None
    health_shown
    (fun c _ => lit "- " ++ name c ++ lit ": " ++ health_status c ++ [10%N])
    subsystem_line subsystems 15 cs.

End Sections.

End Formatter.

(** ** The configuration routes of the web server *)

Module Server.

Local Open Scope Z_scope.

(** [module.exports] of [utils/monitoring.js]. *)
Definition monitoring_exports : list string :=
  [ "getMonitoringData"; "getMonitoringContext"; "lookupClientByIp";
    "testUniFiConnection"; "testUniFiSiteManagerConnection"; "requestSiteManagerPath";
    "UniFiMonitor"; "UniFiSiteManagerMonitor"; "PrometheusMonitor" ]%string.

(** [const { ..., name, ... } = require('./utils/monitoring')]: the
    binding of [name], [None] ([undefined]) for a name the module does
    not export. *)
Definition required (name : string) : option string :=
  if existsb (String.eqb name) monitoring_exports then Some name else None.

(** [{ status, body }] of the response sent. *)
Record http_response := mkHttp {
  http_status : Z;
  body : json
}.

Section Routes.

(** What a call of an exported function does. *)
Variable run_export : string -> result unit.

(** [updateConfig(updates)] after the masked secrets of [updates] were
    restored, [reloadConfig()] and [initializeOpenAI()]. *)
Variable updateConfig : list (string * json) -> result json.
Variable reloadConfig : result json.
Variable initializeOpenAI : result unit.

(** The copy of the configuration with its secrets hidden. *)
Variable safeConfig : json -> json.

(** [binding()] *)
Definition call (name : string) (binding : option string) : result unit :=
  match binding with
  | Some f => run_export f
  | None => Throw (Error (lit name ++ lit " is not a function"))
  end.

Definition invalidateMonitoringCache : option string :=
  required "invalidateMonitoringCache".

(** [catch (error) { res.status(500).json({ error: error.message }) }] *)
Definition respond (r : result json) : http_response :=
  match r with
  | Ok safe => mkHttp 200 safe
  | Throw e => mkHttp 500 (JObj [("error"%string, JStr (message e))])
  end.

(** [PUT /api/config] *)
Definition put_config (updates : list (string * json)) : http_response :=
  respond
    (bind (updateConfig updates) (fun updatedConfig =>
     bind (if truthy (opt_get "provider" (assoc "llm" updates))
              || truthy (opt_get "apiKey" (opt_get "openai" (assoc "llm" updates)))
           then initializeOpenAI else Ok tt) (fun _ =>
     bind (if truthy (assoc "monitoring" updates)
           then call "invalidateMonitoringCache" invalidateMonitoringCache
           else Ok tt) (fun _ =>
     Ok (safeConfig updatedConfig))))).

(** [POST /api/config/reload] *)
Definition post_reload : http_response :=
  respond
    (bind reloadConfig (fun reloadedConfig =>
     bind initializeOpenAI (fun _ =>
     bind (call "invalidateMonitoringCache" invalidateMonitoringCache) (fun _ =>
     Ok (safeConfig reloadedConfig))))).

End Routes.

End Server.

(** ** The requests of the cloud-fleet client, [class UniFiSiteManagerMonitor] *)

Module SiteManagerApi.

Import UniFiMonitor.

Local Open Scope Z_scope.

(** The fields of the client object. *)
Record client := mkClient {
  baseUrl : jsstring;
  apiKey : jsstring;
  verifySSL : bool
}.

(** [constructor(config)], the fields of [config] being strings ([[]]
    for a missing one):
<<
    this.baseUrl = (config.baseUrl || 'https://api.ui.com').replace(/\/$/, '');
    this.apiKey = config.apiKey || '';
    this.verifySSL = config.verifySSL !== false;
>> *)
Definition new (cfg_baseUrl cfg_apiKey : jsstring) (cfg_verifySSL : bool) : client :=
  mkClient
    (strip_slash (match cfg_baseUrl with [] => lit "https://api.ui.com" | b => b end))
    cfg_apiKey cfg_verifySSL.

(** The calls of axios made so far, latest first, are threaded through
    the methods. *)
Definition http_request : Type := UniFiMonitor.request.

Definition C (A : Type) : Type := list http_request -> result A * list http_request.

Definition ret {A} (a : A) : C A := fun sent => (Ok a, sent).

(** [getOptions()]: the status check is that of the local client, and
    the key travels in the [X-API-Key] header. *)
Definition getOptions : request_options :=
  mkOptions 15000 (fun s => s <? 500).

Definition get_request (this : client) (url : jsstring) : http_request :=
  mkRequest false url None (Some (apiKey this)) None None.

(** [axios.get(url, this.getOptions())] *)
Definition axios_get (w : controller) (this : client) (url : jsstring) : C response :=
  fun sent =>
    let req := get_request this url in
    match settle maxRedirects (w sent req) with
    | Answered r =>
        if validateStatus getOptions (status r) then (Ok r, req :: sent)
        else (Throw (mkError (lit "Request failed with status code " ++
                              num_to_string (status r))
                             (Some (lit "ERR_BAD_RESPONSE")) (Some (status r))),
              req :: sent)
    | Failed c msg => (Throw (mkError msg (Some c) None), req :: sent)
    end.

(** [const url = path.startsWith('http') ? path : `${this.baseUrl}${path.startsWith('/') ? '' : '/'}${path}`] *)
Definition url_of (this : client) (path : jsstring) : jsstring :=
  if startsWith path (lit "http") then path
  else baseUrl this ++ (if startsWith path (lit "/") then [] else lit "/") ++ path.

(**
<<
  async request(path) {
    if (!this.apiKey) throw new Error('UniFi Site Manager API key not configured');
    const url = ...;
    const res = await axios.get(url, this.getOptions());
    if (res.status === 401 || res.status === 403) {
      throw new Error('UniFi Site Manager API key invalid or expired. ...');
    }
    if (res.status === 429) {
      throw new Error('UniFi Site Manager rate limit exceeded. Retry later.');
    }
    if (res.status < 200 || res.status >= 300) {
      throw new Error(`UniFi Site Manager API returned ${res.status}`);
    }
    return res.data;
  }
>> *)
Definition request (w : controller) (this : client) (path : jsstring) : C value :=
  fun sent =>
    match apiKey this with
    | [] => (Throw (Error (lit "UniFi Site Manager API key not configured")), sent)
    | _ =>
        match axios_get w this (url_of this path) sent with
        | (Ok res, sent') =>
            if is_401_403 (status res)
            then (Throw (Error (lit "UniFi Site Manager API key invalid or expired. Check Settings "
                                ++ [8594%N] ++ lit " API Keys (EA) or API section (GA).")),
                  sent')
            else if status res =? 429
            then (Throw (Error (lit "UniFi Site Manager rate limit exceeded. Retry later.")),
                  sent')
            else if (status res <? 200) || (300 <=? status res)
            then (Throw (Error (lit "UniFi Site Manager API returned " ++
                                num_to_string (status res))), sent')
            else (Ok (data res), sent')
        | (Throw e, sent') => (Throw e, sent')
        end
    end.

(** The loop shared by [_tryPaths] and the getters:
<<
    for (const p of paths) {
      try {
        const data = await this.request(p);
        ... return ...;       // or fall through to the next path
      } catch (_) {
        continue;
      }
    }
    return dflt;
>>
    [on_answer data] is what the body returns for the answer [data],
    [None] when it falls through. *)
Fixpoint try_each {A} (w : controller) (this : client) (on_answer : value -> option A)
  (dflt : A) (paths : list jsstring) : C A :=
  match paths with
  | [] => ret dflt
  | p :: others =>
      fun sent =>
        match request w this p sent with
        | (Ok data, sent') =>
            match on_answer data with
            | Some a => (Ok a, sent')
            | None => try_each w this on_answer dflt others sent'
            end
        | (Throw _, sent') => try_each w this on_answer dflt others sent'
        end
  end.

(** [data != null ? data : undefined] *)
Definition defined (data : value) : value :=
  match data with
  | None | Some JNull => None
  | Some _ => data
  end.

(** [_tryPaths(paths)] *)
Definition _tryPaths (w : controller) (this : client) (paths : list jsstring) : C value :=
  try_each w this (fun data => Some (defined data)) None paths.

(** [check] of [_extractArray]; [None] is its [null]. *)
Definition check (val : value) : option (list json) :=
  match val with
  | Some (JArr xs) => Some xs
  | Some (JObj fields) =>
      let arr :=
        fold_right nullish None
          (map (fun k => assoc k fields)
             ["data"; "sites"; "devices"; "hosts"; "items"; "results"; "entries";
              "result"]%string) in
      match arr with
      | Some (JArr xs) => Some xs
      | Some (JObj inner) =>
          match assoc "devices" inner with
          | Some (JArr ds) => Some ds
          | _ => None
          end
      | _ => None
      end
  | _ => None
  end.

(**
<<
  _extractArray(data, ...keys) {
    if (data == null) return [];
    if (Array.isArray(data)) return data;
    const check = (val) => { ... };
    for (const key of keys) {
      const val = data[key];
      const arr = check(val);
      if (arr) return arr;
    }
    return [];
  }
>> *)
Fixpoint extract_from (data : json) (keys : list string) : list json :=
  match keys with
  | [] => []
  | key :: others =>
      match check (field key data) with
      | Some arr => arr
      | None => extract_from data others
      end
  end.

Definition _extractArray (data : value) (keys : list string) : list json :=
  match data with
  | None | Some JNull => []
  | Some (JArr xs) => xs
  | Some d => extract_from d keys
  end.

(** The two loops of [_extractPayload]. *)
Fixpoint payload_array (data : json) (arrayKeys : list string) : value :=
  match arrayKeys with
  | [] => None
  | k :: others =>
      match field k data with
      | Some (JArr xs) => Some (JArr xs)
      | Some (JObj inner) =>
          match assoc "data" inner with
          | Some (JArr xs) => Some (JArr xs)
          | _ => payload_array data others
          end
      | _ => payload_array data others
      end
  end.

Fixpoint payload_object (data : json) (keys : list string) : value :=
  match keys with
  | [] => None
  | k :: others =>
      match field k data with
      | Some (JArr xs) => Some (JArr xs)
      | Some (JObj inner) => Some (JObj inner)
      | _ => payload_object data others
      end
  end.

(**
<<
  _extractPayload(data, arrayKeys, objectKeys) {
    if (data == null) return undefined;
    if (Array.isArray(data)) return data;
    const keys = objectKeys || ['data', 'result', 'metrics', 'health', 'payload', 'response'];
    for (const k of arrayKeys || ['data', 'items', ...]) {
      const v = data[k];
      if (Array.isArray(v)) return v;
      if (v != null && typeof v === 'object' && Array.isArray(v.data)) return v.data;
    }
    for (const k of keys) {
      const v = data[k];
      if (v != null && typeof v === 'object') return v;
    }
    return data;
  }
>> *)
Definition _extractPayload (data : value) (arrayKeys objectKeys : option (list string))
  : value :=
  match data with
  | None | Some JNull => None
  | Some (JArr xs) => Some (JArr xs)
  | Some d =>
      let keys :=
        match objectKeys with
        | Some ks => ks
        | None => ["data"; "result"; "metrics"; "health"; "payload"; "response"]%string
        end in
      let arrayKeys :=
        match arrayKeys with
        | Some ks => ks
        | None => ["data"; "items"; "results"; "entries"; "sites"; "devices"; "hosts";
                   "clients"; "alerts"; "events"; "networks"; "wlans"; "gateways"]%string
        end in
      match payload_array d arrayKeys with
      | Some v => Some v
      | None =>
          match payload_object d keys with
          | Some v => Some v
          | None => Some d
          end
      end
  end.

Definition sites_paths : list jsstring :=
  [lit "/api/list-sites"; lit "/list-sites"; lit "/api/sites"; lit "/api/v1/sites";
   lit "/api/sites/list"; lit "/sites"; lit "/v1/sites"; lit "/api/v1/account/sites"].

(** [getSites()]; the debug line it may print is left out. *)
Definition getSites (w : controller) (this : client) : C (list json) :=
  try_each w this
    (fun data => Some (_extractArray data
                         ["data"; "sites"; "items"; "results"; "entries"]%string))
    [] sites_paths.

(**
<<
  async _fetchCloudResource(paths, arrayKeys, objectKeys) {
    const raw = await this._tryPaths(paths);
    if (raw === undefined) return undefined;
    const payload = this._extractPayload(raw, arrayKeys, objectKeys);
    return payload !== undefined ? payload : raw;
  }
>> *)
Definition _fetchCloudResource (w : controller) (this : client) (paths : list jsstring)
  (arrayKeys objectKeys : option (list string)) : C value :=
  fun sent =>
    match _tryPaths w this paths sent with
    | (Ok None, sent') => (Ok None, sent')
    | (Ok raw, sent') =>
        (Ok match _extractPayload raw arrayKeys objectKeys with
            | Some payload => Some payload
            | None => raw
            end, sent')
    | (Throw e, sent') => (Throw e, sent')
    end.

Definition alerts_paths : list jsstring :=
  [lit "/api/list-alerts"; lit "/list-alerts"; lit "/api/alerts"; lit "/api/v1/alerts";
   lit "/alerts"; lit "/api/v1/account/alerts"].

(** [return this._fetchCloudResource(paths, [...]) ?? []]: the operand
    of [??] is the promise, which is never nullish, so the method
    resolves to what [_fetchCloudResource] resolves to. *)
Definition getAlerts (w : controller) (this : client) : C value :=
  _fetchCloudResource w this alerts_paths
    (Some ["data"; "alerts"; "items"; "results"; "entries"]%string) None.

Definition health_paths : list jsstring :=
  [lit "/api/internet-health"; lit "/internet-health"; lit "/api/health"; lit "/api/metrics";
   lit "/api/v1/health"; lit "/api/v1/internet-health"; lit "/api/insights";
   lit "/api/performance"].

(** [return out != null ? (Array.isArray(out) ? out : [out]) : []] *)
Definition as_list (out : value) : list json :=
  match out with
  | None | Some JNull => []
  | Some (JArr xs) => xs
  | Some o => [o]
  end.

Definition getInternetHealth (w : controller) (this : client) : C (list json) :=
  fun sent =>
    match _fetchCloudResource w this health_paths
            (Some ["data"; "items"]%string)
            (Some ["data"; "result"; "metrics"; "health"]%string) sent with
    | (Ok out, sent') => (Ok (as_list out), sent')
    | (Throw e, sent') => (Throw e, sent')
    end.

Definition events_paths : list jsstring :=
  [lit "/api/list-events"; lit "/list-events"; lit "/api/events"; lit "/api/v1/events";
   lit "/events"; lit "/api/activity"].

(** [getEvents(limit = 100)] *)
Definition getEvents (w : controller) (this : client) (limit : nat) : C (list json) :=
  fun sent =>
    match _fetchCloudResource w this events_paths
            (Some ["data"; "events"; "items"; "results"; "entries"]%string) None sent with
    | (Ok raw, sent') => (Ok (firstn limit (as_list raw)), sent')
    | (Throw e, sent') => (Throw e, sent')
    end.

(** *** [requestSiteManagerPath] *)

(** [monitoring.siteManager] of the configuration. *)
Record site_manager_config := mkSiteManager {
  sm_enabled : bool;
  sm_apiKey : jsstring;
  sm_baseUrl : jsstring;
  sm_verifySSL : bool
}.

(** [{ success, data }] or [{ success, error }] *)
Inductive path_result : Type :=
| Success (data : value)
| Failure (error : jsstring).

(** [err.message || String(err)]; an error with an empty message is
    printed as its name, and only axios makes one here. *)
Definition error_text (e : jserror) : jsstring :=
  match message e with
  | [] => lit "AxiosError"
  | m => m
  end.

(**
<<
async function requestSiteManagerPath(path) {
  const monitoringConfig = getMonitoringConfig();
  const sm = monitoringConfig.siteManager;
  if (!sm?.enabled || !sm?.apiKey) {
    return { success: false, error: 'UniFi Site Manager is not enabled or API key not set.' };
  }
  const normalizedPath = typeof path === 'string' && path.trim() ? path.trim() : '';
  if (!normalizedPath || !normalizedPath.startsWith('/')) {
    return { success: false, error: 'Path must be a non-empty string starting with / (e.g. /api/list-alerts).' };
  }
  try {
    const mon = new UniFiSiteManagerMonitor({ ... });
    const data = await mon.request(normalizedPath);
    return { success: true, data };
  } catch (err) {
    return { success: false, error: err.message || String(err) };
  }
}
>> *)
Definition requestSiteManagerPath (w : controller) (sm : option site_manager_config)
  (path : value) : list http_request -> path_result * list http_request :=
  fun sent =>
    match sm with
    | Some cfg =>
        match sm_enabled cfg, sm_apiKey cfg with
        | true, _ :: _ =>
            let normalizedPath :=
              match path with
              | Some (JStr p) => trim p
              | _ => []
              end in
            if negb (startsWith normalizedPath (lit "/")) ||
               match normalizedPath with [] => true | _ => false end
            then (Failure (lit "Path must be a non-empty string starting with / (e.g. /api/list-alerts)."),
                  sent)
            else
              let mon := new (sm_baseUrl cfg) (sm_apiKey cfg) (sm_verifySSL cfg) in
              match request w mon normalizedPath sent with
              | (Ok data, sent') => (Success data, sent')
              | (Throw err, sent') => (Failure (error_text err), sent')
              end
        | _, _ =>
            (Failure (lit "UniFi Site Manager is not enabled or API key not set."), sent)
        end
    | None => (Failure (lit "UniFi Site Manager is not enabled or API key not set."), sent)
    end.

End SiteManagerApi.

(** ** Rows of the client and device lists *)

Module ContextRows.

Import Formatter.

Local Open Scope Z_scope.

(** [k.split('.')] *)
Fixpoint split_dots (k : string) : list string :=
  match k with
  | EmptyString => [EmptyString]
  | String c rest =>
      if Ascii.eqb c "."%char then EmptyString :: split_dots rest
      else
        match split_dots rest with
        | part :: parts => String c part :: parts
        | [] => [String c EmptyString]
        end
  end.

(** [v != null && v !== ''] *)
Definition present (v : value) : bool :=
  match v with
  | None | Some JNull | Some (JStr []) => false
  | Some _ => true
  end.

(**
<<
function getAny(obj, ...keys) {
  for (const k of keys) {
    if (k.includes('.')) {
      const parts = k.split('.');
      let v = obj;
      for (const p of parts) {
        v = v?.[p];
      }
      if (v != null && v !== '') return v;
    } else if (obj?.[k] != null && obj[k] !== '') {
      return obj[k];
    }
  }
  return '';
}
>>
    A key without a dot is its own single part. *)
Fixpoint getAny (obj : json) (keys : list string) : json :=
  match keys with
  | [] => JStr []
  | k :: others =>
      let v := fold_left (fun v p => opt_get p v) (split_dots k) (Some obj) in
      if present v
      then match v with Some x => x | None => JStr [] end
      else getAny obj others
  end.

(** [{ hostname, mac, ip, conn }] *)
Record client_row := mkClientRow {
  hostname : jsstring;
  mac : jsstring;
  ip : jsstring;
  conn : jsstring
}.

(** [String(v).trim() || '—'] *)
Definition trimmed_or_dash (v : value) : jsstring :=
  match trim (String_ v) with
  | [] => em_dash
  | s => s
  end.

(** [a ?? b ?? ... ?? dflt] *)
Definition first_or (candidates : list value) (dflt : jsstring) : value :=
  fold_right nullish (Some (JStr dflt)) candidates.

(** [c.is_wired === true || c.is_wired === 1 || c.wired === true] *)
Definition isWired (c : json) : bool :=
  is_bool (field "is_wired" c) true || is_num (field "is_wired" c) 1
  || is_bool (field "wired" c) true.

(**
<<
function formatClientForContext(c) {
  if (!c || typeof c !== 'object') return null;
  const hostname = c.hostname ?? c.name ?? c.host_name ?? c.display_name ?? '—';
  const mac = c.mac ?? c.mac_address ?? c.user ?? '—';
  const ip = c.ip ?? c.fixed_ip ?? c.network?.ip ?? c.ip_address ?? '—';
  const isWired = c.is_wired === true || c.is_wired === 1 || c.wired === true;
  const conn = isWired ? 'wired' : 'wireless';
  return { hostname: String(hostname).trim() || '—', mac: String(mac), ip: String(ip), conn };
}
>> *)
Definition formatClientForContext (c : json) : option client_row :=
  if negb (is_object c) then None
  else
    let hostname := first_or [field "hostname" c; field "name" c; field "host_name" c;
                              field "display_name" c] em_dash in
    let mac := first_or [field "mac" c; field "mac_address" c; field "user" c] em_dash in
    let ip := first_or [field "ip" c; field "fixed_ip" c; opt_get "ip" (field "network" c);
                        field "ip_address" c] em_dash in
    let conn := if isWired c then lit "wired" else lit "wireless" in
    Some (mkClientRow (trimmed_or_dash hostname) (String_ mac) (String_ ip) conn).

(** [{ name, mac, type, state }] *)
Record device_row := mkDeviceRow {
  name : jsstring;
  dmac : jsstring;
  type : jsstring;
  state : jsstring
}.

(** [d.state ?? d.connection_state ?? d.status ?? d.connection_status ?? d.connected ?? d.isOnline ?? ''] *)
Definition rawState (d : json) : value :=
  first_or [field "state" d; field "connection_state" d; field "status" d;
            field "connection_status" d; field "connected" d; field "isOnline" d] [].

(** [rawState === false || rawState === 0 || rawState === '0' ||
     String(rawState).toLowerCase() === 'offline' ||
     String(rawState).toLowerCase() === 'disconnected'] *)
Definition explicitlyOffline (d : json) : bool :=
  let s := toLowerCase (String_ (rawState d)) in
  is_bool (rawState d) false || is_num (rawState d) 0 || is_str (rawState d) "0"
  || str_eqb s (lit "offline") || str_eqb s (lit "disconnected").

(** [getAny(...) || '—'] *)
Definition any_or_dash (d : json) (keys : list string) : json :=
  or_else (getAny d keys) (JStr em_dash).

(**
<<
function formatDeviceForContext(d) {
  if (!d || typeof d !== 'object') return null;
  const name = getAny(d, 'name', 'hostname', 'display_name', 'device_name', 'label', 'config.name', 'device.name') || '—';
  const mac = getAny(d, 'mac', 'mac_address', 'serial', 'serial_number', 'id', 'device_id', '_id', 'device.mac', 'device.serial') || '—';
  const type = getAny(d, 'type', 'model', 'device_type', 'model_name', 'product', 'config.model', 'device.model') || '—';
  const rawState = ...;
  const explicitlyOffline = ...;
  const explicitlyOnline = ...;
  const state = explicitlyOffline ? 'offline' : (explicitlyOnline ? 'online' : 'online');
  return { name: String(name).trim() || '—', mac: String(mac), type: String(type), state };
}
>> *)
Definition formatDeviceForContext (d : json) : option device_row :=
  if negb (is_object d) then None
  else
    let name := any_or_dash d ["name"; "hostname"; "display_name"; "device_name"; "label";
                               "config.name"; "device.name"]%string in
    let mac := any_or_dash d ["mac"; "mac_address"; "serial"; "serial_number"; "id";
                              "device_id"; "_id"; "device.mac"; "device.serial"]%string in
    let type := any_or_dash d ["type"; "model"; "device_type"; "model_name"; "product";
                               "config.model"; "device.model"]%string in
    let state := if explicitlyOffline d then lit "offline" else lit "online" in
    Some (mkDeviceRow (trimmed_or_dash (Some name)) (ToString mac) (ToString type) state).

End ContextRows.

(** ** The dashboard log and the configuration views of the web server *)

Module Dashboard.

Local Open Scope Z_scope.

Definition MAX_DASHBOARD_LOG : nat := 100.

(** [{ time, level, source, message, detail }] *)
Record log_entry := mkEntry {
  time : jsstring;
  level : jsstring;
  source : jsstring;
  message : jsstring;
  detail : option jsstring
}.

(** The entry that [addDashboardLog] pushes at the time [now]:
<<
  dashboardLog.push({
    time: new Date().toISOString(),
    level,
    source,
    message: String(message),
    detail: detail != null ? String(detail) : undefined,
  });
>> *)
Definition entry_of (now level source : jsstring) (message detail : value) : log_entry :=
  mkEntry now level source (String_ message)
    match detail with
    | None | Some JNull => None
    | Some d => Some (ToString d)
    end.

(** [addDashboardLog(level, source, message, detail)] on the log, the
    oldest entry first:
<<
  dashboardLog.push({ ... });
  if (dashboardLog.length > MAX_DASHBOARD_LOG) dashboardLog.shift();
>> *)
Definition addDashboardLog (now level source : jsstring) (message detail : value)
  (dashboardLog : list log_entry) : list log_entry :=
  let pushed := dashboardLog ++ [entry_of now level source message detail] in
  if Nat.ltb MAX_DASHBOARD_LOG (length pushed) then tl pushed else pushed.

(** [log: dashboardLog.slice(-50).reverse()] of [GET /api/dashboard] *)
Definition dashboard_view (dashboardLog : list log_entry) : list log_entry :=
  rev (skipn (length dashboardLog - 50) dashboardLog).

(** The name logged for a failed authentication:
<<
      const safeUser = typeof username === 'string'
        ? username.slice(0, 50).replace(/[^\w@.\-]/g, '?') : '?';
>>
    The replacement of every match of a one-character class is made
    code unit by code unit. *)
Definition safe_char (c : N) : bool :=
  is_word c || existsb (N.eqb c) (lit "@.-").

Definition safeUser (username : value) : jsstring :=
  match username with
  | Some (JStr u) => map (fun c => if safe_char c then c else 63%N) (firstn 50 u)
  | _ => lit "?"
  end.

(** *** Hiding the secrets of the configuration *)

Definition hidden : json := JStr (lit "***hidden***").

(** [o?.a?.b] along a path. *)
Definition get_path (path : list string) (o : json) : value :=
  fold_left (fun v k => opt_get k v) path (Some o).

(** [o.k = v] for an own property [k] of [o]. *)
Fixpoint set_field (k : string) (v : json) (fields : list (string * json))
  : list (string * json) :=
  match fields with
  | [] => []
  | (k', x) :: rest =>
      if String.eqb k k' then (k', v) :: rest else (k', x) :: set_field k v rest
  end.

(** [o.a.b = v] along a path of own properties. *)
Fixpoint set_path (path : list string) (v : json) (o : json) : json :=
  match path, o with
  | [], _ => v
  | k :: rest, JObj fields =>
      match assoc k fields with
      | Some inner => JObj (set_field k (set_path rest v inner) fields)
      | None => o
      end
  | _ :: _, _ => o
  end.

(** [if (o?.a?.b) o.a.b = '***hidden***';] *)
Definition hide (path : list string) (o : json) : json :=
  if truthy (get_path path o) then set_path path hidden o else o.

(** The copy of the configuration that [GET /api/config] sends:
<<
    const safeConfig = JSON.parse(JSON.stringify(currentConfig));
    if (safeConfig.web?.auth?.password) {
      safeConfig.web.auth.password = safeConfig.web.auth.password ? '***hidden***' : '';
    }
    if (safeConfig.llm?.openai?.apiKey) {
      safeConfig.llm.openai.apiKey = safeConfig.llm.openai.apiKey ? '***hidden***' : '';
    }
    if (safeConfig.email?.smtp?.auth?.pass) {
      safeConfig.email.smtp.auth.pass = '***hidden***';
    }
    res.json(safeConfig);
>>
    Reading [web] off a [null] configuration throws. *)
Definition get_config_view (currentConfig : json) : result json :=
  match currentConfig with
  | JNull => Throw (TypeError_null "web")
  | _ =>
      Ok (hide ["email"; "smtp"; "auth"; "pass"]%string
            (hide ["llm"; "openai"; "apiKey"]%string
               (hide ["web"; "auth"; "password"]%string currentConfig)))
  end.

End Dashboard.

(** ** The log analyzer, [utils/logAnalyzer.js] *)

Module LogAnalyzer.

Import Regex.

Local Open Scope Z_scope.

(** [r{n}] *)
Definition times (n : nat) (r : regex) : regex := seqs (repeat r n).

(** A literal without the [i] flag. *)
Definition lit_cs (s : string) : regex := seqs (map chr (lit s)).

(** [/error|exception|fatal|critical/i] *)
Definition error_re : regex :=
  alts [lit_i "error"; lit_i "exception"; lit_i "fatal"; lit_i "critical"].

(** [/warn|warning/i] *)
Definition warning_re : regex := alts [lit_i "warn"; lit_i "warning"].

(** [/\d{4}-\d{2}-\d{2}[\sT]\d{2}:\d{2}:\d{2}|\d{2}\/\d{2}\/\d{4}\s+\d{2}:\d{2}:\d{2}/] *)
Definition timestamp_re : regex :=
  let clock := seqs [times 2 digit; chr 58; times 2 digit; chr 58; times 2 digit] in
  Alt (seqs [times 4 digit; chr 45; times 2 digit; chr 45; times 2 digit;
             Chr (fun c => is_space c || N.eqb c 84); clock])
      (seqs [times 2 digit; chr 47; times 2 digit; chr 47; times 4 digit;
             plus space; clock]).

(** [/\b\d{1,3}\.\d{1,3}\.\d{1,3}\.\d{1,3}\b/] *)
Definition ip_re : regex :=
  seqs [WordB; upto 3 digit; chr 46; upto 3 digit; chr 46; upto 3 digit; chr 46;
        upto 3 digit; WordB].

(** [/https?:\/\/[^\s]+/] *)
Definition url_re : regex :=
  seqs [lit_cs "http"; opt (chr 115); lit_cs "://"; plus (Chr (fun c => negb (is_space c)))].

(** [snippet.split('\n')] *)
Fixpoint split_lines (snippet : jsstring) : list jsstring :=
  match snippet with
  | [] => [[]]
  | c :: rest =>
      if N.eqb c 10 then [] :: split_lines rest
      else
        match split_lines rest with
        | line :: lines => (c :: line) :: lines
        | [] => [[c]]
        end
  end.

(** [{ line, content }] *)
Record finding := mkFinding {
  line : Z;
  content : jsstring
}.

Record patterns := mkPatterns {
  errors : list finding;
  warnings : list finding;
  timestamps : list jsstring;
  ipAddresses : list jsstring;
  urls : list jsstring
}.

(** [line.match(re)] without the [g] flag, then [match[0]]. *)
Definition first_match (re : regex) (s : jsstring) : list jsstring :=
  match exec re s with
  | Some m => [matched m]
  | None => []
  end.

(** The body of [lines.forEach((line, index) => { ... })], given the
    patterns collected so far. *)
Definition scan_line (acc : patterns) (index : Z) (l : jsstring) : patterns :=
  mkPatterns
    (errors acc ++ if test error_re l then [mkFinding (index + 1) (trim l)] else [])
    (warnings acc ++
     if test warning_re l && negb (test (lit_i "error") l)
     then [mkFinding (index + 1) (trim l)] else [])
    (timestamps acc ++ first_match timestamp_re l)
    (ipAddresses acc ++ first_match ip_re l)
    (urls acc ++ first_match url_re l).

Fixpoint scan_lines (acc : patterns) (index : Z) (lines : list jsstring) : patterns :=
  match lines with
  | [] => acc
  | l :: rest => scan_lines (scan_line acc index l) (index + 1) rest
  end.

(** [extractLogPatterns(snippet)] *)
Definition extractLogPatterns (snippet : jsstring) : patterns :=
  scan_lines (mkPatterns [] [] [] [] []) 0 (split_lines snippet).

(** [[...new Set(xs)]]: the elements in the order of their first
    occurrence. *)
Fixpoint unique_from (seen xs : list jsstring) : list jsstring :=
  match xs with
  | [] => []
  | x :: rest =>
      if existsb (str_eqb x) seen then unique_from seen rest
      else x :: unique_from (x :: seen) rest
  end.

Definition unique (xs : list jsstring) : list jsstring := unique_from [] xs.

Record summary := mkSummary {
  totalLines : Z;
  errorCount : Z;
  warningCount : Z;
  hasTimestamps : bool;
  uniqueIPs : Z;
  hasUrls : bool
}.

Inductive analysis : Type :=
| Empty                      (* { summary: 'Empty log snippet provided.', patterns: null } *)
| Analysis (s : summary) (p : patterns).

Definition count {A} (xs : list A) : Z := Z.of_nat (length xs).

(**
<<
async function analyzeLogSnippet(snippet) {
  if (!snippet || snippet.trim().length === 0) {
    return { summary: 'Empty log snippet provided.', patterns: null };
  }
  const patterns = extractLogPatterns(snippet);
  const summary = {
    totalLines: snippet.split('\n').length,
    errorCount: patterns.errors.length,
    warningCount: patterns.warnings.length,
    hasTimestamps: patterns.timestamps.length > 0,
    uniqueIPs: [...new Set(patterns.ipAddresses)].length,
    hasUrls: patterns.urls.length > 0,
  };
  return {
    summary,
    patterns: {
      errors: patterns.errors.slice(0, 5), // Limit to first 5
      warnings: patterns.warnings.slice(0, 5),
      timestamps: [...new Set(patterns.timestamps)].slice(0, 3),
      ipAddresses: [...new Set(patterns.ipAddresses)].slice(0, 5),
      urls: patterns.urls.slice(0, 3),
    },
  };
}
>>
    for a snippet that is a string. *)
Definition analyzeLogSnippet (snippet : jsstring) : analysis :=
  match trim snippet with
  | [] => Empty
  | _ =>
      let patterns := extractLogPatterns snippet in
      Analysis
        (mkSummary (count (split_lines snippet))
           (count (errors patterns)) (count (warnings patterns))
           (negb (Nat.eqb (length (timestamps patterns)) 0))
           (count (unique (ipAddresses patterns)))
           (negb (Nat.eqb (length (urls patterns)) 0)))
        (mkPatterns (firstn 5 (errors patterns)) (firstn 5 (warnings patterns))
           (firstn 3 (unique (timestamps patterns)))
           (firstn 5 (unique (ipAddresses patterns)))
           (firstn 3 (urls patterns)))
  end.

End LogAnalyzer.


(** * Vocabulary of the properties, and sample inputs *)

Import Regex Diagnostics UniFiMonitor UniFiSiteManagerMonitor Aggregator Server Formatter.

Unset Implicit Arguments.

Local Open Scope Z_scope.

Definition is_some {A} (o : option A) : bool :=
  match o with Some _ => true | None => false end.

(** What [sanitizeHost] lets through: a non-empty string of at most 253
    characters, each of the class [[A-Za-z0-9.\-_:\[\]]]. *)
Definition acceptable (s : jsstring) : Prop :=
  s <> [] /\ (length s <= 253)%nat /\ Forall (fun c => host_char c = true) s.

(** The commands and connections a diagnostic may ask for on behalf of
    a target. *)
Definition asks_for (w : os) (target : jsstring) (e : effect) : Prop :=
  (exists c, 1 <= c <= MAX_PING_COUNT /\ e = Exec (ping_cmd w c target))%Z \/
  (exists h, 1 <= h <= MAX_TRACEROUTE_HOPS /\ e = Exec (traceroute_cmd w h target))%Z \/
  (exists p, 1 <= p <= 65535 /\ e = Connect p target)%Z.

(** An operating system where every command prints nothing and every
    port is open. *)
Definition quiet_os : os := mkOs false (fun _ => ExecOk [] []) (fun _ _ => ConnectEvent).

(** [state === 1], the online test of the local client. *)
Definition state_is_1 (d : json) : bool := is_num (field "state" d) 1.

(** The status-like fields of a device record. *)
Definition status_fields : list string :=
  ["state"; "connectionState"; "status"; "connection_status"; "connected"; "isOnline"]%string.

(** A device that lacks every status-like field (absent or [null]). *)
Definition statusless (d : json) : Prop :=
  d <> JNull /\ forall k, In k status_fields -> nullish (field k d) None = None.

(** A device with a value in one of the fields [anyWithStatus] reads. *)
Definition carries_status (d : json) : bool :=
  match status_value d with
  | None | Some JNull | Some (JStr []) => false
  | Some _ => true
  end.

(** An explicit offline value: the number 0, [false], or one of the
    words [offline] and [disconnected] in any case. *)
Definition offline_word (s : jsstring) : bool :=
  str_eqb (toLowerCase s) (lit "offline") || str_eqb (toLowerCase s) (lit "disconnected").

Definition offline_value (v : value) : bool :=
  match v with
  | Some (JNum 0) | Some (JBool false) => true
  | Some (JStr s) => offline_word s
  | _ => false
  end.

Definition absent (v : value) : bool :=
  match v with
  | None | Some JNull => true
  | Some _ => false
  end.

(** A device record that says it is offline: its [state] or, without a
    [state], its [status] holds an explicit offline value, it has no
    [connectionState], and neither [connected] nor [isOnline] is
    [true]. *)
Definition explicitly_offline (d : json) : bool :=
  match d with
  | JObj _ =>
      offline_value (nullish (field "state" d) (field "status" d))
      && absent (field "connectionState" d)
      && negb (is_bool (field "connected" d) true)
      && negb (is_bool (field "isOnline" d) true)
  | _ => false
  end.

(** StringToNumber on the strings of the examples: the empty string is
    0, a word is [NaN]. *)
Definition blank_is_zero (s : jsstring) : option Z :=
  match s with
  | [] => Some 0
  | _ => None
  end.

Definition device (mac : string) (extra : list (string * json)) : json :=
  JObj (("mac"%string, JStr (lit mac)) :: extra).

(** A device with an empty [state] and the [status] [offline]. *)
Definition blank_state_ap : json :=
  device "aa:00:00:00:00:05"
    [("state"%string, JStr []); ("status"%string, JStr (lit "offline"))].

(** A device whose [status] is the word [offline]. *)
Definition offline_switch : json :=
  device "aa:00:00:00:00:06" [("status"%string, JStr (lit "offline"))].

Definition plain_ap : json := device "aa:00:00:00:00:01" [].
Definition plain_switch : json := device "aa:00:00:00:00:02" [].
Definition online_ap : json := device "aa:00:00:00:00:03" [("state"%string, JNum 1)].
Definition offline_ap : json := device "aa:00:00:00:00:04" [("state"%string, JNum 0)].

(** A controller that answers the device and client endpoints of the
    site [default] with the given lists and every other endpoint with
    an empty list. *)
Definition serving (devices clients : list json) (endpoint : jsstring) : result json :=
  if str_eqb endpoint (lit "/api/s/default/stat/device") then Ok (JArr devices)
  else if str_eqb endpoint (lit "/api/s/default/stat/sta") then Ok (JArr clients)
  else Ok (JArr []).

Definition no_connection_events (events : list json) : result (list json) := Ok [].

Definition main_site : controller_config :=
  mkConfig (lit "c1") (lit "Main site") true (lit "https://192.168.1.1") [].

(** The monitor fields after [getApiBaseUrl] has fixed a prefix. *)
Definition with_prefix (this : monitor) : monitor :=
  match apiPrefix this with
  | None => detectApiPrefix this
  | Some _ => this
  end.

(** The request [doRequest] sends. *)
Definition request_of (this : monitor) (endpoint : jsstring) (useSession : bool) : request :=
  let this := with_prefix this in
  let with_session :=
    match useSession, nonempty (cookie this) with
    | true, Some _ => true
    | _, _ => false
    end in
  mkRequest false
    (getCleanBaseUrl this ++ match apiPrefix this with Some p => p | None => [] end ++ endpoint)
    None (nonempty (Some (apiKey this)))
    (if with_session then cookie this else None)
    (if with_session then nonempty (csrfToken this) else None).

(** A client as the aggregator builds it for a controller at
    192.168.1.1. *)
Definition fresh_client : monitor :=
  new (lit "https://192.168.1.1/") (lit "KEY") [] true.

Definition devices_endpoint : jsstring := lit "/api/s/default/stat/device".

(** A controller that answers every request with status 200 and the
    given body. *)
Definition answering (body : value) : controller :=
  fun _ _ => Responded (mkResponse 200 None None body).

(** A client that already took the prefix [/proxy/network]. *)
Definition proxy_client : monitor := set_apiPrefix (Some proxy_network) fresh_client.

(** A controller that accepts the login and knows no path under the
    prefix: every GET is answered 404 with an error body. *)
Definition not_found : controller :=
  fun _ req =>
    if is_post req then Responded (mkResponse 200 None None None)
    else Responded (mkResponse 404 None None
                      (Some (JObj [("error"%string, JStr (lit "Not Found"))]))).

(** A controller that accepts every login, with a session cookie and a
    CSRF token, and refuses every request with 403. *)
Definition login_only : controller :=
  fun _ req =>
    if is_post req
    then Responded (mkResponse 200 (Some [lit "TOKEN=abc; Path=/; HttpOnly"])
                      (Some (lit "x1")) None)
    else Responded (mkResponse 403 None None None).

(** The logins among the requests sent. *)
Definition logins (sent : list request) : nat := length (filter is_post sent).

(** The fields of [fresh_client] once it has logged in to [login_only]. *)
Definition session_client : monitor :=
  set_useSessionAuth (Some true)
    (set_csrfToken (Some (lit "x1"))
       (set_cookie_field (Some (lit "TOKEN=abc")) proxy_client)).

(** A controller that answers every login with 200 and every other
    request with 401 or 403. *)
Definition accepts_logins_only (w : controller) : Prop :=
  (forall sent req, is_post req = true ->
     exists r, w sent req = Responded r /\ status r = 200) /\
  (forall sent req, is_post req = false ->
     exists r, w sent req = Responded r /\ is_401_403 (status r) = true).

(** A client with a base URL and a key. *)
Definition configured (this : monitor) : Prop :=
  baseUrl this <> [] /\ apiKey this <> [].

(** A controller on which the key was revoked: every request, the login
    included, is answered 401. *)
Definition revoked : controller :=
  fun _ _ => Responded (mkResponse 401 None None None).

(** Every request to the controller fails. *)
Definition unreachable (api : jsstring -> result json) : Prop :=
  forall endpoint, exists e, api endpoint = Throw e.

(** The metrics of a controller with no device and no client. *)
Definition empty_metrics : health_metrics :=
  mkHealth (mkDeviceCounts 0 0 0) [] (mkClientCounts 0 0 0) [] (JObj []).

(** What [apiRequest] rejects with when the connection is refused. *)
Definition refused (endpoint : jsstring) : result json :=
  Throw (Error (lit "Cannot connect to UniFi controller at https://192.168.1.1")).

(** A controller that refuses every connection. *)
Definition refusing : controller :=
  fun _ _ => NetworkError (lit "ECONNREFUSED") (lit "connect ECONNREFUSED 192.168.1.1:443").

(** A change of the controller list. *)
Definition monitoring_update : list (string * json) :=
  [("monitoring"%string,
    JObj [("unifi"%string, JObj [("controllers"%string, JArr [])])])].

(** A message of the conversation. *)
Definition said (text : string) : json := JObj [("message"%string, JStr (lit text))].

(** Six messages that name no host. *)
Definition small_talk : list json :=
  [said "thanks"; said "ok"; said "fine"; said "yes"; said "no"; said "well"].

(** A message that asks for a ping and for a traceroute. *)
Definition ping_and_traceroute : value :=
  Some (JStr (lit "ping 1.1.1.1 and traceroute 1.1.1.1")).

(** What the context says of a ping or a traceroute, given what was
    asked of the operating system for it: after the preamble, the
    output of the command as it is when there is any; [No output.] for
    a command that printed nothing; for a command that failed, its
    output or else its error message, and the error message in
    brackets; the error of a host that was turned away. *)
Definition command_report (w : os) (preamble fallback text : jsstring)
  (effects : list effect) : Prop :=
  exists body,
    text = preamble ++ body /\
    match effects with
    | [] => body = lit "Invalid or missing host(Error: Invalid or missing host)" ++ [10%N]
    | [Exec cmd] =>
        match execAsync w cmd with
        | ExecOk stdout stderr =>
            body = match stdout ++ stderr with
                   | [] => lit "No output." ++ [10%N]
                   | out => out
                   end
        | ExecFail msg stdout stderr =>
            body = or_str (stdout ++ stderr) (or_str msg fallback) ++
                   lit "(Error: " ++ or_str msg fallback ++ lit ")" ++ [10%N]
        end
    | _ => False
    end.

(** What the context says of a port test of [host] and [p]: after the
    preamble, a sentence on whether the port is open. *)
Definition port_report (w : os) (host : jsstring) (p : Z) (text : jsstring)
  (effects : list effect) : Prop :=
  exists sentence,
    text = [10; 10]%N ++ lit "Port test result (from this server to " ++ host ++ lit ":" ++
           num_to_string p ++ lit "); use this to answer the user:" ++ [10%N] ++
           sentence ++ [10%N] /\
    match effects with
    | [] =>
        exists reason,
          (reason = lit "Invalid or missing host" \/
           reason = lit "Invalid port (use 1-65535)") /\
          sentence = lit "Port " ++ num_to_string p ++ lit " is closed or unreachable: " ++
                     reason
    | [Connect p' target] =>
        match socket_connect w p' target with
        | ConnectEvent =>
            sentence = lit "Port " ++ num_to_string p ++ lit " is OPEN on " ++ host ++ lit "."
        | ErrorEvent msg =>
            sentence = lit "Port " ++ num_to_string p ++ lit " is closed or unreachable: " ++
                       or_str msg (lit "Connection refused or unreachable")
        | TimerFired =>
            sentence = lit "Port " ++ num_to_string p ++ lit " is closed or unreachable: " ++
                       lit "Connection timed out after 5s"
        end
    | _ => False
    end.

(** The lines a list section appends for the controllers it shows: a
    heading and one line for every item of each. *)
Definition lines_for (items : controller_result -> list json)
  (shown : list controller_result) : nat :=
  list_sum (map (fun c => S (length (items c))) shown).

(** The controllers a list section shows. *)
Definition shown_in (items : controller_result -> list json)
  (cs : list controller_result) : list controller_result :=
  filter (fun c => Aggregator.success c && negb (Nat.eqb (length (items c)) 0)) cs.

(** What a cloud section says of the list [arr], under the label and
    the cap of its call: nothing for a value that is not a list or for
    the empty list; otherwise a heading, one numbered line for each of
    the first [cap] items and, when items are left out, the line that
    says how many. *)
Definition cloud_listing (summarize : json -> jsstring) (label : jsstring) (cap : nat)
  (arr : value) (text : jsstring) : Prop :=
  match arr with
  | Some (JArr (x :: xs)) =>
      let items := x :: xs in
      exists lines,
        length lines = Nat.min cap (length items) /\
        (forall i, (i < length lines)%nat ->
           nth i lines [] = lit "  " ++ num_to_string (Z.of_nat (S i)) ++ lit ". " ++
                            summarize (nth i items JNull)) /\
        text = [10%N] ++ lit "UniFi Site Manager (cloud) " ++ [8211%N] ++ lit " " ++ label ++
               lit " (use for user questions about this data):" ++ [10%N] ++
               join [10%N] lines ++
               (if (cap <? length items)%nat
                then [10%N] ++ lit "  " ++ [8230%N] ++ lit " and " ++
                     num_to_string (Z.of_nat (length items - cap)) ++ lit " more"
                else []) ++
               [10%N]
  | _ => text = []
  end.

(** The lines a section that shows a slice appends for the controllers
    it shows: a heading and one line for each of the first [cap] items
    of each. *)
Definition sliced_lines_for (cap : nat) (items : controller_result -> list json)
  (shown : list controller_result) : nat :=
  list_sum (map (fun c => S (Nat.min cap (length (items c)))) shown).

(** Two lists of controller results with the same names and success
    flags, and the same first [cap] items. *)
Definition agree_up_to (cap : nat) (items : controller_result -> list json)
  (cs cs' : list controller_result) : Prop :=
  Forall2 (fun c c' => name c = name c' /\ Aggregator.success c = Aggregator.success c' /\
                       firstn cap (items c) = firstn cap (items c')) cs cs'.

(** Two lists of controller results with the same names and success
    flags, the same answer to whether the site health is shown, the
    same health status and the same first [cap] subsystems. *)
Definition agree_on_health (cap : nat) (cs cs' : list controller_result) : Prop :=
  Forall2 (fun c c' => name c = name c' /\ Aggregator.success c = Aggregator.success c' /\
                       health_shown c = health_shown c' /\
                       health_status c = health_status c' /\
                       firstn cap (subsystems c) = firstn cap (subsystems c')) cs cs'.

Definition lan : json := JObj [("name"%string, JStr (lit "LAN"))].

Definition alarm : json := JObj [("key"%string, JStr (lit "EVT_GW_WANTransition"))].

(** A controller that reports [n] alarms. *)
Definition with_alarms (n : nat) : controller_result :=
  mkController (lit "c1") (lit "Main site") true None (Some empty_metrics)
    [] [] [] [] (repeat alarm n) [] (JObj []) [] [] [].

(** Cloud metrics with [n] alerts and no other list. *)
Definition with_alerts (n : nat) : cloud_lists :=
  mkCloudLists None (Some (JArr (repeat JNull n))) None None None None None None.

(** A controller that reports [n] networks. *)
Definition with_networks (n : nat) : controller_result :=
  mkController (lit "c1") (lit "Main site") true None (Some empty_metrics)
    [] [] (repeat lan n) [] [] [] (JObj []) [] [] [].

(** An error without a response, or with a response of status 500 or
    more: the errors axios rejects with under [validateStatus], and the
    errors the client makes itself. *)
Definition no_client_status (e : jserror) : Prop :=
  match response_status e with
  | Some s => 500 <= s
  | None => True
  end.

(** ** A declarative reading of the patterns *)

(** [reach r st st']: the pattern [r] can take the matcher from the
    state [st] to the state [st']. *)
Inductive reach : regex -> mstate -> mstate -> Prop :=
| reach_eps st : reach Eps st st
| reach_chr p st c s' :
    rest st = c :: s' -> p c = true ->
    reach (Chr p) st (mkState (Some c) s' (caps st))
| reach_seq r1 r2 st mid st' :
    reach r1 st mid -> reach r2 mid st' -> reach (Seq r1 r2) st st'
| reach_alt_l r1 r2 st st' : reach r1 st st' -> reach (Alt r1 r2) st st'
| reach_alt_r r1 r2 st st' : reach r2 st st' -> reach (Alt r1 r2) st st'
| reach_star_stop r st : reach (Star r) st st
| reach_star_step r st mid st' :
    reach r st mid -> reach (Star r) mid st' -> reach (Star r) st st'
| reach_grp i r st st' :
    reach r st st' ->
    reach (Grp i r) st (mkState (prev st') (rest st') ((i, consumed st st') :: caps st'))
| reach_wordb st :
    xorb (word_at (prev st)) (word_at (hd_error (rest st))) = true -> reach WordB st st
| reach_bos st : prev st = None -> reach Bos st st
| reach_eos st : rest st = [] -> reach Eos st st.

(** Every character class of [r] lies within [P]. *)
Fixpoint chars_in (P : N -> bool) (r : regex) : Prop :=
  match r with
  | Chr p => forall c, p c = true -> P c = true
  | Seq a b | Alt a b => chars_in P a /\ chars_in P b
  | Star a | Grp _ a => chars_in P a
  | _ => True
  end.

(** The least number of code units a match of [r] consumes. *)
Fixpoint min_len (r : regex) : nat :=
  match r with
  | Chr _ => 1
  | Seq a b => min_len a + min_len b
  | Alt a b => Nat.min (min_len a) (min_len b)
  | Grp _ a => min_len a
  | _ => 0
  end.

(** Every group [i] of [r] captures a text that satisfies [Q i]. *)
Fixpoint groups_sat (Q : nat -> jsstring -> Prop) (r : regex) : Prop :=
  match r with
  | Grp i a => (forall st st', reach a st st' -> Q i (consumed st st')) /\ groups_sat Q a
  | Seq a b | Alt a b => groups_sat Q a /\ groups_sat Q b
  | Star a => groups_sat Q a
  | _ => True
  end.

Definition caps_sat (Q : nat -> jsstring -> Prop) (cs : list (nat * jsstring)) : Prop :=
  Forall (fun e => Q (fst e) (snd e)) cs.

(** A non-empty string of the characters [sanitizeHost] allows. *)
Definition host_text (s : jsstring) : Prop :=
  s <> [] /\ Forall (fun c => host_char c = true) s.

(** The two groups of the ping and traceroute patterns: a host, and a
    number. *)
Definition host_and_number (i : nat) (s : jsstring) : Prop :=
  match i with
  | 1%nat => host_text s
  | 2%nat => Forall (fun c => is_digit c = true) s
  | _ => True
  end.

(** The host group of a port-test pattern holds characters
    [sanitizeHost] allows. *)
Definition host_group (hostIdx : nat) (i : nat) (s : jsstring) : Prop :=
  i = hostIdx -> Forall (fun c => host_char c = true) s.

(** The login that [authenticate] posts. *)
Definition login_request (this : monitor) : request :=
  mkRequest true (getCleanBaseUrl this ++ lit "/api/auth/login")
    (Some (apiKey this)) None None None.

(** An endpoint that gives [getIntrusionEvents] nothing: the request
    fails, or its answer holds no event. *)
Definition silent (api : jsstring -> result json) (endpoint : jsstring) : Prop :=
  match api endpoint with
  | Ok raw => normalize_events raw = []
  | Throw _ => True
  end.

(** The four endpoints [getIntrusionEvents] asks, in order. *)
Definition intrusion_endpoints (site : jsstring) : list jsstring :=
  [site_endpoint site "/stat/ips"; site_endpoint site "/rest/ips";
   site_endpoint site "/stat/threat"; site_endpoint site "/rest/threat"].

(** *** The cloud API seen by its client *)

(** An API whose answers do not depend on the requests made before. *)
Definition stateless (w : controller) : Prop :=
  forall sent sent' req, w sent req = w sent' req.

(** A controller or API that answers no call with a redirect. *)
Definition never_redirects (w : controller) : Prop :=
  forall sent req next o, w sent req <> Redirected next o.

(** What goes out for the calls made so far, the latest first: each
    call, and after it the requests axios sends while it follows the
    redirects of that call. *)
Fixpoint on_the_wire (w : controller) (calls : list request) : list request :=
  match calls with
  | [] => []
  | q :: earlier =>
      rev (follow_ups maxRedirects (w earlier q)) ++ q :: on_the_wire w earlier
  end.

(** An API that answers every call with a 302 to [elsewhere], another
    origin: the request is repeated there as a [GET], without its body
    and its cookie and with its other headers, and answered 200 with
    [body]. *)
Definition redirecting (elsewhere : jsstring) (body : value) : controller :=
  fun _ req =>
    Redirected (mkRequest false elsewhere None (x_api_key req) None (csrf_header req))
      (Responded (mkResponse 200 None None body)).

(** The request the cloud client makes for a path. *)
Definition cloud_request (this : SiteManagerApi.client) (path : jsstring)
  : SiteManagerApi.http_request :=
  SiteManagerApi.get_request this (SiteManagerApi.url_of this path).

(** The requests made for a list of paths, the latest first. *)
Definition cloud_requests (this : SiteManagerApi.client) (paths : list jsstring)
  : list SiteManagerApi.http_request :=
  rev (map (cloud_request this) paths).

(** The call for the path ends, after the redirects axios follows, with
    an answer of a 2xx status and the body [d]. *)
Definition answers (w : controller) (this : SiteManagerApi.client) (path : jsstring)
  (d : value) : Prop :=
  exists r, settle maxRedirects (w [] (cloud_request this path)) = Answered r /\
            200 <= status r < 300 /\ data r = d.

(** The call for the path ends with another status, or with a failure. *)
Definition refuses (w : controller) (this : SiteManagerApi.client) (path : jsstring)
  : Prop :=
  forall r, settle maxRedirects (w [] (cloud_request this path)) = Answered r ->
            ~ 200 <= status r < 300.

(** A cloud API that knows no path. *)
Definition no_such_path : controller :=
  fun _ _ => Responded (mkResponse 404 None None None).

(** A cloud API that answers [/api/sites] with a list under [data] and
    knows no other path. *)
Definition sites_only (sites : list json) : controller :=
  fun _ req =>
    if str_eqb (url req) (lit "https://api.ui.com/api/sites")
    then Responded (mkResponse 200 None None
                      (Some (JObj [("data"%string, JArr sites)])))
    else Responded (mkResponse 404 None None None).

Definition cloud_client : SiteManagerApi.client :=
  SiteManagerApi.new [] (lit "KEY") true.

(** The keys under which [check] of [_extractArray] looks for a list
    inside an object. *)
Definition inner_keys : list string :=
  ["data"; "sites"; "devices"; "hosts"; "items"; "results"; "entries"; "result"]%string.

(** The cloud configuration with the defaults and a key. *)
Definition cloud_config : SiteManagerApi.site_manager_config :=
  SiteManagerApi.mkSiteManager true (lit "KEY") [] true.

(** *** Calls of [addDashboardLog] *)

Record log_call := mkCall {
  at_time : jsstring;
  call_level : jsstring;
  call_source : jsstring;
  call_message : value;
  call_detail : value
}.

Definition add_call (dashboardLog : list Dashboard.log_entry) (c : log_call)
  : list Dashboard.log_entry :=
  Dashboard.addDashboardLog (at_time c) (call_level c) (call_source c)
    (call_message c) (call_detail c) dashboardLog.

(** The log after a sequence of calls, the earliest first. *)
Definition add_all (calls : list log_call) (dashboardLog : list Dashboard.log_entry)
  : list Dashboard.log_entry :=
  fold_left add_call calls dashboardLog.

Definition pushed (calls : list log_call) : list Dashboard.log_entry :=
  map (fun c => Dashboard.entry_of (at_time c) (call_level c) (call_source c)
                  (call_message c) (call_detail c)) calls.

(** The last [n] elements of a list. *)
Definition last_n {A} (n : nat) (xs : list A) : list A := skipn (length xs - n) xs.

(** The three paths that [GET /api/config] hides. *)
Definition hidden_paths : list (list string) :=
  [["web"; "auth"; "password"]; ["llm"; "openai"; "apiKey"];
   ["email"; "smtp"; "auth"; "pass"]]%string.

(** A configuration with a web password and a controller key. *)
Definition sample_config : json :=
  JObj [("web"%string,
         JObj [("auth"%string,
                JObj [("username"%string, JStr (lit "admin"));
                      ("password"%string, JStr (lit "s3cret"))])]);
        ("llm"%string,
         JObj [("openai"%string, JObj [("apiKey"%string, JStr (lit "sk-123"))])]);
        ("monitoring"%string,
         JObj [("siteManager"%string, JObj [("apiKey"%string, JStr (lit "cloud-key"))])])].

(** The findings of the lines [ls], the first of which has the index
    [index], for the lines that satisfy [keep]. *)
Fixpoint findings (keep : jsstring -> bool) (index : Z) (ls : list jsstring)
  : list LogAnalyzer.finding :=
  match ls with
  | [] => []
  | l :: rest =>
      (if keep l then [LogAnalyzer.mkFinding (index + 1) (trim l)] else []) ++
      findings keep (index + 1) rest
  end.

(** What each line contributes to a list of matches. *)
Definition matches_of (re : regex) (ls : list jsstring) : list jsstring :=
  flat_map (LogAnalyzer.first_match re) ls.

Definition is_error_line (l : jsstring) : bool := test LogAnalyzer.error_re l.

Definition is_warning_line (l : jsstring) : bool :=
  test LogAnalyzer.warning_re l && negb (test (lit_i "error") l).

(** The fields of a client that its configuration fixes. *)
Definition same_client (a b : monitor) : Prop :=
  baseUrl a = baseUrl b /\ apiKey a = apiKey b /\ site a = site b /\
  verifySSL a = verifySSL b.

(** A request that a client may send: the login, with the key in its
    body, or a [GET] to a URL under the clean base URL, with no key or
    with the client's in [X-API-Key]. *)
Definition own_request (this : monitor) (q : request) : Prop :=
  q = login_request this \/
  (is_post q = false /\ login_password q = None /\
   (x_api_key q = None \/ x_api_key q = Some (apiKey this)) /\
   startsWith (url q) (getCleanBaseUrl this) = true).

(** A step of the client [this0] that keeps the configured fields and
    sends only requests of its own; [Q] holds of what it resolves to. *)
Definition confined {A} (this0 : monitor) (Q : A -> Prop) (m : M A) : Prop :=
  forall s, same_client (fst s) this0 ->
    same_client (fst (snd (m s))) this0 /\
    (exists new, snd (snd (m s)) = new ++ snd s /\ Forall (own_request this0) new) /\
    (forall a, fst (m s) = Ok a -> Q a).

(** * Properties *)

(** ** Strings and patterns *)

Lemma str_eqb_refl (s : jsstring) : str_eqb s s = true.
Proof.
  induction s as [|c s IH]; simpl; [reflexivity|].
  now rewrite N.eqb_refl.
Qed.

Lemma str_eqb_eq (a b : jsstring) : str_eqb a b = true <-> a = b.
Proof.
  split.
  - revert b; induction a as [|x a IH]; intros [|y b]; simpl; try discriminate; auto.
    intros H; apply andb_true_iff in H as [Hx Hr].
    apply N.eqb_eq in Hx; subst; f_equal; auto.
  - intros ->; apply str_eqb_refl.
Qed.

(** The greedy loop of [Star (Chr p)] followed by the end of the input
    succeeds exactly on the strings made of [p] characters. *)
Lemma star_class_to_end {R} (k0 : mstate -> option R) (p : N -> bool) (n : nat) :
  (forall st, k0 st <> None) ->
  forall (s : jsstring) (q : option N) (cs : list (nat * jsstring)),
    (length s < n)%nat ->
    is_some (iterate (rmatch (Chr p)) (fun st => rmatch Eos st k0) n (mkState q s cs))
    = forallb p s.
Proof.
  intros Hk; induction n as [|n IH]; intros s q cs Hlen; [lia|].
  destruct s as [|c s]; simpl.
  - destruct (k0 _) eqn:E; [reflexivity | now apply Hk in E].
  - destruct (p c) eqn:Hp; simpl; [|reflexivity].
    replace (Nat.ltb (length s) (S (length s))) with true
      by (symmetry; apply Nat.ltb_lt; lia).
    simpl in Hlen.
    specialize (IH s (Some c) cs ltac:(lia)).
    destruct (iterate _ _ n _); simpl in *; congruence.
Qed.

Lemma anchored_only_at_start (r : regex) (q : N) (t : jsstring) :
  exec_from (Seq Bos r) (Some q) t = None.
Proof.
  revert q; induction t as [|d t IHt]; intros q; simpl; auto.
Qed.

(** [/^[...]+$/.test(s)] for a character class. *)
Lemma test_whole_class (p : N -> bool) (s : jsstring) :
  test (seqs [Bos; plus (Chr p); Eos]) s =
  match s with [] => false | _ => forallb p s end.
Proof.
  unfold test, exec.
  destruct s as [|c s]; [reflexivity|].
  change (seqs [Bos; plus (Chr p); Eos]) with (Seq Bos (Seq (plus (Chr p)) Eos)).
  unfold exec_from; fold exec_from.
  rewrite anchored_only_at_start.
  unfold match_here, plus.
  cbn [rmatch prev rest caps forallb].
  destruct (p c) eqn:Hp; [|reflexivity].
  pose proof (@star_class_to_end _
                (fun st' => Some (mkMatch (consumed (mkState None (c :: s) []) st')
                                          (caps st') st'))
                p (S (length s)) ltac:(discriminate) s (Some c) [] ltac:(lia)) as H.
  cbn [rmatch prev rest caps] in H.
  cbn [andb]. rewrite <- H.
  destruct (iterate _ _ _ _); reflexivity.
Qed.

(** ** The diagnostics runner *)

Lemma sanitizeHost_string (input : jsstring) :
  sanitizeHost (Some (JStr input)) =
  match trim input with
  | [] => None
  | s => if Nat.ltb 253 (length s) then None
         else if forallb host_char s then Some s else None
  end.
Proof.
  unfold sanitizeHost, host_re.
  rewrite test_whole_class.
  destruct (trim input) as [|c s]; [reflexivity|].
  cbn [length Nat.eqb orb].
  destruct (Nat.ltb 253 (S (length s))); [reflexivity|].
  destruct (forallb host_char (c :: s)); reflexivity.
Qed.

Lemma sanitizeHost_accepts (input target : jsstring) :
  sanitizeHost (Some (JStr input)) = Some target <->
  target = trim input /\ acceptable target.
Proof.
  rewrite sanitizeHost_string. unfold acceptable.
  destruct (trim input) as [|c s] eqn:Ht.
  - split; [discriminate|]. intros [-> [H _]]; now elim H.
  - destruct (Nat.ltb 253 (length (c :: s))) eqn:Hlen.
    + apply Nat.ltb_lt in Hlen.
      split; [discriminate|]. intros [-> [_ [H _]]]. lia.
    + apply Nat.ltb_ge in Hlen.
      destruct (forallb host_char (c :: s)) eqn:Hall.
      * split.
        -- intros [= <-]. repeat split; try discriminate; try assumption.
           apply Forall_forall. now apply forallb_forall.
        -- now intros [-> _].
      * split; [discriminate|]. intros [-> [_ [_ H]]].
        rewrite Forall_forall in H. rewrite <- forallb_forall in H. congruence.
Qed.

Lemma sanitizeHost_rejects (input : jsstring) :
  trim input = [] \/ (253 < length (trim input))%nat \/
  (exists c, In c (trim input) /\ host_char c = false) ->
  sanitizeHost (Some (JStr input)) = None.
Proof.
  intros H. destruct (sanitizeHost (Some (JStr input))) as [t|] eqn:E; [|reflexivity].
  apply sanitizeHost_accepts in E as [-> [Hne [Hlen Hall]]].
  destruct H as [H | [H | [c [Hin Hc]]]].
  - contradiction.
  - lia.
  - rewrite Forall_forall in Hall. apply Hall in Hin. congruence.
Qed.

Lemma clamp_range (n dflt hi : Z) : (1 <= hi -> 1 <= clamp n dflt hi <= hi)%Z.
Proof. unfold clamp; lia. Qed.

Lemma run_cmd_effects (w : os) (cmd fallback : jsstring) :
  snd (run_cmd w cmd fallback) = [Exec cmd].
Proof. unfold run_cmd; destruct (execAsync w cmd); reflexivity. Qed.

(** C6. A host that, once trimmed, is empty, longer than 253 characters
    or holds a character outside [[A-Za-z0-9.\-_:\[\]]] makes [runPing],
    [runTraceroute] and [testPort] answer the error result "Invalid or
    missing host" with nothing asked of the operating system; and
    whatever the three ask of it is a command or a connection on a
    target that passed the sanitization. *)
Theorem sanitized_hosts_only :
  forall (w : os) (input : jsstring) (count maxHops port : Z),
    (trim input = [] \/ (253 < length (trim input))%nat \/
     (exists c, In c (trim input) /\ host_char c = false) ->
     runPing w (Some (JStr input)) count
       = (mkCmd false [] (Some (lit "Invalid or missing host")), []) /\
     runTraceroute w (Some (JStr input)) maxHops
       = (mkCmd false [] (Some (lit "Invalid or missing host")), []) /\
     testPort w (Some (JStr input)) port
       = (mkPort false (lit "Invalid or missing host"), [])) /\
    (forall e,
       In e (snd (runPing w (Some (JStr input)) count) ++
             snd (runTraceroute w (Some (JStr input)) maxHops) ++
             snd (testPort w (Some (JStr input)) port)) ->
       acceptable (trim input) /\ asks_for w (trim input) e).
Proof.
  intros w input count maxHops port. split.
  - intros H. apply sanitizeHost_rejects in H.
    unfold runPing, runTraceroute, testPort. rewrite H. auto.
  - intros e. unfold runPing, runTraceroute, testPort.
    destruct (sanitizeHost (Some (JStr input))) as [t|] eqn:E; [|intros []].
    apply sanitizeHost_accepts in E as [-> Hacc].
    rewrite !run_cmd_effects.
    intros Hin. split; [assumption|].
    apply in_app_or in Hin as [Hin | Hin];
      [| apply in_app_or in Hin as [Hin | Hin]].
    + destruct Hin as [<- | []]. left. eexists; split; [|reflexivity].
      apply clamp_range. unfold MAX_PING_COUNT; lia.
    + destruct Hin as [<- | []]. right; left. eexists; split; [|reflexivity].
      apply clamp_range. unfold MAX_TRACEROUTE_HOPS; lia.
    + right; right.
      destruct (parseInt_number port) as [p|]; cbn [is_some_Z negb orb] in Hin;
        [|destruct Hin].
      destruct ((p <? 1)%Z || (65535 <? p)%Z)%bool eqn:Hp; [destruct Hin|].
      apply orb_false_iff in Hp as [H1 H2].
      apply Z.ltb_ge in H1, H2.
      exists p. split; [lia|].
      destruct (socket_connect w p (trim input)); destruct Hin as [<- | []]; reflexivity.
Qed.

(** A host with a shell metacharacter is turned away; a plain address
    passes. *)
Lemma sanitized_hosts_only_witness :
  runPing quiet_os (Some (JStr (lit "8.8.8.8; rm -rf /"))) 4
    = (mkCmd false [] (Some (lit "Invalid or missing host")), []) /\
  acceptable (lit "8.8.8.8").
Proof.
  split.
  - apply (proj1 (sanitized_hosts_only quiet_os (lit "8.8.8.8; rm -rf /") 4 15 80)).
    right; right. exists 59%N. split; [|reflexivity].
    vm_compute. tauto.
  - apply (proj2 (sanitized_hosts_only quiet_os (lit " 8.8.8.8 ") 4 15 80)
             (Exec (lit "ping -c 4 -W 3 8.8.8.8"))).
    vm_compute. tauto.
Defined.

(** ** Health metrics *)

Lemma bind_ok {A B} (r : result A) (k : A -> result B) (b : B) :
  bind r k = Ok b -> exists a, r = Ok a /\ k a = Ok b.
Proof. destruct r as [a|e]; simpl; [eauto | discriminate]. Qed.

Lemma rethrow_ok {A} (prefix : string) (r : result A) (a : A) :
  rethrow prefix r = Ok a -> r = Ok a.
Proof. destruct r; simpl; congruence. Qed.

Lemma filter_r_total (pred : json -> result bool) (f : json -> bool) (xs : list json) :
  (forall x, In x xs -> pred x = Ok (f x)) ->
  filter_r pred xs = Ok (filter f xs).
Proof.
  induction xs as [|x xs IH]; intros H; simpl; [reflexivity|].
  rewrite (H x (or_introl eq_refl)); simpl.
  rewrite IH by (intros y Hy; apply H; now right); simpl.
  reflexivity.
Qed.

Lemma filter_r_ok (pred : json -> result bool) (xs kept : list json) :
  filter_r pred xs = Ok kept ->
  exists f, (forall x, In x xs -> pred x = Ok (f x)) /\ kept = filter f xs.
Proof.
  revert kept; induction xs as [|x xs IH]; intros kept H; simpl in H.
  - injection H as <-. exists (fun _ => false). split; [intros _ [] | reflexivity].
  - apply bind_ok in H as [keep [Hx H]].
    apply bind_ok in H as [kept' [Hxs H]].
    injection H as <-.
    destruct (IH _ Hxs) as [f [Hf ->]].
    exists (fun y => match pred y with Ok b => b | Throw _ => false end). split.
    + intros y [<- | Hy]; [now rewrite Hx|]. now rewrite (Hf y Hy).
    + simpl. rewrite Hx.
      assert (filter f xs =
              filter (fun y => match pred y with Ok b => b | Throw _ => false end) xs) as ->
        by (apply filter_ext_in; intros y Hy; now rewrite (Hf y Hy)).
      reflexivity.
Qed.

Lemma get_not_null (k : string) (x : json) :
  x <> JNull -> get k x = Ok (field k x).
Proof. destruct x; intros H; [now elim H | reflexivity ..]. Qed.

Lemma get_ok (k : string) (x : json) (v : value) :
  get k x = Ok v -> x <> JNull /\ v = field k x.
Proof.
  destruct x; simpl; intros H; try discriminate;
    (split; [discriminate | now injection H]).
Qed.

Lemma filter_length_le {A} (f : A -> bool) (xs : list A) :
  (length (filter f xs) <= length xs)%nat.
Proof.
  induction xs as [|x xs IH]; simpl; [lia|]. destruct (f x); simpl; lia.
Qed.

(** The local client counts online the devices whose [state] is the
    number 1, whatever else a device carries or lacks. *)
Lemma local_online_count (site : jsstring) (api : jsstring -> result json)
  (m : health_metrics) :
  UniFiMonitor.getHealthMetrics site api = Ok m ->
  let devices := catch_default (getDevices site api) [] in
  total (UniFiMonitor.devices m) = len devices /\
  online (UniFiMonitor.devices m) = len (filter state_is_1 devices) /\
  offline (UniFiMonitor.devices m) = (len devices - len (filter state_is_1 devices))%Z.
Proof.
  intros H. apply rethrow_ok in H. cbv zeta in H.
  apply bind_ok in H as [on [Hon H]].
  apply bind_ok in H as [wl [_ H]].
  apply bind_ok in H as [wd [_ H]].
  injection H as <-. cbn [devices total online offline].
  assert (on = filter state_is_1 (catch_default (getDevices site api) [])) as ->.
  { apply filter_r_ok in Hon as [f [Hf ->]].
    apply filter_ext_in. intros d Hd. specialize (Hf d Hd).
    apply bind_ok in Hf as [v [Hv Hf]]. apply get_ok in Hv as [_ ->].
    now injection Hf. }
  auto.
Qed.

(** The local metrics are produced whenever no device and no client of
    the controller's lists is [null]. *)
Lemma local_metrics_total (site : jsstring) (api : jsstring -> result json) :
  (forall d, In d (catch_default (getDevices site api) []) -> d <> JNull) ->
  (forall c, In c (catch_default (getClients site api) []) -> c <> JNull) ->
  exists m, UniFiMonitor.getHealthMetrics site api = Ok m.
Proof.
  intros Hd Hc. unfold UniFiMonitor.getHealthMetrics. cbv zeta.
  rewrite (filter_r_total _ state_is_1)
    by (intros x Hx; rewrite get_not_null by auto; reflexivity).
  cbn [bind].
  rewrite (filter_r_total _ (fun c => is_bool (field "is_wired" c) false))
    by (intros x Hx; rewrite get_not_null by auto; reflexivity).
  cbn [bind].
  rewrite (filter_r_total _ (fun c => is_bool (field "is_wired" c) true))
    by (intros x Hx; rewrite get_not_null by auto; reflexivity).
  cbn [bind rethrow]. eauto.
Qed.

Lemma nullish_none (v : value) :
  nullish v None = None -> v = None \/ v = Some JNull.
Proof. destruct v as [[]|]; simpl; intros H; try discriminate; auto. Qed.

Section CloudMetrics.

Variable StringToNumber : jsstring -> option Z.

Lemma statusless_not_online (d : json) :
  statusless d -> _deviceIsOnline StringToNumber d = false.
Proof.
  intros [Hnn H].
  assert (forall k, In k status_fields -> field k d = None \/ field k d = Some JNull) as H'
    by (intros k Hk; apply nullish_none; auto).
  unfold _deviceIsOnline, first_of.
  destruct (H' "state"%string ltac:(simpl; tauto)) as [-> | ->];
  destruct (H' "connectionState"%string ltac:(simpl; tauto)) as [-> | ->];
  destruct (H' "status"%string ltac:(simpl; tauto)) as [-> | ->];
  destruct (H' "connection_status"%string ltac:(simpl; tauto)) as [-> | ->];
  destruct (H' "connected"%string ltac:(simpl; tauto)) as [-> | ->];
  destruct (H' "isOnline"%string ltac:(simpl; tauto)) as [-> | ->];
  destruct d; try reflexivity; now elim Hnn.
Qed.

Lemma statusless_has_no_status (d : json) :
  statusless d -> has_status d = Ok false.
Proof.
  intros [Hnn H].
  assert (forall k, In k status_fields -> field k d = None \/ field k d = Some JNull) as H'
    by (intros k Hk; apply nullish_none; auto).
  unfold has_status, status_value. rewrite get_not_null by assumption. cbn [bind].
  destruct (H' "state"%string ltac:(simpl; tauto)) as [-> | ->];
  destruct (H' "connectionState"%string ltac:(simpl; tauto)) as [-> | ->];
  destruct (H' "status"%string ltac:(simpl; tauto)) as [-> | ->];
  destruct (H' "connected"%string ltac:(simpl; tauto)) as [-> | ->];
  destruct (H' "isOnline"%string ltac:(simpl; tauto)) as [-> | ->];
  reflexivity.
Qed.

Lemma some_r_none (ds : list json) :
  (forall d, In d ds -> statusless d) -> some_r has_status ds = Ok false.
Proof.
  induction ds as [|d ds IH]; intros H; simpl; [reflexivity|].
  rewrite statusless_has_no_status by (apply H; now left). simpl.
  apply IH. intros x Hx. apply H. now right.
Qed.

Lemma filter_none {A} (f : A -> bool) (xs : list A) :
  (forall x, In x xs -> f x = false) -> filter f xs = [].
Proof.
  induction xs as [|x xs IH]; intros H; simpl; [reflexivity|].
  rewrite (H x (or_introl eq_refl)). apply IH. intros y Hy. apply H. now right.
Qed.

(** The lenient default of the cloud client: a list in which no device
    carries any status-like field is counted online as a whole. *)
Lemma cloud_all_statusless (sites clients : json) (ds : list json) :
  (forall d, In d ds -> statusless d) ->
  exists m,
    getHealthMetrics StringToNumber sites (JArr ds) clients = Ok m /\
    total (devices m) = len ds /\ online (devices m) = len ds.
Proof.
  intros H. unfold getHealthMetrics. cbv zeta. cbn [array_or_empty].
  rewrite (filter_none (_deviceIsOnline StringToNumber) ds)
    by (intros d Hd; apply statusless_not_online; auto).
  rewrite some_r_none by assumption.
  change (len []) with 0%Z. cbn [Z.eqb andb negb bind].
  destruct (0 <? len ds)%Z eqn:Hlen; cbn [bind].
  - eexists; split; [reflexivity|]. split; reflexivity.
  - eexists; split; [reflexivity|]. cbn [devices total online].
    apply Z.ltb_ge in Hlen. unfold len in *. split; [reflexivity | lia].
Qed.

Lemma some_r_exact (ds : list json) (b : bool) :
  some_r has_status ds = Ok b -> b = existsb carries_status ds.
Proof.
  revert b. induction ds as [|x ds IH]; intros b Hs; simpl in Hs; [now injection Hs as <-|].
  apply bind_ok in Hs as [bx [Hx Hs]].
  unfold has_status in Hx. apply bind_ok in Hx as [v [_ Hx]]. injection Hx as <-.
  cbn [existsb]. fold (carries_status x) in Hs |- *.
  destruct (carries_status x); cbn [orb]; [now injection Hs as <- | now apply IH].
Qed.

Lemma existsb_filter {A} (f : A -> bool) (xs : list A) :
  existsb f xs = negb (length (filter f xs) =? 0)%nat.
Proof.
  induction xs as [|x xs IH]; [reflexivity|]. cbn [existsb filter].
  destruct (f x); [reflexivity | exact IH].
Qed.

(** The online count of the cloud client: the devices [_deviceIsOnline]
    recognises, unless there is none and no device carries a status
    either, when it is the whole list. *)
Lemma cloud_online_exact (sites devices_ clients : json) (m : cloud_metrics) :
  getHealthMetrics StringToNumber sites devices_ clients = Ok m ->
  online (devices m)
  = if existsb (_deviceIsOnline StringToNumber) (array_or_empty devices_)
       || existsb carries_status (array_or_empty devices_)
    then len (filter (_deviceIsOnline StringToNumber) (array_or_empty devices_))
    else len (array_or_empty devices_).
Proof.
  intros H. unfold getHealthMetrics in H. cbv zeta in H.
  apply bind_ok in H as [on [Hon H]]. injection H as <-. cbn [devices online].
  rewrite (existsb_filter (_deviceIsOnline StringToNumber)).
  unfold len in *.
  destruct (length (filter (_deviceIsOnline StringToNumber) (array_or_empty devices_)))
    as [|k] eqn:Ek.
  - cbn [Nat.eqb negb orb]. change (Z.of_nat 0 =? 0) with true in Hon.
    rewrite andb_true_r in Hon.
    destruct (0 <? Z.of_nat (length (array_or_empty devices_))) eqn:Hlen.
    + apply bind_ok in Hon as [anyWithStatus [Hany Hon]].
      apply some_r_exact in Hany as ->.
      destruct (existsb carries_status (array_or_empty devices_)); cbn [negb] in Hon;
        congruence.
    + injection Hon as <-. apply Z.ltb_ge in Hlen.
      destruct (array_or_empty devices_); [reflexivity | cbn [length] in Hlen; lia].
  - cbn [Nat.eqb negb orb].
    replace (Z.of_nat (S k) =? 0) with false in Hon by (symmetry; apply Z.eqb_neq; lia).
    rewrite andb_false_r in Hon. congruence.
Qed.

Lemma offline_value_carries (d : json) :
  explicitly_offline d = true -> carries_status d = true.
Proof.
  destruct d as [| | | | |fields]; try discriminate.
  unfold explicitly_offline, carries_status, status_value.
  destruct (field "state" (JObj fields)) as [[| [|] | [|n|n] | [|c s] | l | o]|];
    destruct (field "status" (JObj fields)) as [[| [|] | [|n'|n'] | [|c' s'] | l' | o']|];
    cbn; try discriminate; reflexivity.
Qed.

Lemma offline_word_not_online (s : jsstring) :
  offline_word s = true ->
  str_eqb (toLowerCase s) (lit "connected") || str_eqb (toLowerCase s) (lit "online")
  || str_eqb (toLowerCase s) (lit "1") = false.
Proof.
  unfold offline_word. intros H.
  apply orb_true_iff in H as [H | H]; apply str_eqb_eq in H; rewrite H; reflexivity.
Qed.

Lemma offline_value_not_online (v : value) :
  (forall s, offline_word s = true -> StringToNumber s <> Some 1) ->
  offline_value v = true ->
  str_eqb (toLowerCase (String_ v)) (lit "connected")
  || str_eqb (toLowerCase (String_ v)) (lit "online")
  || str_eqb (toLowerCase (String_ v)) (lit "1") = false /\
  Number_ StringToNumber v <> Some 1.
Proof.
  intros HS H. destruct v as [[| [|] | [|n|n] | s | l | o]|]; try discriminate.
  - split; [reflexivity | discriminate].
  - split; [reflexivity | discriminate].
  - cbn [offline_value] in H. split; [now apply offline_word_not_online | now apply HS].
Qed.

(** A device that says it is offline is not recognised as online. *)
Lemma explicitly_offline_not_online (d : json) :
  (forall s, offline_word s = true -> StringToNumber s <> Some 1) ->
  explicitly_offline d = true -> _deviceIsOnline StringToNumber d = false.
Proof.
  intros HS H. destruct d as [| | | | |fields]; try discriminate.
  unfold explicitly_offline in H.
  apply andb_true_iff in H as [H H4]. apply andb_true_iff in H as [H H3].
  apply andb_true_iff in H as [H1 H2].
  apply negb_true_iff in H3, H4.
  destruct (offline_value_not_online _ HS H1) as [Hs Hn].
  unfold _deviceIsOnline, first_of. cbn [typeof_object negb fold_right].
  rewrite H3, H4. cbn [orb].
  assert (nullish (field "state" (JObj fields))
            (nullish (field "connectionState" (JObj fields))
               (nullish (field "status" (JObj fields))
                  (nullish (field "connection_status" (JObj fields)) (Some (JStr [])))))
          = nullish (field "state" (JObj fields)) (field "status" (JObj fields))) as ->.
  { destruct (field "state" (JObj fields)) as [[]|];
      destruct (field "connectionState" (JObj fields)) as [[]|]; try discriminate;
      destruct (field "status" (JObj fields)) as [[]|]; try discriminate; reflexivity. }
  rewrite Hs.
  destruct (Number_ StringToNumber
              (nullish (field "state" (JObj fields)) (field "status" (JObj fields))))
    as [[|[| |]|]|]; try reflexivity.
  now elim Hn.
Qed.

Lemma filter_all {A} (f : A -> bool) (xs : list A) :
  (forall x, In x xs -> f x = true) -> filter f xs = xs.
Proof.
  induction xs as [|x xs IH]; intros H; [reflexivity|]. cbn [filter].
  rewrite (H x (or_introl eq_refl)). f_equal. apply IH. intros y Hy. apply H. now right.
Qed.

Lemma filter_length_impl {A} (f g : A -> bool) (xs : list A) :
  (forall x, In x xs -> f x = true -> g x = true) ->
  (length (filter f xs) <= length (filter g xs))%nat.
Proof.
  induction xs as [|x xs IH]; intros H; [reflexivity|]. cbn [filter].
  assert (length (filter f xs) <= length (filter g xs))%nat as IH'
    by (apply IH; intros y Hy; apply H; now right).
  pose proof (H x (or_introl eq_refl)) as Hx.
  destruct (f x), (g x); cbn [length]; try lia.
Qed.

(** The cloud client never counts online a device that says it is
    offline. *)
Lemma cloud_offline_excluded (sites devices_ clients : json) (m : cloud_metrics) :
  (forall s, offline_word s = true -> StringToNumber s <> Some 1) ->
  getHealthMetrics StringToNumber sites devices_ clients = Ok m ->
  online (devices m)
  <= len (filter (fun d => negb (explicitly_offline d)) (array_or_empty devices_)).
Proof.
  intros HS H. rewrite (cloud_online_exact _ _ _ _ H).
  assert (length (filter (_deviceIsOnline StringToNumber) (array_or_empty devices_))
          <= length (filter (fun d => negb (explicitly_offline d)) (array_or_empty devices_)))%nat
    as Hle.
  { apply filter_length_impl. intros x _ Hx.
    destruct (explicitly_offline x) eqn:Ex; [|reflexivity].
    rewrite (explicitly_offline_not_online x HS Ex) in Hx. discriminate. }
  destruct (existsb (_deviceIsOnline StringToNumber) (array_or_empty devices_)
            || existsb carries_status (array_or_empty devices_)) eqn:E;
    [unfold len; lia|].
  apply orb_false_iff in E as [_ E].
  rewrite filter_all; [lia|].
  intros x Hx. destruct (explicitly_offline x) eqn:Ex; [|reflexivity].
  assert (existsb carries_status (array_or_empty devices_) = true) as Hc
    by (apply existsb_exists; exists x; split; [exact Hx | now apply offline_value_carries]).
  congruence.
Qed.

Lemma cloud_offline (sites devices_ clients : json) (m : cloud_metrics) :
  getHealthMetrics StringToNumber sites devices_ clients = Ok m ->
  offline (devices m) = (total (devices m) - online (devices m))%Z.
Proof.
  intros H. unfold getHealthMetrics in H. cbv zeta in H.
  apply bind_ok in H as [on [_ H]]. now injection H as <-.
Qed.

End CloudMetrics.

Lemma summary_offline (api_of : controller_config -> jsstring -> result json)
  (ce : list json -> result (list json)) (cfgs : list controller_config) (s : summary) :
  unifi_summary (getMonitoringData api_of ce cfgs) = Some s ->
  offline (sum_devices s) = (total (sum_devices s) - online (sum_devices s))%Z.
Proof.
  unfold getMonitoringData. cbv zeta.
  destruct (filter cfg_enabled cfgs); [discriminate|].
  destruct (filter success _); [discriminate|].
  cbn [unifi_summary]. now intros [= <-].
Qed.

(** C10. The offline count of the health metrics of the local client,
    of the cloud client and of the fleet summary is the total minus the
    online count. *)
Theorem offline_is_total_minus_online :
  (forall site api m,
     UniFiMonitor.getHealthMetrics site api = Ok m ->
     offline (UniFiMonitor.devices m)
     = (total (UniFiMonitor.devices m) - online (UniFiMonitor.devices m))%Z) /\
  (forall StringToNumber sites devices_ clients m,
     UniFiSiteManagerMonitor.getHealthMetrics StringToNumber sites devices_ clients = Ok m ->
     offline (devices m) = (total (devices m) - online (devices m))%Z) /\
  (forall api_of connection_events_of cfgs s,
     unifi_summary (getMonitoringData api_of connection_events_of cfgs) = Some s ->
     offline (sum_devices s) = (total (sum_devices s) - online (sum_devices s))%Z).
Proof.
  split; [|split].
  - intros site api m H.
    destruct (local_online_count _ _ _ H) as [Ht [Ho Hoff]].
    rewrite Ht, Ho. exact Hoff.
  - intros; eapply cloud_offline; eauto.
  - intros; eapply summary_offline; eauto.
Qed.

(** One controller with an online, an offline and a status-less device:
    the three results are produced, each with two devices offline out of
    three. *)
Lemma offline_is_total_minus_online_witness :
  (exists m,
     UniFiMonitor.getHealthMetrics (lit "default")
       (serving [online_ap; offline_ap; plain_ap] []) = Ok m /\
     offline (UniFiMonitor.devices m) = 2%Z) /\
  (exists m,
     UniFiSiteManagerMonitor.getHealthMetrics (fun _ => None) (JArr [])
       (JArr [online_ap; offline_ap; plain_ap]) (JArr []) = Ok m /\
     offline (devices m) = 2%Z) /\
  (exists s,
     unifi_summary
       (getMonitoringData (fun _ => serving [online_ap; offline_ap; plain_ap] [])
          no_connection_events [main_site]) = Some s /\
     offline (sum_devices s) = 2%Z).
Proof.
  split; [|split].
  - destruct (UniFiMonitor.getHealthMetrics (lit "default")
                (serving [online_ap; offline_ap; plain_ap] [])) as [m|e] eqn:E;
      [|vm_compute in E; discriminate].
    exists m. split; [reflexivity|].
    rewrite (proj1 offline_is_total_minus_online _ _ _ E).
    vm_compute in E. injection E as <-. reflexivity.
  - destruct (UniFiSiteManagerMonitor.getHealthMetrics (fun _ => None) (JArr [])
                (JArr [online_ap; offline_ap; plain_ap]) (JArr [])) as [m|e] eqn:E;
      [|vm_compute in E; discriminate].
    exists m. split; [reflexivity|].
    rewrite (proj1 (proj2 offline_is_total_minus_online) _ _ _ _ _ E).
    vm_compute in E. injection E as <-. reflexivity.
  - destruct (unifi_summary
                (getMonitoringData (fun _ => serving [online_ap; offline_ap; plain_ap] [])
                   no_connection_events [main_site])) as [s|] eqn:E;
      [|vm_compute in E; discriminate].
    exists s. split; [reflexivity|].
    rewrite (proj2 (proj2 offline_is_total_minus_online) _ _ _ _ E).
    vm_compute in E. injection E as <-. reflexivity.
Defined.

Lemma statusless_state_is_not_1 (d : json) : statusless d -> state_is_1 d = false.
Proof.
  intros [_ H]. unfold state_is_1.
  destruct (nullish_none _ (H "state"%string ltac:(simpl; tauto))) as [-> | ->]; reflexivity.
Qed.

(** C3, as the code has it.  The local client counts online the devices
    whose [state] is the number 1, and no other, so never a device that
    lacks its status fields.  The cloud client counts the devices
    [_deviceIsOnline] recognises; only when it recognises none, and no
    device of the list has, as the first of [state], [status],
    [connectionState], [connected] and [isOnline] that is not null, a
    value other than the empty string, does it count the whole list
    online.  So a list of devices that all lack their status fields is
    online as a whole, and a device that says it is offline is never
    counted, whatever its siblings carry. *)
Theorem device_online_policy :
  (forall site api m,
     UniFiMonitor.getHealthMetrics site api = Ok m ->
     online (UniFiMonitor.devices m)
     = len (filter state_is_1 (catch_default (getDevices site api) []))) /\
  (forall d, statusless d -> state_is_1 d = false) /\
  (forall StringToNumber sites devices_ clients m,
     UniFiSiteManagerMonitor.getHealthMetrics StringToNumber sites devices_ clients = Ok m ->
     online (devices m)
     = if existsb (_deviceIsOnline StringToNumber) (array_or_empty devices_)
          || existsb carries_status (array_or_empty devices_)
       then len (filter (_deviceIsOnline StringToNumber) (array_or_empty devices_))
       else len (array_or_empty devices_)) /\
  (forall StringToNumber sites clients ds,
     (forall d, In d ds -> statusless d) ->
     exists m,
       UniFiSiteManagerMonitor.getHealthMetrics StringToNumber sites (JArr ds) clients = Ok m /\
       online (devices m) = len ds) /\
  (forall StringToNumber sites devices_ clients m,
     (forall s, offline_word s = true -> StringToNumber s <> Some 1) ->
     UniFiSiteManagerMonitor.getHealthMetrics StringToNumber sites devices_ clients = Ok m ->
     online (devices m)
     <= len (filter (fun d => negb (explicitly_offline d)) (array_or_empty devices_))).
Proof.
  split; [|split; [|split; [|split]]].
  - intros site api m H. apply (local_online_count _ _ _ H).
  - exact statusless_state_is_not_1.
  - intros S2N sites devices_ clients m H. exact (cloud_online_exact S2N _ _ _ _ H).
  - intros S2N sites clients ds H.
    destruct (cloud_all_statusless S2N sites clients ds H) as [m [Hm [_ Ho]]]. eauto.
  - intros S2N sites devices_ clients m HS H.
    exact (cloud_offline_excluded S2N _ _ _ _ HS H).
Qed.

Lemma plain_ap_statusless : statusless plain_ap.
Proof.
  split; [discriminate|].
  intros k [<- | [<- | [<- | [<- | [<- | [<- | []]]]]]]; reflexivity.
Qed.

Lemma plain_switch_statusless : statusless plain_switch.
Proof.
  split; [discriminate|].
  intros k [<- | [<- | [<- | [<- | [<- | [<- | []]]]]]]; reflexivity.
Qed.

(** Two status-less devices alone are both online for the cloud client;
    next to a switch whose status is [offline] the status-less device is
    not counted, and the switch is not counted either. *)
Lemma device_online_policy_witness :
  (exists m,
     UniFiSiteManagerMonitor.getHealthMetrics blank_is_zero (JArr [])
       (JArr [plain_ap; plain_switch]) (JArr []) = Ok m /\
     online (devices m) = 2%Z) /\
  (exists m,
     UniFiSiteManagerMonitor.getHealthMetrics blank_is_zero (JArr [])
       (JArr [plain_ap; offline_switch]) (JArr []) = Ok m /\
     online (devices m) = 0%Z /\ (online (devices m) <= 1)%Z).
Proof.
  split.
  - destruct (proj1 (proj2 (proj2 (proj2 device_online_policy))) blank_is_zero (JArr [])
                (JArr []) [plain_ap; plain_switch]) as [m [Hm Ho]].
    + intros d [<- | [<- | []]];
        [apply plain_ap_statusless | apply plain_switch_statusless].
    + exists m. split; [exact Hm | exact Ho].
  - destruct (UniFiSiteManagerMonitor.getHealthMetrics blank_is_zero (JArr [])
                (JArr [plain_ap; offline_switch]) (JArr [])) as [m|e] eqn:E;
      [|vm_compute in E; discriminate].
    exists m. split; [reflexivity|]. split.
    + rewrite (proj1 (proj2 (proj2 device_online_policy)) blank_is_zero (JArr [])
                 (JArr [plain_ap; offline_switch]) (JArr []) m E).
      reflexivity.
    + apply (proj2 (proj2 (proj2 (proj2 device_online_policy))) blank_is_zero (JArr [])
               (JArr [plain_ap; offline_switch]) (JArr []) m); [|exact E].
      intros s _. now destruct s.
Defined.

(** C3 as stated fails on both clients: the local client counts none of
    two status-less devices online, the cloud client counts neither of
    two status-less devices next to an online one, and the cloud client
    counts online a lone device whose [status] is [offline] behind an
    empty [state]. *)
Lemma statusless_siblings_not_counted :
  (exists m,
     UniFiMonitor.getHealthMetrics (lit "default")
       (serving [plain_ap; plain_switch] []) = Ok m /\
     total (UniFiMonitor.devices m) = 2%Z /\ online (UniFiMonitor.devices m) = 0%Z) /\
  (forall StringToNumber, exists m,
     UniFiSiteManagerMonitor.getHealthMetrics StringToNumber (JArr [])
       (JArr [plain_ap; plain_switch; online_ap]) (JArr []) = Ok m /\
     total (devices m) = 3%Z /\ online (devices m) = 1%Z) /\
  statusless plain_ap /\ statusless plain_switch /\
  (exists m,
     UniFiSiteManagerMonitor.getHealthMetrics blank_is_zero (JArr [])
       (JArr [blank_state_ap]) (JArr []) = Ok m /\
     total (devices m) = 1%Z /\ online (devices m) = 1%Z).
Proof.
  split; [|split; [|split; [|split]]].
  - eexists. split; [vm_compute; reflexivity|]. split; reflexivity.
  - intros S2N. eexists. split; [vm_compute; reflexivity|]. split; reflexivity.
  - apply plain_ap_statusless.
  - apply plain_switch_statusless.
  - eexists. split; [vm_compute; reflexivity|]. split; reflexivity.
Qed.

(** ** The local-controller client *)

Lemma useSessionAuth_with_prefix (this : monitor) :
  useSessionAuth (with_prefix this) = useSessionAuth this.
Proof.
  unfold with_prefix, detectApiPrefix.
  destruct (apiPrefix this); [reflexivity|].
  repeat match goal with |- context [if ?b then _ else _] => destruct b end; reflexivity.
Qed.

Lemma getApiBaseUrl_run (this : monitor) (sent : list request) :
  getApiBaseUrl (this, sent)
  = (Ok (getCleanBaseUrl (with_prefix this) ++
         match apiPrefix (with_prefix this) with Some p => p | None => [] end),
     (with_prefix this, sent)).
Proof.
  unfold getApiBaseUrl, with_prefix, mbind, this_, update, ret. cbn [fst snd].
  destruct (apiPrefix this); reflexivity.
Qed.

Lemma doRequest_run (w : controller) (endpoint : jsstring) (useSession : bool)
  (this : monitor) (sent : list request) :
  doRequest w endpoint useSession (this, sent)
  = axios w (request_of this endpoint useSession) getRequestOptions (with_prefix this, sent).
Proof.
  unfold doRequest, mbind. rewrite getApiBaseUrl_run.
  unfold this_, request_of. cbn [fst snd]. rewrite <- app_assoc. reflexivity.
Qed.

Lemma axios_resolves (w : controller) (req : request) (s : st) (r : response) :
  w (snd s) req = Responded r -> status r < 500 ->
  axios w req getRequestOptions s = (Ok r, (fst s, req :: snd s)).
Proof.
  intros H Hs. unfold axios. rewrite H.
  cbn [settle maxRedirects validateStatus getRequestOptions].
  now rewrite (proj2 (Z.ltb_lt _ _) Hs).
Qed.

(** A first answer that is neither an error status nor 401/403 ends
    [apiRequest] at once with the payload [unwrap] extracts. *)
Lemma apiRequest_unwraps (fuel : nat) (w : controller) (endpoint : jsstring)
  (this : monitor) (sent : list request) (r : response) :
  useSessionAuth this <> Some true ->
  w sent (request_of this (normalize_endpoint endpoint) false) = Responded r ->
  status r < 500 -> is_401_403 (status r) = false ->
  apiRequest (S fuel) w endpoint (this, sent)
  = (Some (Ok (unwrap (data r))),
     (with_prefix this, [request_of this (normalize_endpoint endpoint) false] ++ sent)).
Proof.
  intros Hauth Hw Hs Hn.
  cbn [apiRequest]. unfold try_catch, apiRequest_try.
  unfold mbind at 1. unfold this_ at 1. cbn [fst snd].
  assert (forall k : response -> M step,
            mbind (match useSessionAuth this with
                   | Some true =>
                       mbind (match nonempty (cookie this) with
                              | None => mbind (authenticate w) (fun _ => ret tt)
                              | Some _ => ret tt
                              end)
                         (fun _ => doRequest w (normalize_endpoint endpoint) true)
                   | _ =>
                       mbind (doRequest w (normalize_endpoint endpoint) false)
                         (fun response =>
                            if is_401_403 (status response)
                            then mbind (update (set_useSessionAuth (Some true)))
                                   (fun _ => mbind (authenticate w)
                                      (fun _ => doRequest w (normalize_endpoint endpoint) true))
                            else ret response)
                   end) k (this, sent)
            = k r (with_prefix this,
                   request_of this (normalize_endpoint endpoint) false :: sent)) as Hfirst.
  { intros k.
    destruct (useSessionAuth this) as [[|]|]; [now elim Hauth | |];
      unfold mbind at 1; unfold mbind at 1; rewrite doRequest_run;
      rewrite (axios_resolves w _ (with_prefix this, sent) r Hw Hs);
      rewrite Hn; reflexivity. }
  rewrite Hfirst. rewrite Hn. reflexivity.
Qed.

(** C1. The payload [apiRequest] answers with: the value of the [data]
    field of an object that carries one, an array as it is, any other
    object wrapped in a one-element array, and the empty array for
    [null] and [undefined]; and this is what a call of [apiRequest]
    resolves to when the controller's answer is not an authentication
    failure. *)
Theorem apiRequest_unwrap_rule :
  (forall fields inner,
     assoc "data" fields = Some inner -> unwrap (Some (JObj fields)) = inner) /\
  (forall xs, unwrap (Some (JArr xs)) = JArr xs) /\
  (forall fields,
     assoc "data" fields = None -> unwrap (Some (JObj fields)) = JArr [JObj fields]) /\
  unwrap (Some JNull) = JArr [] /\
  unwrap None = JArr [] /\
  (forall fuel w endpoint this sent r,
     useSessionAuth this <> Some true ->
     w sent (request_of this (normalize_endpoint endpoint) false) = Responded r ->
     status r < 500 -> is_401_403 (status r) = false ->
     fst (apiRequest (S fuel) w endpoint (this, sent)) = Some (Ok (unwrap (data r)))).
Proof.
  repeat split.
  - intros fields inner H. unfold unwrap, opt_get. now rewrite H.
  - intros fields H. unfold unwrap, opt_get. now rewrite H.
  - intros fuel w endpoint this sent r Ha Hw Hs Hn.
    now rewrite (apiRequest_unwraps fuel w endpoint this sent r Ha Hw Hs Hn).
Qed.

(** The four shapes, answered by a controller. *)
Lemma apiRequest_unwrap_rule_witness :
  fst (apiRequest 1 (answering (Some (JObj [("data"%string, JArr [plain_ap])])))
         devices_endpoint (fresh_client, [])) = Some (Ok (JArr [plain_ap])) /\
  fst (apiRequest 1 (answering (Some (JArr [plain_ap; online_ap])))
         devices_endpoint (fresh_client, [])) = Some (Ok (JArr [plain_ap; online_ap])) /\
  fst (apiRequest 1 (answering (Some plain_ap))
         devices_endpoint (fresh_client, [])) = Some (Ok (JArr [plain_ap])) /\
  fst (apiRequest 1 (answering None)
         devices_endpoint (fresh_client, [])) = Some (Ok (JArr [])).
Proof.
  pose proof apiRequest_unwrap_rule as [Hdata [Harr [Hobj [_ [Hundef Hrun]]]]].
  split; [|split; [|split]].
  - rewrite (Hrun 0%nat (answering (Some (JObj [("data"%string, JArr [plain_ap])])))
               devices_endpoint fresh_client [] _ ltac:(discriminate) eq_refl
               ltac:(reflexivity) eq_refl).
    cbn [data].
    now rewrite (Hdata [("data"%string, JArr [plain_ap])] (JArr [plain_ap]) eq_refl).
  - rewrite (Hrun 0%nat (answering (Some (JArr [plain_ap; online_ap])))
               devices_endpoint fresh_client [] _ ltac:(discriminate) eq_refl
               ltac:(reflexivity) eq_refl).
    cbn [data]. now rewrite Harr.
  - rewrite (Hrun 0%nat (answering (Some plain_ap))
               devices_endpoint fresh_client [] _ ltac:(discriminate) eq_refl
               ltac:(reflexivity) eq_refl).
    cbn [data]. unfold plain_ap, device.
    now rewrite (Hobj [("mac"%string, JStr (lit "aa:00:00:00:00:01"))] eq_refl).
  - rewrite (Hrun 0%nat (answering None)
               devices_endpoint fresh_client [] _ ltac:(discriminate) eq_refl
               ltac:(reflexivity) eq_refl).
    cbn [data]. now rewrite Hundef.
Defined.

(** A 404 is an ordinary response: [apiRequest] answers with its
    unwrapped body after the one request, the prefix it had taken
    unchanged. *)
Lemma not_found_resolves :
  forall fuel w endpoint this prefix sent r,
    useSessionAuth this <> Some true ->
    apiPrefix this = Some prefix ->
    w sent (request_of this (normalize_endpoint endpoint) false) = Responded r ->
    status r = 404 ->
    apiRequest (S fuel) w endpoint (this, sent)
    = (Some (Ok (unwrap (data r))),
       (this, request_of this (normalize_endpoint endpoint) false :: sent)).
Proof.
  intros fuel w endpoint this prefix sent r Ha Hp Hw Hs.
  rewrite (apiRequest_unwraps fuel w endpoint this sent r Ha Hw);
    [| rewrite Hs; lia | rewrite Hs; reflexivity].
  unfold with_prefix. rewrite Hp. reflexivity.
Qed.

(** After its first activation against [login_only] the client holds
    the session the login gave it, and the activation ends with
    [return this.apiRequest(endpoint)]. *)
Lemma login_only_activation (sent : list request) :
  let r := try_catch (apiRequest_try login_only devices_endpoint) apiRequest_catch
             (fresh_client, sent) in
  fst r = Ok Again /\ fst (snd r) = session_client.
Proof. split; vm_compute; reflexivity. Qed.

Lemma mbind_run {A B} (m : M A) (k : A -> M B) (s s1 : st) (a : A) :
  m s = (Ok a, s1) -> mbind m k s = k a s1.
Proof. intros H. unfold mbind. now rewrite H. Qed.

Lemma configured_detectApiPrefix (this : monitor) :
  configured this -> configured (detectApiPrefix this).
Proof.
  unfold configured, detectApiPrefix.
  repeat match goal with |- context [if ?b then _ else _] => destruct b end; auto.
Qed.

Lemma configured_with_prefix (this : monitor) :
  configured this -> configured (with_prefix this).
Proof.
  unfold with_prefix. destruct (apiPrefix this); auto using configured_detectApiPrefix.
Qed.

Lemma is_401_403_below_500 (s : Z) : is_401_403 s = true -> s < 500 /\ s <> 200.
Proof.
  unfold is_401_403. intros H. apply orb_true_iff in H as [H | H];
    apply Z.eqb_eq in H; lia.
Qed.

Section LoginsOnly.

Variable w : controller.
Hypothesis Hw : accepts_logins_only w.

Lemma get_is_refused (req : request) (this : monitor) (sent : list request) :
  is_post req = false ->
  exists r, axios w req getRequestOptions (this, sent) = (Ok r, (this, req :: sent)) /\
            is_401_403 (status r) = true.
Proof.
  intros Hreq. destruct (proj2 Hw sent req Hreq) as [r [Hr Hs]].
  exists r. split; [|exact Hs].
  apply (axios_resolves w req (this, sent) r Hr).
  now apply is_401_403_below_500.
Qed.

Lemma doRequest_is_refused (endpoint : jsstring) (useSession : bool) (this : monitor)
  (sent : list request) :
  exists r,
    doRequest w endpoint useSession (this, sent)
    = (Ok r, (with_prefix this, request_of this endpoint useSession :: sent)) /\
    is_401_403 (status r) = true.
Proof.
  rewrite doRequest_run. apply get_is_refused. reflexivity.
Qed.

Lemma probes_are_refused (base : jsstring) (prefixes : list jsstring) :
  forall this sent,
  exists sent',
    probe_prefixes w base prefixes (this, sent) = (Ok tt, (detectApiPrefix this, sent')) /\
    logins sent' = logins sent.
Proof.
  induction prefixes as [|p ps IH]; intros this sent; cbn [probe_prefixes].
  - exists sent. split; reflexivity.
  - unfold mbind at 1. unfold this_ at 1. cbn [fst].
    destruct (get_is_refused (mkRequest false (base ++ p ++ lit "/api/self") None None
                                (cookie this) (csrfToken this)) this sent eq_refl)
      as [r [Hr Hs]].
    unfold mbind at 1. unfold try_catch at 1. unfold mbind at 1. rewrite Hr.
    unfold ret at 1. unfold probe_accepts.
    replace (status r =? 200) with false
      by (symmetry; apply Z.eqb_neq; now apply is_401_403_below_500).
    cbn [andb].
    destruct (IH this (mkRequest false (base ++ p ++ lit "/api/self") None None
                         (cookie this) (csrfToken this) :: sent)) as [sent' [H Hl]].
    exists sent'. split; [exact H|]. rewrite Hl. reflexivity.
Qed.

Lemma login_is_accepted (this : monitor) (sent : list request) :
  configured this ->
  exists this' sent',
    authenticate w (this, sent) = (Ok true, (this', sent')) /\
    configured this' /\ logins sent' = S (logins sent).
Proof.
  intros [Hb Hk]. unfold authenticate.
  unfold mbind at 1. unfold this_ at 1. cbn [fst].
  destruct (baseUrl this) as [|b0 bs] eqn:Eb; [now elim Hb|].
  destruct (apiKey this) as [|k0 ks] eqn:Ek; [now elim Hk|].
  cbv zeta. unfold try_catch at 1. unfold mbind at 1.
  match goal with |- context [axios w ?q _ _] => set (login := q) end.
  destruct (proj1 Hw sent login eq_refl) as [r [Hr Hs]].
  rewrite (axios_resolves w login (this, sent) r Hr) by lia. cbn [fst snd].
  rewrite Hs. cbn [Z.eqb Pos.eqb negb fst snd].
  set (this1 := match set_cookie r with
                | Some cookies =>
                    set_cookie_field (Some (join (lit "; ") (map before_semicolon cookies))) this
                | None => this
                end).
  assert (configured this1) as Hc1.
  { unfold this1, configured. destruct (set_cookie r); cbn; rewrite ?Eb, ?Ek;
      split; discriminate. }
  set (this2 := set_csrfToken (nonempty (x_csrf_token r)) this1).
  assert (configured this2) as Hc2 by exact Hc1.
  destruct (probes_are_refused (getCleanBaseUrl this2) [unifi_api; proxy_network]
              this2 (login :: sent)) as [sent' [Hp Hl]].
  exists (set_useSessionAuth (Some true) (detectApiPrefix this2)), sent'.
  split; [|split].
  - unfold mbind at 1.
    assert (match set_cookie r with
            | Some cookies =>
                update (set_cookie_field
                          (Some (join (lit "; ") (map before_semicolon cookies))))
            | None => ret tt
            end (this, login :: sent) = (Ok tt, (this1, login :: sent))) as ->
      by (unfold this1; destruct (set_cookie r); reflexivity).
    unfold mbind at 1. unfold update at 1. cbn [fst snd].
    fold this2.
    unfold mbind at 1. unfold try_catch at 1.
    unfold detectApiPrefixByProbing. unfold mbind at 1. unfold this_ at 1. cbn [fst].
    rewrite Hp. reflexivity.
  - apply (configured_detectApiPrefix this2 Hc2).
  - rewrite Hl. reflexivity.
Qed.

Lemma configured_reset (this : monitor) : configured this -> configured (reset_session this).
Proof. auto. Qed.

(** One activation ends with [return this.apiRequest(endpoint)], after
    at least one login. *)
Lemma activation_restarts (endpoint : jsstring) (this : monitor) (sent : list request) :
  configured this ->
  exists this' sent',
    try_catch (apiRequest_try w endpoint) apiRequest_catch (this, sent)
    = (Ok Again, (this', sent')) /\
    configured this' /\ (S (logins sent) <= logins sent')%nat.
Proof.
  intros Hc. unfold try_catch, apiRequest_try.
  unfold mbind at 1. unfold this_ at 1. cbn [fst].
  (* the answer to the first authenticated or unauthenticated request *)
  assert (exists response this1 sent1,
            match useSessionAuth this with
            | Some true =>
                mbind (match nonempty (cookie this) with
                       | None => mbind (authenticate w) (fun _ => ret tt)
                       | Some _ => ret tt
                       end)
                  (fun _ => doRequest w endpoint true)
            | _ =>
                mbind (doRequest w endpoint false)
                  (fun response =>
                     if is_401_403 (status response)
                     then mbind (update (set_useSessionAuth (Some true)))
                            (fun _ => mbind (authenticate w)
                               (fun _ => doRequest w endpoint true))
                     else ret response)
            end (this, sent) = (Ok response, (this1, sent1)) /\
            is_401_403 (status response) = true /\ configured this1 /\
            (logins sent <= logins sent1)%nat) as (response & this1 & sent1 & H1 & Hs & Hc1 & Hl1).
  { assert (forall this0 sent0, configured this0 ->
              exists response this1 sent1,
                mbind (doRequest w endpoint false)
                  (fun response =>
                     if is_401_403 (status response)
                     then mbind (update (set_useSessionAuth (Some true)))
                            (fun _ => mbind (authenticate w)
                               (fun _ => doRequest w endpoint true))
                     else ret response) (this0, sent0)
                = (Ok response, (this1, sent1)) /\
                is_401_403 (status response) = true /\ configured this1 /\
                (logins sent0 <= logins sent1)%nat) as Hkey.
    { intros this0 sent0 Hc0.
      destruct (doRequest_is_refused endpoint false this0 sent0) as [r0 [Hr0 Hs0]].
      rewrite (mbind_run _ _ _ _ _ Hr0). rewrite Hs0.
      unfold mbind at 1. unfold update at 1. cbn [fst snd].
      destruct (login_is_accepted (set_useSessionAuth (Some true) (with_prefix this0))
                  (request_of this0 endpoint false :: sent0)
                  (configured_with_prefix this0 Hc0)) as (this1 & sent1 & Ha & Hca & Hla).
      rewrite (mbind_run _ _ _ _ _ Ha).
      destruct (doRequest_is_refused endpoint true this1 sent1) as [r1 [Hr1 Hs1]].
      rewrite Hr1. exists r1, (with_prefix this1), (request_of this1 endpoint true :: sent1).
      split; [reflexivity|]. split; [exact Hs1|].
      split; [now apply configured_with_prefix|].
      change (logins (request_of this1 endpoint true :: sent1)) with (logins sent1).
      rewrite Hla.
      change (logins (request_of this0 endpoint false :: sent0)) with (logins sent0). lia. }
    destruct (useSessionAuth this) as [[|]|]; [|apply Hkey; assumption ..].
    destruct (nonempty (cookie this)).
    - unfold mbind at 1. unfold ret at 1.
      destruct (doRequest_is_refused endpoint true this sent) as [r1 [Hr1 Hs1]].
      rewrite Hr1. exists r1, (with_prefix this), (request_of this endpoint true :: sent).
      split; [reflexivity|]. split; [exact Hs1|].
      split; [now apply configured_with_prefix|].
      change (logins (request_of this endpoint true :: sent)) with (logins sent). lia.
    - destruct (login_is_accepted this sent Hc) as (this1 & sent1 & Ha & Hca & Hla).
      unfold mbind at 1. unfold mbind at 1. rewrite Ha. unfold ret at 1.
      destruct (doRequest_is_refused endpoint true this1 sent1) as [r1 [Hr1 Hs1]].
      rewrite Hr1. exists r1, (with_prefix this1), (request_of this1 endpoint true :: sent1).
      split; [reflexivity|]. split; [exact Hs1|].
      split; [now apply configured_with_prefix|].
      change (logins (request_of this1 endpoint true :: sent1)) with (logins sent1).
      rewrite Hla. lia. }
  rewrite (mbind_run _ _ _ _ _ H1). rewrite Hs.
  unfold mbind at 1. unfold update at 1. cbn [fst snd].
  destruct (login_is_accepted (reset_session this1) sent1 (configured_reset this1 Hc1))
    as (this2 & sent2 & Ha & Hca & Hla).
  rewrite (mbind_run _ _ _ _ _ Ha). unfold ret.
  exists this2, sent2. split; [reflexivity|]. split; [exact Hca|]. lia.
Qed.

Lemma refused_requests_never_end (fuel : nat) :
  forall endpoint this sent,
    configured this ->
    fst (apiRequest fuel w endpoint (this, sent)) = None /\
    (logins sent + fuel <= logins (snd (snd (apiRequest fuel w endpoint (this, sent)))))%nat.
Proof.
  induction fuel as [|fuel IH]; intros endpoint this sent Hc.
  - cbn [apiRequest fst snd]. split; [reflexivity | lia].
  - cbn [apiRequest].
    destruct (activation_restarts (normalize_endpoint endpoint) this sent Hc)
      as (this' & sent' & Hact & Hc' & Hl).
    rewrite Hact.
    destruct (IH (normalize_endpoint endpoint) this' sent' Hc') as [Hnone Hle].
    split; [exact Hnone | lia].
Qed.

End LoginsOnly.

(** C2 on the code.  Against a controller that accepts every login and
    answers 401 or 403 to every other request, a call of [apiRequest]
    by a client with a base URL and a key has not ended after any
    number of activations, and has logged in at least once in each:
    every activation ends by resetting the session, logging in again
    and calling [apiRequest] anew. *)
Theorem apiRequest_retries_without_bound :
  forall (w : controller) (this : monitor) (endpoint : jsstring) (sent : list request)
         (fuel : nat),
    accepts_logins_only w -> configured this ->
    fst (apiRequest fuel w endpoint (this, sent)) = None /\
    (logins sent + fuel
     <= logins (snd (snd (apiRequest fuel w endpoint (this, sent)))))%nat.
Proof.
  intros w this endpoint sent fuel Hw Hc.
  exact (refused_requests_never_end w Hw fuel endpoint this sent Hc).
Qed.

(** A hundred activations against [login_only], and no answer. *)
Lemma apiRequest_retries_without_bound_witness :
  accepts_logins_only login_only /\ configured fresh_client /\
  fst (apiRequest 100 login_only devices_endpoint (fresh_client, [])) = None.
Proof.
  assert (accepts_logins_only login_only) as Hw
    by (split; intros sent [[|] u p k c t] H; try discriminate; cbn; eauto).
  assert (configured fresh_client) as Hc by (split; discriminate).
  split; [exact Hw|]. split; [exact Hc|].
  exact (proj1 (apiRequest_retries_without_bound login_only fresh_client devices_endpoint
                  [] 100 Hw Hc)).
Defined.

(** With the key revoked the one re-authentication fails and its error
    is surfaced, after one request and one login. *)
Lemma revoked_key_surfaces :
  apiRequest 1 revoked devices_endpoint (fresh_client, [])
  = (Some (Throw (Error (lit "UniFi authentication error: UniFi API key authentication failed"))),
     (set_useSessionAuth (Some true) proxy_client,
      [mkRequest true (lit "https://192.168.1.1/api/auth/login") (Some (lit "KEY"))
         None None None;
       mkRequest false (lit "https://192.168.1.1/proxy/network/api/s/default/stat/device")
         None (Some (lit "KEY")) None None])).
Proof. vm_compute. reflexivity. Qed.

(** *** What reaches the [catch] block of [apiRequest] *)

Lemma axios_throws (w : controller) (req : request) (s s' : st) (e : jserror) :
  axios w req getRequestOptions s = (Throw e, s') -> no_client_status e.
Proof.
  unfold axios. destruct (settle maxRedirects (w (snd s) req)) as [r | c msg].
  - cbn [validateStatus getRequestOptions].
    destruct (status r <? 500) eqn:E; [discriminate|].
    intros [= <- _]. unfold no_client_status. cbn [response_status].
    now apply Z.ltb_ge in E.
  - intros [= <- _]. exact I.
Qed.

Lemma mbind_throws {A B} (m : M A) (k : A -> M B) (s s' : st) (e : jserror) :
  mbind m k s = (Throw e, s') ->
  m s = (Throw e, s') \/ exists a s1, m s = (Ok a, s1) /\ k a s1 = (Throw e, s').
Proof.
  unfold mbind. destruct (m s) as [[a|e0] s1]; [right; eauto|].
  intros [= <- <-]. now left.
Qed.

Lemma probe_prefixes_resolves (w : controller) (base : jsstring) (prefixes : list jsstring) :
  forall s, exists s', probe_prefixes w base prefixes s = (Ok tt, s').
Proof.
  induction prefixes as [|p ps IH]; intros s; cbn [probe_prefixes].
  - unfold update. eauto.
  - unfold mbind at 1. unfold this_ at 1.
    unfold mbind at 1. unfold try_catch at 1. unfold mbind at 1.
    destruct (axios w _ _ s) as [[res|e] s1].
    + unfold ret at 1. destruct (probe_accepts res).
      * unfold update. eauto.
      * apply IH.
    + unfold ret at 1. apply IH.
Qed.

Lemma authenticate_throws (w : controller) (s s' : st) (e : jserror) :
  authenticate w s = (Throw e, s') -> response_status e = None.
Proof.
  unfold authenticate. unfold mbind at 1. unfold this_ at 1.
  destruct (baseUrl (fst s)); [now intros [= <- _]|].
  destruct (apiKey (fst s)); [now intros [= <- _]|].
  unfold try_catch at 1.
  match goal with |- context [match ?m s with _ => _ end] => destruct (m s) as [[b|e0] s1] end.
  - discriminate.
  - destruct (err_is_refused e0); [now intros [= <- _]|].
    destruct (err_is_401_403 e0); now intros [= <- _].
Qed.

Lemma doRequest_throws (w : controller) (endpoint : jsstring) (useSession : bool)
  (s s' : st) (e : jserror) :
  doRequest w endpoint useSession s = (Throw e, s') -> no_client_status e.
Proof.
  destruct s as [this sent]. rewrite doRequest_run. apply axios_throws.
Qed.

Lemma authenticate_no_client_status (w : controller) (s s' : st) (e : jserror) :
  authenticate w s = (Throw e, s') -> no_client_status e.
Proof.
  intros H. apply authenticate_throws in H. unfold no_client_status. now rewrite H.
Qed.

(** No error that [apiRequest]'s [try] block throws carries a response
    of status 401, 403 or 404. *)
Lemma apiRequest_try_throws (w : controller) (endpoint : jsstring) (s s' : st)
  (e : jserror) :
  apiRequest_try w endpoint s = (Throw e, s') -> no_client_status e.
Proof.
  unfold apiRequest_try. intros H.
  apply mbind_throws in H as [H | [this [s0 [Hthis H]]]]; [discriminate|].
  apply mbind_throws in H as [H | [response [s1 [Hresp H]]]].
  - destruct (useSessionAuth this) as [[|]|].
    + apply mbind_throws in H as [H | [u [s1 [_ H]]]].
      * destruct (nonempty (cookie this)); [discriminate|].
        apply mbind_throws in H as [H | [b [s1 [_ H]]]]; [|discriminate].
        eapply authenticate_no_client_status; eauto.
      * eapply doRequest_throws; eauto.
    + apply mbind_throws in H as [H | [r [s1 [_ H]]]];
        [eapply doRequest_throws; eauto|].
      destruct (is_401_403 (status r)); [|discriminate].
      apply mbind_throws in H as [H | [u [s2 [_ H]]]]; [discriminate|].
      apply mbind_throws in H as [H | [b [s3 [_ H]]]];
        [eapply authenticate_no_client_status; eauto | eapply doRequest_throws; eauto].
    + apply mbind_throws in H as [H | [r [s1 [_ H]]]];
        [eapply doRequest_throws; eauto|].
      destruct (is_401_403 (status r)); [|discriminate].
      apply mbind_throws in H as [H | [u [s2 [_ H]]]]; [discriminate|].
      apply mbind_throws in H as [H | [b [s3 [_ H]]]];
        [eapply authenticate_no_client_status; eauto | eapply doRequest_throws; eauto].
  - destruct (is_401_403 (status response)); [|discriminate].
    apply mbind_throws in H as [H | [u [s2 [_ H]]]]; [discriminate|].
    apply mbind_throws in H as [H | [b [s3 [_ H]]]]; [|discriminate].
    eapply authenticate_no_client_status; eauto.
Qed.

(** Hence the [catch] block never flips the prefix and never answers
    "authentication failed": it rethrows, or reports a refused
    connection. *)
Lemma apiRequest_catch_rethrows (w : controller) (endpoint : jsstring) (s s' : st)
  (e : jserror) :
  apiRequest_try w endpoint s = (Throw e, s') ->
  apiRequest_catch e s' = (Throw e, s') \/
  apiRequest_catch e s'
  = (Throw (Error (lit "Cannot connect to UniFi controller at " ++ baseUrl (fst s'))), s').
Proof.
  intros H. apply apiRequest_try_throws in H. unfold no_client_status in H.
  unfold apiRequest_catch. unfold mbind, this_.
  destruct (err_is_refused e); [now right|].
  unfold err_is_401_403, is_401_403.
  destruct (response_status e) as [st|]; [|now left].
  replace (st =? 401) with false by (symmetry; apply Z.eqb_neq; lia).
  replace (st =? 403) with false by (symmetry; apply Z.eqb_neq; lia).
  cbn [orb].
  destruct st as [|p|p]; try lia.
  destruct (Pos.eq_dec p 404) as [-> | Hp]; [lia|].
  left.
  repeat (destruct p as [p|p|]; try reflexivity; try lia).
Qed.

(** C5 on the code.  [validateStatus] lets every status below 500
    resolve, so a 404 is answered like any response, with its unwrapped
    body, after the one request and with the prefix unchanged; and no
    error that reaches the [catch] block carries the status 404, so the
    flip to the other prefix that is written there is never made. *)
Theorem not_found_is_not_retried :
  (forall fuel w endpoint this prefix sent r,
     useSessionAuth this <> Some true ->
     apiPrefix this = Some prefix ->
     w sent (request_of this (normalize_endpoint endpoint) false) = Responded r ->
     status r = 404 ->
     apiRequest (S fuel) w endpoint (this, sent)
     = (Some (Ok (unwrap (data r))),
        (this, request_of this (normalize_endpoint endpoint) false :: sent))) /\
  (forall w endpoint s s' e,
     apiRequest_try w endpoint s = (Throw e, s') ->
     response_status e <> Some 404 /\
     (apiRequest_catch e s' = (Throw e, s') \/
      apiRequest_catch e s'
      = (Throw (Error (lit "Cannot connect to UniFi controller at " ++ baseUrl (fst s'))),
         s'))).
Proof.
  split.
  - apply not_found_resolves.
  - intros w endpoint s s' e H. split.
    + apply apiRequest_try_throws in H. unfold no_client_status in H.
      intros E. rewrite E in H. lia.
    + eapply apiRequest_catch_rethrows; eauto.
Qed.

Lemma not_found_is_not_retried_witness :
  apiRequest 3 not_found devices_endpoint (proxy_client, [])
  = (Some (Ok (JArr [JObj [("error"%string, JStr (lit "Not Found"))]])),
     (proxy_client,
      [mkRequest false (lit "https://192.168.1.1/proxy/network/api/s/default/stat/device")
         None (Some (lit "KEY")) None None])).
Proof.
  rewrite (proj1 not_found_is_not_retried 2%nat not_found devices_endpoint proxy_client
             proxy_network []
             (mkResponse 404 None None
                (Some (JObj [("error"%string, JStr (lit "Not Found"))])))
             ltac:(discriminate) eq_refl eq_refl eq_refl).
  reflexivity.
Defined.

(** ** Surfacing and swallowing of errors *)

Lemma first_events_unreachable (api : jsstring -> result json) (limit : nat)
  (endpoints : list jsstring) :
  unreachable api -> first_events api limit endpoints = [].
Proof.
  intros H. induction endpoints as [|ep eps IH]; simpl; [reflexivity|].
  destruct (H ep) as [e ->]. exact IH.
Qed.

(** C4 on the code.  With every request to a controller failing,
    [getDevices] and [getClients] reject with the failure, and the
    supplementary fetchers answer empty results; but [getSystemInfo]
    and [getHealthMetrics] catch the failure of each request they make
    and resolve, with an empty system and all-zero metrics, so that
    [testConnection] reports a connection and the aggregator records
    the controller as a success without devices. *)
Theorem unreachable_controller_is_a_success :
  forall (site : jsstring) (api_of : controller_config -> jsstring -> result json)
         (connection_events_of : list json -> result (list json))
         (cfg : controller_config),
    unreachable (api_of cfg) ->
    (exists e, getDevices site (api_of cfg)
               = Throw (Error (lit "Failed to get UniFi devices: " ++ message e))) /\
    (exists e, getClients site (api_of cfg)
               = Throw (Error (lit "Failed to get UniFi clients: " ++ message e))) /\
    getNetworks site (api_of cfg) = Ok [] /\
    getWlans site (api_of cfg) = Ok [] /\
    getAlarms site (api_of cfg) 30 = Ok [] /\
    getPortProfiles site (api_of cfg) = Ok [] /\
    getSiteHealth site (api_of cfg) = Ok (JObj []) /\
    getPortForwards site (api_of cfg) = Ok [] /\
    getRouting site (api_of cfg) = Ok [] /\
    getIntrusionEvents site (api_of cfg) 50 = Ok [] /\
    getSiteEvents site (api_of cfg) connection_events_of 80 = Ok (mkSiteEvents [] []) /\
    getSystemInfo (api_of cfg) = Ok (mkSystemInfo (JObj []) (JArr [])) /\
    UniFiMonitor.getHealthMetrics site (api_of cfg) = Ok empty_metrics /\
    fst (testConnection (api_of cfg)) = true /\
    fetch_controller api_of connection_events_of cfg
    = mkController (cfg_id cfg) (display_name cfg) true None (Some empty_metrics)
        [] [] [] [] [] [] (JObj []) [] [] [].
Proof.
  intros site api_of ce cfg H.
  assert (forall path s, list_or_empty s (api_of cfg) path = Ok []) as Hlist.
  { intros path s. unfold list_or_empty.
    destruct (H (site_endpoint s path)) as [e ->]. reflexivity. }
  assert (forall s, getAlarms s (api_of cfg) 30 = Ok []) as Halarms.
  { intros s. unfold getAlarms.
    destruct (H (site_endpoint s "/stat/alarm")) as [e ->]. reflexivity. }
  assert (forall s, getSiteHealth s (api_of cfg) = Ok (JObj [])) as Hhealth.
  { intros s. unfold getSiteHealth.
    destruct (H (site_endpoint s "/stat/health")) as [e ->]. reflexivity. }
  assert (forall s, getIntrusionEvents s (api_of cfg) 50 = Ok []) as Hips.
  { intros s. unfold getIntrusionEvents. now rewrite first_events_unreachable. }
  assert (forall s, getSiteEvents s (api_of cfg) ce 80 = Ok (mkSiteEvents [] [])) as Hev.
  { intros s. unfold getSiteEvents.
    destruct (H (site_endpoint s "/stat/event")) as [e ->]. reflexivity. }
  assert (getSystemInfo (api_of cfg) = Ok (mkSystemInfo (JObj []) (JArr []))) as Hsys.
  { unfold getSystemInfo.
    destruct (H (lit "/api/self")) as [e1 ->].
    destruct (H (lit "/api/sites")) as [e2 ->]. reflexivity. }
  assert (forall s, exists e, getDevices s (api_of cfg)
            = Throw (Error (lit "Failed to get UniFi devices: " ++ message e))) as Hdev.
  { intros s. unfold getDevices.
    destruct (H (site_endpoint s "/stat/device")) as [e ->]. now exists e. }
  assert (forall s, exists e, getClients s (api_of cfg)
            = Throw (Error (lit "Failed to get UniFi clients: " ++ message e))) as Hcl.
  { intros s. unfold getClients.
    destruct (H (site_endpoint s "/stat/sta")) as [e ->]. now exists e. }
  assert (forall s, UniFiMonitor.getHealthMetrics s (api_of cfg) = Ok empty_metrics) as Hm.
  { intros s. unfold UniFiMonitor.getHealthMetrics.
    destruct (Hdev s) as [e1 ->]. destruct (Hcl s) as [e2 ->].
    cbn [catch_default filter_r bind]. rewrite Hsys. reflexivity. }
  repeat match goal with |- _ /\ _ => split end;
    auto; try apply Hlist; try (unfold testConnection; now rewrite Hsys).
  unfold fetch_controller. cbv zeta.
  rewrite Hm, Hev, Halarms, Hhealth, Hips.
  unfold getNetworks, getWlans, getPortProfiles, getPortForwards, getRouting.
  rewrite !Hlist. reflexivity.
Qed.

Lemma refusing_is_refused (endpoint : jsstring) (fuel : nat) :
  fst (apiRequest (S fuel) refusing endpoint (fresh_client, [])) = Some (refused endpoint).
Proof.
  cbn [apiRequest]. unfold try_catch, apiRequest_try.
  unfold mbind at 1. unfold this_ at 1. cbn [fst snd].
  change (useSessionAuth fresh_client) with (@None bool). cbv iota.
  unfold mbind at 1. unfold mbind at 1. rewrite doRequest_run.
  unfold axios. cbn [refusing fst snd].
  reflexivity.
Qed.

Lemma unreachable_controller_is_a_success_witness :
  fst (testConnection refused) = true /\
  success (fetch_controller (fun _ => refused) no_connection_events main_site) = true /\
  (exists e, getDevices (lit "default") refused = Throw e).
Proof.
  pose proof (unreachable_controller_is_a_success (lit "default") (fun _ => refused)
                no_connection_events main_site
                (fun endpoint => ex_intro _ _ eq_refl)) as H.
  split; [|split].
  - apply H.
  - destruct H as (_ & _ & _ & _ & _ & _ & _ & _ & _ & _ & _ & _ & _ & _ & ->).
    reflexivity.
  - destruct H as [[e He] _]. eexists. exact He.
Defined.

(** When [getHealthMetrics] does reject, the aggregator records the
    controller as a failure with the message of the error. *)
Lemma metrics_failure_is_flagged (api_of : controller_config -> jsstring -> result json)
  (connection_events_of : list json -> result (list json)) (cfg : controller_config)
  (e : jserror) :
  UniFiMonitor.getHealthMetrics (site_of cfg) (api_of cfg) = Throw e ->
  fetch_controller api_of connection_events_of cfg
  = mkController (cfg_id cfg) (display_name cfg) false (Some (message e)) None
      [] [] [] [] [] [] (JObj []) [] [] [].
Proof.
  intros H. unfold fetch_controller. cbv zeta. rewrite H. reflexivity.
Qed.

(** A device list that holds a [null] makes the health metrics reject,
    and the controller a failure. *)
Lemma null_device_is_a_failure :
  Aggregator.success
    (fetch_controller (fun _ => serving [plain_ap; JNull] []) no_connection_events main_site)
  = false /\
  Aggregator.error
    (fetch_controller (fun _ => serving [plain_ap; JNull] []) no_connection_events main_site)
  = Some (lit "Failed to get UniFi health metrics: Cannot read properties of null (reading 'state')").
Proof. split; vm_compute; reflexivity. Qed.

(** ** The invalidate-cache hook *)

(** C9 on the code.  [utils/monitoring.js] exports no
    [invalidateMonitoringCache], so the server's binding of that name
    is [undefined]; a [PUT /api/config] whose body has a [monitoring]
    part saves the configuration and then fails on the call, answering
    500, and [POST /api/config/reload] fails likewise. *)
Theorem invalidate_hook_is_not_exported :
  forall (run_export : string -> result unit)
         (updateConfig : list (string * json) -> result json) (reloadConfig : result json)
         (safeConfig : json -> json) (updates : list (string * json)) (saved : json),
    updateConfig updates = Ok saved ->
    reloadConfig = Ok saved ->
    truthy (assoc "monitoring" updates) = true ->
    invalidateMonitoringCache = None /\
    put_config run_export updateConfig (Ok tt) safeConfig updates
    = mkHttp 500 (JObj [("error"%string,
                         JStr (lit "invalidateMonitoringCache is not a function"))]) /\
    post_reload run_export reloadConfig (Ok tt) safeConfig
    = mkHttp 500 (JObj [("error"%string,
                         JStr (lit "invalidateMonitoringCache is not a function"))]).
Proof.
  intros run_export updateConfig reloadConfig safeConfig updates saved Hu Hr Hm.
  split; [reflexivity|]. split.
  - unfold put_config. rewrite Hu, Hm. cbn [bind].
    destruct (truthy _ || truthy _); reflexivity.
  - unfold post_reload. rewrite Hr. reflexivity.
Qed.

Lemma invalidate_hook_is_not_exported_witness :
  http_status
    (put_config (fun _ => Ok tt) (fun updates => Ok (JObj updates)) (Ok tt) (fun c => c)
       monitoring_update) = 500.
Proof.
  rewrite (proj1 (proj2 (invalidate_hook_is_not_exported (fun _ => Ok tt)
                           (fun updates => Ok (JObj updates)) (Ok (JObj monitoring_update))
                           (fun c => c) monitoring_update (JObj monitoring_update)
                           eq_refl eq_refl eq_refl))).
  reflexivity.
Defined.

(** ** Diagnostics on request *)

(** The detectors on sample messages. *)
Example detectPingRequest_with_count :
  detectPingRequest (lit "please Ping 10.0.0.1   3 times")
  = Some (mkPingReq (lit "10.0.0.1") 3).
Proof. vm_compute. reflexivity. Qed.

Example detectPingRequest_needs_a_word_boundary :
  detectPingRequest (lit "shipping 10.0.0.1") = None.
Proof. vm_compute. reflexivity. Qed.

Example detectTracerouteRequest_trace_route_to :
  detectTracerouteRequest (lit "trace  route to example.com 9")
  = Some (mkTraceReq (lit "example.com") 9).
Proof. vm_compute. reflexivity. Qed.

Example detectPortTestRequest_second_pattern :
  detectPortTestRequest (lit "is example.com port 443 open?")
  = Some (mkPortReq (lit "example.com") 443).
Proof. vm_compute. reflexivity. Qed.

Example detectPortTestRequest_port_out_of_range :
  detectPortTestRequest (lit "test port 70000 on example.com") = None.
Proof. vm_compute. reflexivity. Qed.

Example resolveHostFromConversation_prefers_addresses :
  resolveHostFromConversation (lit "gw.example.com is at 10.0.0.1, dns.example.com too")
  = Some (lit "10.0.0.1").
Proof. vm_compute. reflexivity. Qed.

Example resolveHostFromConversation_last_hostname :
  resolveHostFromConversation (lit "compare gw.example.com with dns.example.com.")
  = Some (lit "dns.example.com").
Proof. vm_compute. reflexivity. Qed.

(** The request pattern of the ping takes the word after "ping" for the
    host, so a pronoun is pinged as a host name and the conversation is
    not consulted. *)
Example ping_it_pings_it (conversationHistory : list json) :
  pingReq (lit "ping it") conversationHistory = Some (mkPingReq (lit "it") 4).
Proof. reflexivity. Qed.

Lemma command_text_report (w : os) (cmd preamble fallback : jsstring) :
  fallback <> [] ->
  command_report w preamble fallback
    (preamble ++ command_text (fst (run_cmd w cmd fallback)))
    (snd (run_cmd w cmd fallback)).
Proof.
  intros Hf.
  exists (command_text (fst (run_cmd w cmd fallback))). split; [reflexivity|].
  unfold run_cmd. destruct (execAsync w cmd) as [stdout stderr | msg stdout stderr] eqn:E;
    cbn [fst snd]; rewrite E; unfold command_text; cbn [output Diagnostics.error].
  - cbn [or_str]. rewrite app_nil_r. now destruct (stdout ++ stderr).
  - destruct (or_str msg fallback) eqn:Em; [|reflexivity].
    destruct msg; cbn [or_str] in Em; [contradiction | discriminate].
Qed.

Lemma runPing_report (w : os) (host : jsstring) (count : Z) (preamble : jsstring) :
  (snd (runPing w (Some (JStr host)) count) = [] \/
   exists c, 1 <= c <= MAX_PING_COUNT /\
             snd (runPing w (Some (JStr host)) count) = [Exec (ping_cmd w c (trim host))]) /\
  command_report w preamble (lit "Ping failed")
    (preamble ++ command_text (fst (runPing w (Some (JStr host)) count)))
    (snd (runPing w (Some (JStr host)) count)).
Proof.
  unfold runPing. destruct (sanitizeHost (Some (JStr host))) as [target|] eqn:E.
  - apply sanitizeHost_accepts in E as [-> _]. cbv zeta. split.
    + right. rewrite run_cmd_effects. eexists. split; [|reflexivity].
      apply clamp_range. unfold MAX_PING_COUNT. lia.
    + apply command_text_report. discriminate.
  - split; [now left|]. eexists. split; reflexivity.
Qed.

Lemma runTraceroute_report (w : os) (host : jsstring) (maxHops : Z) (preamble : jsstring) :
  (snd (runTraceroute w (Some (JStr host)) maxHops) = [] \/
   exists h, 1 <= h <= MAX_TRACEROUTE_HOPS /\
             snd (runTraceroute w (Some (JStr host)) maxHops)
             = [Exec (traceroute_cmd w h (trim host))]) /\
  command_report w preamble (lit "Traceroute failed")
    (preamble ++ command_text (fst (runTraceroute w (Some (JStr host)) maxHops)))
    (snd (runTraceroute w (Some (JStr host)) maxHops)).
Proof.
  unfold runTraceroute. destruct (sanitizeHost (Some (JStr host))) as [target|] eqn:E.
  - apply sanitizeHost_accepts in E as [-> _]. cbv zeta. split.
    + right. rewrite run_cmd_effects. eexists. split; [|reflexivity].
      apply clamp_range. unfold MAX_TRACEROUTE_HOPS. lia.
    + apply command_text_report. discriminate.
  - split; [now left|]. eexists. split; reflexivity.
Qed.

Lemma port_text_shape (host : jsstring) (p : Z) (sentence : jsstring) :
  port_preamble host p ++ sentence ++ [10%N]
  = [10; 10]%N ++ lit "Port test result (from this server to " ++ host ++ lit ":" ++
    num_to_string p ++ lit "); use this to answer the user:" ++ [10%N] ++
    sentence ++ [10%N].
Proof. unfold port_preamble. now rewrite <- !app_assoc. Qed.

Lemma testPort_report (w : os) (r : port_request) :
  (snd (port_block w (Some r)) = [] \/
   exists p, parseInt_number (pr_port r) = Some p /\ 1 <= p <= 65535 /\
             snd (port_block w (Some r)) = [Connect p (trim (pr_host r))]) /\
  port_report w (pr_host r) (pr_port r) (fst (port_block w (Some r)))
    (snd (port_block w (Some r))).
Proof.
  unfold port_block, testPort.
  destruct (sanitizeHost (Some (JStr (pr_host r)))) as [target|] eqn:E.
  - apply sanitizeHost_accepts in E as [-> _]. cbv zeta.
    destruct (parseInt_number (pr_port r)) as [p|] eqn:Ep; cbn [is_some_Z negb orb].
    + destruct ((p <? 1) || (65535 <? p))%bool eqn:Hp.
      * cbn [fst snd open pmessage]. split; [now left|].
        eexists. split; [apply port_text_shape|].
        eexists. split; [now right | reflexivity].
      * apply orb_false_iff in Hp as [H1 H2]. apply Z.ltb_ge in H1, H2.
        destruct (socket_connect w p (trim (pr_host r))) as [|msg|] eqn:Ec;
          cbn [fst snd open pmessage];
          (split; [right; exists p; repeat split; lia|]);
          (eexists; split; [apply port_text_shape|]); now rewrite Ec.
    + cbn [fst snd open pmessage]. split; [now left|].
      eexists. split; [apply port_text_shape|].
      eexists. split; [now right | reflexivity].
  - cbn [fst snd open pmessage]. split; [now left|].
    eexists. split; [apply port_text_shape|].
    eexists. split; [now left | reflexivity].
Qed.

Lemma block_effects (w : os) (query : value) (conversationHistory : list json) :
  let msg := message_of query in
  getMonitoringContext_diagnostics w query conversationHistory
  = (fst (ping_block w (pingReq msg conversationHistory)) ++
     fst (traceroute_block w (traceReq msg conversationHistory)) ++
     fst (port_block w (portReq msg conversationHistory)),
     snd (ping_block w (pingReq msg conversationHistory)) ++
     snd (traceroute_block w (traceReq msg conversationHistory)) ++
     snd (port_block w (portReq msg conversationHistory))).
Proof.
  unfold getMonitoringContext_diagnostics. cbv zeta.
  destruct (ping_block w _), (traceroute_block w _), (port_block w _). reflexivity.
Qed.



(** ** Caps of the list sections *)

Lemma map_numbered_length {A B} (f : Z -> A -> B) (i : Z) (xs : list A) :
  length (map_numbered f i xs) = length xs.
Proof.
  revert i; induction xs as [|x xs IH]; intros i; simpl; [reflexivity|].
  now rewrite IH.
Qed.

Lemma cloud_lines_length (summarize : json -> jsstring) (arr : list json) (maxItems : nat) :
  length (cloud_lines summarize arr maxItems) = Nat.min maxItems (length arr).
Proof.
  unfold cloud_lines. rewrite map_numbered_length. apply length_firstn.
Qed.

Lemma each_line_length (line : json -> result jsstring) (xs : list json)
  (ls : list jsstring) :
  each_line line xs = Ok ls -> length ls = length xs.
Proof.
  revert ls; induction xs as [|x xs IH]; intros ls H; simpl in H.
  - now injection H as <-.
  - apply bind_ok in H as [l [_ H]]. apply bind_ok in H as [ls' [Hls H]].
    injection H as <-. simpl. f_equal. auto.
Qed.

Lemma each_line_total (line : json -> result jsstring) (xs : list json) :
  (forall x, In x xs -> exists l, line x = Ok l) ->
  exists ls, each_line line xs = Ok ls.
Proof.
  induction xs as [|x xs IH]; intros H; simpl; [eauto|].
  destruct (H x (or_introl eq_refl)) as [l ->].
  destruct IH as [ls ->]; [intros y Hy; apply H; now right|].
  simpl. eauto.
Qed.

Lemma each_controller_length (line : json -> result jsstring)
  (items : controller_result -> list json) (cs : list controller_result)
  (ls : list jsstring) :
  each_controller line items cs = Ok ls -> length ls = lines_for items cs.
Proof.
  revert ls; induction cs as [|c cs IH]; intros ls H; simpl in H.
  - now injection H as <-.
  - apply bind_ok in H as [l1 [H1 H]]. apply bind_ok in H as [l2 [H2 H]].
    injection H as <-. unfold controller_lines in H1.
    apply bind_ok in H1 as [items_lines [Hi H1]]. injection H1 as <-.
    rewrite length_app. cbn [length lines_for map list_sum].
    rewrite (each_line_length _ _ _ Hi). rewrite (IH _ H2). reflexivity.
Qed.

Lemma each_controller_total (line : json -> result jsstring)
  (items : controller_result -> list json) (cs : list controller_result) :
  (forall c x, In c cs -> In x (items c) -> exists l, line x = Ok l) ->
  exists ls, each_controller line items cs = Ok ls.
Proof.
  induction cs as [|c cs IH]; intros H; simpl; [eauto|].
  unfold controller_lines.
  destruct (each_line_total line (items c)) as [l1 ->];
    [intros x Hx; apply (H c x); [now left | assumption]|].
  destruct IH as [l2 ->]; [intros c' x Hc Hx; apply (H c' x); [now right | assumption]|].
  simpl. eauto.
Qed.

Lemma list_section_length (heading : jsstring) (line : json -> result jsstring)
  (items : controller_result -> list json) (cs : list controller_result)
  (ls : list jsstring) :
  list_section heading line items cs = Ok ls ->
  length ls = match shown_in items cs with
              | [] => O
              | shown => S (lines_for items shown)
              end.
Proof.
  unfold list_section, shown_in.
  destruct (filter _ cs) as [|c shown]; [now intros [= <-]|].
  intros H. apply bind_ok in H as [l [Hl H]]. injection H as <-.
  simpl. f_equal. apply (each_controller_length _ _ _ _ Hl).
Qed.

Lemma pick_total (item : json) (keys : list string) (dflt : jsstring) :
  item <> JNull -> exists s, pick item keys dflt = Ok s.
Proof.
  intros H. unfold pick. destruct keys as [|k keys]; [eauto|].
  rewrite get_not_null by assumption. simpl. eauto.
Qed.

Lemma network_line_total (n : json) : n <> JNull -> exists l, network_line n = Ok l.
Proof.
  intros H. unfold network_line.
  destruct (pick_total n ["name"; "display_name"]%string em_dash H) as [s1 ->].
  destruct (pick_total n ["purpose"; "type"]%string em_dash H) as [s2 ->].
  destruct (pick_total n ["vlan"; "vlan_id"]%string em_dash H) as [s3 ->].
  destruct (pick_total n ["ip_subnet"; "subnet"; "cidr"]%string em_dash H) as [s4 ->].
  simpl. eauto.
Qed.

Lemma map_numbered_nth {A B} (f : Z -> A -> B) (k : Z) (xs : list A) (i : nat)
  (da : A) (db : B) :
  (i < length xs)%nat ->
  nth i (map_numbered f k xs) db = f (k + Z.of_nat (S i))%Z (nth i xs da).
Proof.
  revert k i. induction xs as [|x xs IH]; intros k i Hi; cbn [length] in Hi; [lia|].
  cbn [map_numbered]. destruct i as [|i]; cbn [nth].
  - f_equal.
  - rewrite IH by lia. f_equal. lia.
Qed.

Lemma nth_firstn_lt {A} (n i : nat) (xs : list A) (d : A) :
  (i < n)%nat -> nth i (firstn n xs) d = nth i xs d.
Proof.
  revert i xs. induction n as [|n IH]; intros i xs Hi; [lia|].
  destruct xs as [|x xs]; [reflexivity|]. cbn [firstn].
  destruct i as [|i]; cbn [nth]; [reflexivity|]. apply IH. lia.
Qed.

(** What [formatCloudList] returns at a call site. *)
Lemma cloud_section_listing (summarize : json -> jsstring) (arr : value)
  (label : jsstring) (cap : nat) :
  cloud_listing summarize label cap arr (cloud_section summarize arr label cap).
Proof.
  unfold cloud_listing, cloud_section.
  destruct arr as [[| | | |[|x xs]|]|]; try reflexivity.
  exists (cloud_lines summarize (x :: xs) cap).
  split; [apply cloud_lines_length|]. split.
  - intros i Hi. rewrite cloud_lines_length in Hi. unfold cloud_lines.
    rewrite (map_numbered_nth _ 0%Z _ i JNull) by (rewrite length_firstn; exact Hi).
    rewrite nth_firstn_lt by lia. reflexivity.
  - unfold formatCloudList, cloud_header, more_marker, en_dash, ellipsis.
    rewrite <- !app_assoc.
    destruct (Nat.ltb cap (length (x :: xs))) eqn:E; [|reflexivity].
    apply Nat.ltb_lt in E. rewrite <- Nat2Z.inj_sub by lia. reflexivity.
Qed.

Lemma each_sliced_length (heading : controller_result -> list json -> jsstring)
  (line : json -> result jsstring) (items : controller_result -> list json) (cap : nat)
  (cs : list controller_result) (ls : list jsstring) :
  each_sliced heading line items cap cs = Ok ls ->
  length ls = sliced_lines_for cap items cs.
Proof.
  revert ls; induction cs as [|c cs IH]; intros ls H; cbn [each_sliced] in H.
  - now injection H as <-.
  - cbv zeta in H. apply bind_ok in H as [l1 [H1 H]]. apply bind_ok in H as [l2 [H2 H]].
    injection H as <-. unfold sliced_lines_for. cbn [map list_sum].
    cbn [app length]. rewrite length_app, (each_line_length _ _ _ H1), length_firstn.
    rewrite (IH _ H2). reflexivity.
Qed.

Lemma sliced_section_length (title : jsstring) (otherwise : option jsstring)
  (shows : controller_result -> bool)
  (heading : controller_result -> list json -> jsstring)
  (line : json -> result jsstring) (items : controller_result -> list json) (cap : nat)
  (cs : list controller_result) (ls : list jsstring) :
  sliced_section title otherwise shows heading line items cap cs = Ok ls ->
  length ls = match filter shows cs with
              | [] => match otherwise with
                      | Some _ => if existsb Aggregator.success cs then 1%nat else O
                      | None => O
                      end
              | shown => S (sliced_lines_for cap items shown)
              end.
Proof.
  unfold sliced_section.
  destruct (filter shows cs) as [|c shown].
  - destruct otherwise; intros [= <-]; [|reflexivity].
    now destruct (existsb Aggregator.success cs).
  - intros H. apply bind_ok in H as [l [Hl H]]. injection H as <-.
    cbn [length]. f_equal. apply (each_sliced_length _ _ _ _ _ _ Hl).
Qed.

Lemma each_sliced_agrees (heading : controller_result -> list json -> jsstring)
  (line : json -> result jsstring) (items : controller_result -> list json) (cap : nat)
  (cs cs' : list controller_result) :
  Forall2 (fun c c' => (forall l, heading c l = heading c' l) /\
                       firstn cap (items c) = firstn cap (items c')) cs cs' ->
  each_sliced heading line items cap cs = each_sliced heading line items cap cs'.
Proof.
  induction 1 as [|c c' cs cs' [Hh Hi] _ IH]; [reflexivity|].
  cbn [each_sliced]. cbv zeta. rewrite Hi, IH.
  destruct (each_line line (firstn cap (items c'))); [|reflexivity].
  cbn [bind]. destruct (each_sliced heading line items cap cs'); [|reflexivity].
  cbn [bind]. now rewrite Hh.
Qed.

Lemma filter_Forall2 {A} (R : A -> A -> Prop) (f : A -> bool) (xs ys : list A) :
  Forall2 (fun x y => f x = f y /\ R x y) xs ys ->
  Forall2 R (filter f xs) (filter f ys).
Proof.
  induction 1 as [|x y xs ys [Hf HR] _ IH]; [constructor|].
  cbn [filter]. rewrite Hf. destruct (f y); [constructor|]; assumption.
Qed.

Lemma existsb_Forall2 {A} (f : A -> bool) (xs ys : list A) :
  Forall2 (fun x y => f x = f y) xs ys -> existsb f xs = existsb f ys.
Proof.
  induction 1 as [|x y xs ys Hf _ IH]; [reflexivity|]. cbn [existsb]. now rewrite Hf, IH.
Qed.

(** A section that shows a slice does not depend on the items beyond
    the slice. *)
Lemma sliced_section_agrees (title : jsstring) (otherwise : option jsstring)
  (shows : controller_result -> bool)
  (heading : controller_result -> list json -> jsstring)
  (line : json -> result jsstring) (items : controller_result -> list json) (cap : nat)
  (cs cs' : list controller_result) :
  Forall2 (fun c c' => shows c = shows c' /\
                       Aggregator.success c = Aggregator.success c' /\
                       (forall l, heading c l = heading c' l) /\
                       firstn cap (items c) = firstn cap (items c')) cs cs' ->
  sliced_section title otherwise shows heading line items cap cs
  = sliced_section title otherwise shows heading line items cap cs'.
Proof.
  intros H. unfold sliced_section.
  assert (Forall2 (fun c c' => (forall l, heading c l = heading c' l) /\
                               firstn cap (items c) = firstn cap (items c'))
            (filter shows cs) (filter shows cs')) as Hf
    by (apply filter_Forall2; eapply Forall2_impl; [|exact H]; cbv beta; tauto).
  assert (existsb Aggregator.success cs = existsb Aggregator.success cs') as ->
    by (apply existsb_Forall2; eapply Forall2_impl; [|exact H]; cbv beta; tauto).
  pose proof (each_sliced_agrees heading line items cap _ _ Hf) as He.
  destruct Hf as [|c c' shown shown' _ _]; [reflexivity|].
  now rewrite He.
Qed.

Lemma has_some_firstn (cap : nat) (items : controller_result -> list json)
  (c c' : controller_result) :
  Aggregator.success c = Aggregator.success c' ->
  firstn (S cap) (items c) = firstn (S cap) (items c') ->
  has_some items c = has_some items c'.
Proof.
  unfold has_some. intros -> H.
  destruct (items c), (items c'); cbn [firstn] in H; try discriminate; reflexivity.
Qed.

Lemma agree_up_to_sliced (cap : nat) (items : controller_result -> list json)
  (heading : controller_result -> list json -> jsstring) (cs cs' : list controller_result) :
  (forall c c' l, name c = name c' -> heading c l = heading c' l) ->
  agree_up_to (S cap) items cs cs' ->
  Forall2 (fun c c' => has_some items c = has_some items c' /\
                       Aggregator.success c = Aggregator.success c' /\
                       (forall l, heading c l = heading c' l) /\
                       firstn (S cap) (items c) = firstn (S cap) (items c')) cs cs'.
Proof.
  intros Hh H. eapply Forall2_impl; [|exact H]. cbv beta.
  intros c c' (Hn & Hs & Hi).
  split; [now apply (has_some_firstn cap)|]. split; [exact Hs|].
  split; [intros l; now apply Hh | exact Hi].
Qed.

Lemma first_events_length (api : jsstring -> result json) (limit : nat)
  (endpoints : list jsstring) :
  (length (first_events api limit endpoints) <= limit)%nat.
Proof.
  induction endpoints as [|e es IH]; cbn [first_events]; [cbn; lia|].
  destruct (api e) as [raw|]; [|exact IH].
  destruct (normalize_events raw); [exact IH | apply firstn_le_length].
Qed.

(** The lists of a controller result that were cut where they were
    fetched. *)
Lemma fetched_lists_are_cut (api_of : controller_config -> jsstring -> result json)
  (ce : list json -> result (list json)) (cfg : controller_config) :
  (length (Aggregator.eventLog (fetch_controller api_of ce cfg)) <= 80)%nat /\
  (length (intrusionEvents (fetch_controller api_of ce cfg)) <= 50)%nat /\
  (length (alarms (fetch_controller api_of ce cfg)) <= 30)%nat.
Proof.
  unfold fetch_controller.
  destruct (UniFiMonitor.getHealthMetrics (site_of cfg) (api_of cfg)) as [m|e];
    cbn [bind]; [|cbn; lia].
  cbn [Aggregator.eventLog intrusionEvents alarms].
  split; [|split].
  - unfold getSiteEvents. cbn [catch_default].
    destruct (api_of cfg _) as [raw|]; cbn [bind catch_default]; [|cbn; lia].
    match goal with
    | |- context [bind (ce ?evs) _] => destruct (ce evs); cbn [bind catch_default]
    end; [apply firstn_le_length | cbn; lia].
  - unfold getIntrusionEvents. cbn [catch_default]. apply first_events_length.
  - unfold getAlarms. cbn [catch_default].
    destruct (api_of cfg _) as [raw|]; cbn [bind catch_default];
      [apply firstn_le_length | cbn; lia].
Qed.

(** C7, as the code has it.  Each of the eight cloud sections, rendered
    by [formatCloudList], has a heading, one numbered line for each of
    the first 30, 30, 20, 40, 30, 20, 20 and 20 items of its list and,
    when the list is longer, the line "... and N more" with the number
    of items left out.  The recent connections, the alarms, the routes
    and the subsystems of the site health of the local controllers are
    cut at 50, 20, 100 and 15 items for each controller, without a line
    that says so: the section is the same for any two lists that agree
    up to the cut.  The networks and the WLAN sections have a heading
    for each controller shown and one line for every item, without a
    cap.  The event log, the intrusion events and the alarms of a
    controller were cut at 80, 50 and 30 entries when they were
    fetched. *)
Theorem list_section_sizes :
  (forall summarize m,
     exists sites alerts health events nets ssids gateways traffic,
       cloud_sections summarize m
       = [sites; alerts; health; events; nets; ssids; gateways; traffic] /\
       cloud_listing summarize (lit "sites list") 30 (m_sitesList m) sites /\
       cloud_listing summarize (lit "alerts") 30 (cloudAlerts m) alerts /\
       cloud_listing summarize (lit "internet health / metrics") 20 (internetHealth m) health /\
       cloud_listing summarize (lit "events / activity") 40 (cloudEvents m) events /\
       cloud_listing summarize (lit "networks") 30 (cloudNetworks m) nets /\
       cloud_listing summarize (lit "WLANs / SSIDs") 20 (cloudWlans m) ssids /\
       cloud_listing summarize (lit "gateways") 20 (cloudGateways m) gateways /\
       cloud_listing summarize (lit "traffic / insights / performance") 20
         (trafficOrInsights m) traffic) /\
  (forall minsAgo cs,
     (forall ls, connections_section minsAgo cs = Ok ls ->
        length ls = match shown_in recentConnectionEvents cs with
                    | [] => if existsb Aggregator.success cs then 1%nat else O
                    | shown => S (sliced_lines_for 50 recentConnectionEvents shown)
                    end) /\
     (forall cs', agree_up_to 50 recentConnectionEvents cs cs' ->
        connections_section minsAgo cs = connections_section minsAgo cs')) /\
  (forall cs,
     (forall ls, alarms_section cs = Ok ls ->
        length ls = match shown_in alarms cs with
                    | [] => if existsb Aggregator.success cs then 1%nat else O
                    | shown => S (sliced_lines_for 20 alarms shown)
                    end) /\
     (forall cs', agree_up_to 20 alarms cs cs' -> alarms_section cs = alarms_section cs')) /\
  (forall cs,
     (forall ls, routes_section cs = Ok ls ->
        length ls = match shown_in routes cs with
                    | [] => if existsb Aggregator.success cs then 1%nat else O
                    | shown => S (sliced_lines_for 100 routes shown)
                    end) /\
     (forall cs', agree_up_to 100 routes cs cs' -> routes_section cs = routes_section cs')) /\
  (forall cs,
     (forall ls, health_section cs = Ok ls ->
        length ls = match filter health_shown cs with
                    | [] => O
                    | shown => S (sliced_lines_for 15 subsystems shown)
                    end) /\
     (forall cs', agree_on_health 15 cs cs' -> health_section cs = health_section cs')) /\
  (forall cs ls,
     networks_section cs = Ok ls ->
     length ls = match shown_in networks cs with
                 | [] => O
                 | shown => S (lines_for networks shown)
                 end) /\
  (forall cs ls,
     wlans_section cs = Ok ls ->
     length ls = match shown_in wlans cs with
                 | [] => O
                 | shown => S (lines_for wlans shown)
                 end) /\
  (forall api_of connection_events_of cfg,
     let c := fetch_controller api_of connection_events_of cfg in
     (length (Aggregator.eventLog c) <= 80)%nat /\
     (length (intrusionEvents c) <= 50)%nat /\
     (length (alarms c) <= 30)%nat).
Proof.
  split; [|split; [|split; [|split; [|split; [|split; [|split]]]]]].
  - intros summarize m. unfold cloud_sections.
    eexists _, _, _, _, _, _, _, _. split; [reflexivity|].
    repeat split; apply cloud_section_listing.
  - intros minsAgo cs. split.
    + intros ls H. exact (sliced_section_length _ _ _ _ _ _ _ _ _ H).
    + intros cs' H. apply sliced_section_agrees, agree_up_to_sliced; [|exact H].
      intros c c' l Hn. now rewrite Hn.
  - intros cs. split.
    + intros ls H. exact (sliced_section_length _ _ _ _ _ _ _ _ _ H).
    + intros cs' H. apply sliced_section_agrees, agree_up_to_sliced; [|exact H].
      intros c c' l Hn. now rewrite Hn.
  - intros cs. split.
    + intros ls H. exact (sliced_section_length _ _ _ _ _ _ _ _ _ H).
    + intros cs' H. apply sliced_section_agrees, agree_up_to_sliced; [|exact H].
      intros c c' l Hn. now rewrite Hn.
  - intros cs. split.
    + intros ls H. exact (sliced_section_length _ _ _ _ _ _ _ _ _ H).
    + intros cs' H. apply sliced_section_agrees.
      eapply Forall2_impl; [|exact H]. cbv beta.
      intros c c' (Hn & Hs & Hsh & Hst & Hi).
      split; [exact Hsh|]. split; [exact Hs|].
      split; [intros l; now rewrite Hn, Hst | exact Hi].
  - intros cs ls. apply list_section_length.
  - intros cs ls. apply list_section_length.
  - intros api_of ce cfg. apply fetched_lists_are_cut.
Qed.

Lemma networks_section_renders (n : nat) :
  exists ls, networks_section [with_networks (S n)] = Ok ls /\ length ls = S (S (S n)).
Proof.
  destruct (each_controller_total network_line networks [with_networks (S n)])
    as [body Hbody].
  { intros c x [<- | []] Hx. apply network_line_total.
    apply repeat_spec in Hx. subst x. discriminate. }
  assert (exists ls, networks_section [with_networks (S n)] = Ok ls) as [ls Hls].
  { unfold networks_section, list_section.
    change (filter _ [with_networks (S n)]) with [with_networks (S n)].
    cbv iota. rewrite Hbody. simpl. eauto. }
  exists ls. split; [exact Hls|].
  rewrite (list_section_length _ _ _ _ _ Hls).
  change (shown_in networks [with_networks (S n)]) with [with_networks (S n)].
  cbv iota. unfold lines_for. cbn [map list_sum networks with_networks].
  rewrite repeat_length. simpl. lia.
Qed.

(** Thirty-one cloud alerts are cut at thirty, with the line that says
    one more is left out; twenty-five alarms of a local controller give
    the section of the first twenty, a title, a heading and twenty
    lines; 251 networks of a local controller are all listed. *)
Lemma list_section_sizes_witness :
  (exists pre,
     nth 1 (cloud_sections (fun _ => lit "alert") (with_alerts 31)) []
     = pre ++ [10%N] ++ lit "  " ++ [8230%N] ++ lit " and 1 more" ++ [10%N]) /\
  alarms_section [with_alarms 25] = alarms_section [with_alarms 20] /\
  (exists ls, alarms_section [with_alarms 25] = Ok ls /\ length ls = 22%nat) /\
  (exists ls, networks_section [with_networks 251] = Ok ls /\ length ls = 253%nat).
Proof.
  split; [|split; [|split]].
  - destruct (proj1 list_section_sizes (fun _ => lit "alert") (with_alerts 31))
      as (t1 & t2 & t3 & t4 & t5 & t6 & t7 & t8 & Heq & _ & Hal & _).
    rewrite Heq. cbn [nth].
    destruct Hal as (lines & _ & _ & ->).
    exists ([10%N] ++ lit "UniFi Site Manager (cloud) " ++ [8211%N] ++ lit " " ++
            lit "alerts" ++ lit " (use for user questions about this data):" ++ [10%N] ++
            join [10%N] lines).
    rewrite <- !app_assoc. reflexivity.
  - apply (proj2 (proj1 (proj2 (proj2 list_section_sizes)) [with_alarms 25])).
    constructor; [|constructor]. repeat split; reflexivity.
  - destruct (alarms_section [with_alarms 25]) as [ls|e] eqn:E;
      [|vm_compute in E; discriminate].
    exists ls. split; [reflexivity|].
    rewrite (proj1 (proj1 (proj2 (proj2 list_section_sizes)) [with_alarms 25]) ls E).
    vm_compute. reflexivity.
  - destruct (networks_section_renders 250) as [ls [Hls _]].
    exists ls. split; [exact Hls|].
    rewrite (proj1 (proj2 (proj2 (proj2 (proj2 (proj2 list_section_sizes))))) _ _ Hls).
    vm_compute. reflexivity.
Defined.


(** C7 as stated fails: the networks section has no cap. *)
Lemma networks_section_has_no_cap :
  ~ exists cap : nat,
      forall cs ls, networks_section cs = Ok ls -> (length ls <= cap)%nat.
Proof.
  intros [cap H].
  destruct (networks_section_renders cap) as [ls [Hls Hlen]].
  specialize (H _ _ Hls). lia.
Qed.

(** * Further properties of the code *)

(** ** The matcher against the declarative reading *)

Lemma iterate_reach {R} (r : regex)
  (IH : forall st (k : mstate -> option R) x,
      rmatch r st k = Some x -> exists st', reach r st st' /\ k st' = Some x) :
  forall n st (k : mstate -> option R) x,
    iterate (rmatch r) k n st = Some x ->
    exists st', reach (Star r) st st' /\ k st' = Some x.
Proof.
  induction n as [|n IHn]; intros st k x H; cbn [iterate] in H.
  - exists st. split; [constructor | exact H].
  - destruct (rmatch r st _) as [y|] eqn:E.
    + injection H as ->.
      apply IH in E as [mid [Hr Hk]].
      destruct (Nat.ltb _ _); [|discriminate].
      apply IHn in Hk as [st' [Hs Hk]].
      exists st'. split; [eapply reach_star_step; eassumption | exact Hk].
    + exists st. split; [constructor | exact H].
Qed.

(** Whatever the matcher finds, the pattern allows. *)
Lemma rmatch_reach {R} (r : regex) :
  forall st (k : mstate -> option R) x,
    rmatch r st k = Some x -> exists st', reach r st st' /\ k st' = Some x.
Proof.
  induction r as [|p|r1 IH1 r2 IH2|r1 IH1 r2 IH2|r IH|i r IH| | |];
    intros st k x H; cbn [rmatch] in H.
  - exists st. split; [constructor | exact H].
  - destruct (rest st) as [|c s'] eqn:E; [discriminate|].
    destruct (p c) eqn:Hp; [|discriminate].
    eexists. split; [eapply reach_chr; eassumption | exact H].
  - apply IH1 in H as [mid [H1 H]]. apply IH2 in H as [st' [H2 H]].
    exists st'. split; [econstructor; eassumption | exact H].
  - destruct (rmatch r1 st k) as [y|] eqn:E.
    + injection H as ->. apply IH1 in E as [st' [H1 H]].
      exists st'. split; [now apply reach_alt_l | exact H].
    + apply IH2 in H as [st' [H2 H]].
      exists st'. split; [now apply reach_alt_r | exact H].
  - eapply iterate_reach; eassumption.
  - apply IH in H as [st' [H1 H]].
    eexists. split; [apply reach_grp; eassumption | exact H].
  - destruct (xorb _ _) eqn:E; [|discriminate].
    exists st. split; [now constructor | exact H].
  - destruct (prev st) eqn:E; [discriminate|].
    exists st. split; [now constructor | exact H].
  - destruct (rest st) eqn:E; [|discriminate].
    exists st. split; [now constructor | exact H].
Qed.

(** A match consumes a prefix of the input: a text of at least
    [min_len r] code units, all within any class that bounds the
    classes of [r]. *)
Lemma reach_text (P : N -> bool) (r : regex) (st st' : mstate) :
  reach r st st' -> chars_in P r ->
  exists h, rest st = h ++ rest st' /\ (min_len r <= length h)%nat /\
            Forall (fun c => P c = true) h.
Proof.
  induction 1 as [st|p st c s' E Hp|r1 r2 st mid st' _ IH1 _ IH2
                  |r1 r2 st st' _ IH|r1 r2 st st' _ IH|r st
                  |r st mid st' _ IH1 _ IH2|i r st st' _ IH|st|st|st];
    intros HP; cbn [chars_in min_len] in *.
  - exists []. repeat split; auto.
  - exists [c]. cbn. repeat split; auto.
  - destruct HP as [HP1 HP2].
    destruct (IH1 HP1) as [h1 [E1 [L1 F1]]], (IH2 HP2) as [h2 [E2 [L2 F2]]].
    exists (h1 ++ h2). rewrite E1, E2, app_assoc, length_app.
    repeat split; [lia | now apply Forall_app].
  - destruct (IH (proj1 HP)) as [h [E [L F]]]. exists h. repeat split; auto; lia.
  - destruct (IH (proj2 HP)) as [h [E [L F]]]. exists h. repeat split; auto; lia.
  - exists []. repeat split; auto.
  - destruct (IH1 HP) as [h1 [E1 [L1 F1]]], (IH2 HP) as [h2 [E2 [L2 F2]]].
    exists (h1 ++ h2). rewrite E1, E2, app_assoc.
    repeat split; [lia | now apply Forall_app].
  - destruct (IH HP) as [h [E [L F]]]. exists h. repeat split; auto.
  - exists []. repeat split; auto.
  - exists []. repeat split; auto.
  - exists []. repeat split; auto.
Qed.

Lemma consumed_prefix (st st' : mstate) (h : jsstring) :
  rest st = h ++ rest st' -> consumed st st' = h.
Proof.
  intros E. unfold consumed. rewrite E, length_app.
  replace (length h + length (rest st') - length (rest st'))%nat with (length h) by lia.
  rewrite firstn_app, Nat.sub_diag, firstn_all. cbn. apply app_nil_r.
Qed.

Lemma reach_consumed (P : N -> bool) (r : regex) (st st' : mstate) :
  reach r st st' -> chars_in P r ->
  rest st = consumed st st' ++ rest st' /\
  (min_len r <= length (consumed st st'))%nat /\
  Forall (fun c => P c = true) (consumed st st').
Proof.
  intros H HP. destruct (reach_text P r st st' H HP) as [h [E [L F]]].
  rewrite (consumed_prefix st st' h E). auto.
Qed.

(** Captures are only ever added by the groups of the pattern. *)
Lemma reach_caps (Q : nat -> jsstring -> Prop) (r : regex) (st st' : mstate) :
  reach r st st' -> groups_sat Q r -> caps_sat Q (caps st) -> caps_sat Q (caps st').
Proof.
  unfold caps_sat.
  induction 1; intros HQ Hc; cbn [groups_sat caps] in *; auto.
  - destruct HQ; auto.
  - destruct HQ; auto.
  - destruct HQ; auto.
  - destruct HQ as [Hq HQ]. constructor; [cbn; auto | auto].
Qed.

Lemma caps_sat_group (Q : nat -> jsstring -> Prop) (cs : list (nat * jsstring))
  (i : nat) (s : jsstring) :
  caps_sat Q cs -> group i cs = Some s -> Q i s.
Proof.
  unfold caps_sat. induction 1 as [|[j t] cs Hq _ IH]; cbn [group]; [discriminate|].
  destruct (Nat.eqb i j) eqn:E; [|exact IH].
  apply Nat.eqb_eq in E. subst j. now intros [= <-].
Qed.

Lemma match_here_reach (r : regex) (st : mstate) (m : rmatch_result) :
  match_here r st = Some m ->
  reach r st (after m) /\ matched m = consumed st (after m) /\ groups m = caps (after m).
Proof.
  unfold match_here. intros H.
  apply rmatch_reach in H as [st' [Hr [= <-]]]. auto.
Qed.

(** What [exec] answers is a match of the pattern somewhere in the
    input, started without captures. *)
Lemma exec_from_reach (r : regex) (s : jsstring) :
  forall p m, exec_from r p s = Some m ->
  exists st, caps st = [] /\ reach r st (after m) /\
             matched m = consumed st (after m) /\ groups m = caps (after m).
Proof.
  induction s as [|c s IH]; intros p m H; cbn [exec_from] in H.
  - destruct (match_here r _) as [m'|] eqn:E; [|discriminate].
    injection H as ->. exists (mkState p [] []).
    split; [reflexivity | exact (match_here_reach _ _ _ E)].
  - destruct (match_here r _) as [m'|] eqn:E.
    + injection H as ->. exists (mkState p (c :: s) []).
      split; [reflexivity | exact (match_here_reach _ _ _ E)].
    + eapply IH; eassumption.
Qed.

Lemma exec_groups (Q : nat -> jsstring -> Prop) (r : regex) (s : jsstring)
  (m : rmatch_result) (i : nat) (t : jsstring) :
  groups_sat Q r -> exec r s = Some m -> group i (groups m) = Some t -> Q i t.
Proof.
  intros HQ H Hg. apply exec_from_reach in H as [st [Hc [Hr [_ Hgr]]]].
  rewrite Hgr in Hg. eapply caps_sat_group; [|exact Hg].
  eapply reach_caps; [exact Hr | exact HQ |]. rewrite Hc. constructor.
Qed.

(** ** Hosts and ports read off a message *)

Lemma host_char_bounds (c : N) : host_char c = true -> (45 <= c <= 122)%N.
Proof.
  unfold host_char, is_alnum, is_alpha, is_upper, is_lower, is_digit.
  cbn [existsb lit map list_ascii_of_string N_of_ascii N_of_digits].
  rewrite !orb_true_iff, !andb_true_iff, !N.leb_le, !N.eqb_eq.
  cbn. lia.
Qed.

Lemma host_char_not_space (c : N) : host_char c = true -> is_space c = false.
Proof.
  intros H. apply host_char_bounds in H. unfold is_space. cbn [existsb].
  repeat match goal with
         | |- context [N.eqb c ?n] =>
             replace (N.eqb c n) with false by (symmetry; apply N.eqb_neq; lia)
         end.
  replace (N.leb 8192 c) with false by (symmetry; apply N.leb_gt; lia).
  reflexivity.
Qed.

Lemma trimStart_id (s : jsstring) :
  Forall (fun c => is_space c = false) s -> trimStart s = s.
Proof. destruct 1 as [|c s Hc _]; cbn; [reflexivity | now rewrite Hc]. Qed.

(** Trimming leaves a string without white space as it is. *)
Lemma trim_id (s : jsstring) :
  Forall (fun c => is_space c = false) s -> trim s = s.
Proof.
  intros H. unfold trim, trimEnd.
  rewrite (trimStart_id s H), (trimStart_id (rev s)) by now apply Forall_rev.
  apply rev_involutive.
Qed.

Lemma host_text_trim (s : jsstring) :
  Forall (fun c => host_char c = true) s -> trim s = s.
Proof.
  intros H. apply trim_id. eapply Forall_impl; [|exact H].
  apply host_char_not_space.
Qed.

Lemma host_text_sanitized (h : jsstring) :
  host_text h -> (length h <= 253)%nat -> sanitizeHost (Some (JStr h)) = Some h.
Proof.
  intros [Hne Hall] Hlen. apply sanitizeHost_accepts.
  rewrite (host_text_trim h Hall). split; [reflexivity|].
  repeat split; assumption.
Qed.

(** X1. [sanitizeHost] leaves its own results as they are: a host that
    was accepted is accepted again, unchanged. *)
Theorem sanitizeHost_idempotent (input : value) (s : jsstring) :
  sanitizeHost input = Some s -> sanitizeHost (Some (JStr s)) = Some s.
Proof.
  destruct input as [[| | |i| |]|]; try discriminate.
  intros H. apply sanitizeHost_accepts in H as [_ [Hne [Hlen Hall]]].
  apply host_text_sanitized; [split|]; assumption.
Qed.

Lemma sanitizeHost_idempotent_witness :
  sanitizeHost (Some (JStr (lit "  example.com "))) = Some (lit "example.com") /\
  sanitizeHost (Some (JStr (lit "example.com"))) = Some (lit "example.com").
Proof.
  assert (sanitizeHost (Some (JStr (lit "  example.com "))) = Some (lit "example.com")) as H
    by (vm_compute; reflexivity).
  split; [exact H | exact (sanitizeHost_idempotent _ _ H)].
Defined.

Lemma class_plus_text (p : N -> bool) (st st' : mstate) :
  reach (plus (Chr p)) st st' ->
  consumed st st' <> [] /\ Forall (fun c => p c = true) (consumed st st').
Proof.
  intros H.
  destruct (reach_consumed p (plus (Chr p)) st st' H) as [_ [L F]];
    [cbn; auto|].
  split; [|exact F]. cbn in L. destruct (consumed st st'); [cbn in L; lia | discriminate].
Qed.

Lemma digit_host_char (c : N) : is_digit c = true -> host_char c = true.
Proof. intros H. unfold host_char, is_alnum. rewrite H. now rewrite orb_true_r. Qed.

Lemma alpha_host_char (c : N) : is_alpha c = true -> host_char c = true.
Proof. intros H. unfold host_char, is_alnum. now rewrite H. Qed.

Lemma alnum_host_char (c : N) : is_alnum c = true -> host_char c = true.
Proof. intros H. unfold host_char. now rewrite H. Qed.

Lemma parseInt_digits_from (s : jsstring) :
  Forall (fun c => is_digit c = true) s ->
  forall acc, 0 <= acc ->
    0 <= fold_left (fun acc c => 10 * acc + (Z.of_N c - 48)) s acc.
Proof.
  induction 1 as [|c s Hc _ IH]; intros acc Hacc; cbn [fold_left]; [assumption|].
  apply IH. unfold is_digit in Hc.
  apply andb_true_iff in Hc as [H1 H2]. apply N.leb_le in H1, H2. lia.
Qed.

Lemma parseInt_number_small (n : Z) :
  - 2 ^ 53 < n < 2 ^ 53 -> parseInt_number n = Some n.
Proof.
  intros [H1 H2]. unfold parseInt_number, to_double, infinity.
  assert (2 ^ 53 < 10 ^ 21 < 2 ^ 1024) as [Hs Hi]
    by (split; apply Z.ltb_lt; vm_compute; reflexivity).
  replace (Z.abs n <? 2 ^ 53) with true by (symmetry; apply Z.ltb_lt; lia).
  cbv zeta.
  replace (2 ^ 1024 <=? Z.abs n) with false by (symmetry; apply Z.leb_gt; lia).
  replace (10 ^ 21 <=? Z.abs n) with false by (symmetry; apply Z.leb_gt; lia).
  f_equal. lia.
Qed.

Lemma to_double_nonneg (n : Z) : 0 <= n -> 0 <= to_double n.
Proof.
  intros Hn. unfold to_double. destruct (n <? 2 ^ 53) eqn:E; [assumption|].
  cbv zeta. apply Z.min_glb; [|unfold infinity; apply Z.pow_nonneg; lia].
  assert (0 <= n / 2 ^ (Z.log2 n - 52)) as Hq
    by (apply Z.div_pos; [assumption | apply Z.pow_pos_nonneg; [lia|]];
        apply Z.ltb_ge in E;
        assert (53 <= Z.log2 n) by (apply Z.log2_le_pow2; lia); lia).
  apply Z.mul_nonneg_nonneg; [|apply Z.pow_nonneg; lia].
  repeat match goal with |- context [if ?b then _ else _] => destruct b end; lia.
Qed.

Lemma parseInt_digits_nonneg (s : jsstring) :
  Forall (fun c => is_digit c = true) s -> 0 <= parseInt_digits s.
Proof.
  intros H. apply to_double_nonneg. apply parseInt_digits_from; [assumption | lia].
Qed.

Lemma host_grp_sat (st st' : mstate) :
  reach (plus (Chr host_char)) st st' -> host_text (consumed st st').
Proof. apply class_plus_text. Qed.

Lemma digits_sat (st st' : mstate) :
  reach (plus digit) st st' -> Forall (fun c => is_digit c = true) (consumed st st').
Proof. intros H. now apply class_plus_text in H. Qed.

Lemma pingRe_groups : groups_sat host_and_number pingRe.
Proof.
  unfold pingRe, host_grp. cbn.
  repeat apply conj; try exact I; try exact host_grp_sat; try exact digits_sat.
Qed.

Lemma traceRe_groups : groups_sat host_and_number traceRe.
Proof.
  unfold traceRe, host_grp, trace_word. cbn.
  repeat apply conj; try exact I; try exact host_grp_sat; try exact digits_sat.
Qed.

(** X2. The host that [detectPingRequest] or [detectTracerouteRequest]
    reads off a message is never empty and holds only characters that
    [sanitizeHost] allows, so that, unless it is longer than 253
    characters, the runner takes it as it is; the count or hop limit
    read with it is never negative. *)
Theorem detected_hosts_are_sanitary (message : jsstring) :
  (forall r, detectPingRequest message = Some r ->
     host_text (pg_host r) /\ 0 <= pg_count r /\
     ((length (pg_host r) <= 253)%nat ->
      sanitizeHost (Some (JStr (pg_host r))) = Some (pg_host r))) /\
  (forall r, detectTracerouteRequest message = Some r ->
     host_text (tr_host r) /\ 0 <= tr_maxHops r /\
     ((length (tr_host r) <= 253)%nat ->
      sanitizeHost (Some (JStr (tr_host r))) = Some (tr_host r))).
Proof.
  split; intros r.
  - unfold detectPingRequest.
    destruct (exec pingRe (trim message)) as [mt|] eqn:E; [|discriminate].
    destruct (group 1 (groups mt)) as [h|] eqn:G1; [|discriminate].
    intros [= <-]. cbn [pg_host pg_count].
    pose proof (exec_groups host_and_number pingRe _ mt 1 h pingRe_groups E G1) as Hh.
    cbn in Hh. split; [exact Hh|]. split; [|now apply host_text_sanitized].
    destruct (group 2 (groups mt)) as [[|d ds]|] eqn:G2; try lia.
    apply parseInt_digits_nonneg.
    exact (exec_groups host_and_number pingRe _ mt 2 _ pingRe_groups E G2).
  - unfold detectTracerouteRequest.
    destruct (exec traceRe (trim message)) as [mt|] eqn:E; [|discriminate].
    destruct (group 1 (groups mt)) as [h|] eqn:G1; [|discriminate].
    intros [= <-]. cbn [tr_host tr_maxHops].
    pose proof (exec_groups host_and_number traceRe _ mt 1 h traceRe_groups E G1) as Hh.
    cbn in Hh. split; [exact Hh|]. split; [|now apply host_text_sanitized].
    destruct (group 2 (groups mt)) as [[|d ds]|] eqn:G2; try lia.
    apply parseInt_digits_nonneg.
    exact (exec_groups host_and_number traceRe _ mt 2 _ traceRe_groups E G2).
Qed.

Lemma port_tests_groups :
  Forall (fun t => groups_sat (host_group (snd t)) (fst (fst t))) port_tests.
Proof.
  unfold port_tests, host_grp, port_grp, host_group.
  repeat constructor; cbn; repeat apply conj; try exact I; try discriminate;
    intros st st' H _; now apply class_plus_text in H.
Qed.

Lemma first_port_test_sound (tests : list (regex * nat * nat)) (m : jsstring)
  (r : port_request) :
  Forall (fun t => groups_sat (host_group (snd t)) (fst (fst t))) tests ->
  first_port_test tests m = Some r ->
  1 <= pr_port r <= 65535 /\ host_text (pr_host r).
Proof.
  induction 1 as [|[[re portIdx] hostIdx] tests Hre _ IH]; cbn [first_port_test];
    [discriminate|].
  cbn [fst snd] in Hre.
  destruct (exec re m) as [mt|] eqn:E; [|exact IH].
  destruct (group portIdx (groups mt)) as [ps|]; [|exact IH].
  destruct (group hostIdx (groups mt)) as [[|c h]|] eqn:G; try exact IH.
  destruct ((1 <=? parseInt_digits ps) && (parseInt_digits ps <=? 65535))%bool eqn:Hp;
    [|exact IH].
  intros [= <-]. cbn [pr_port pr_host].
  apply andb_true_iff in Hp as [H1 H2]. apply Z.leb_le in H1, H2.
  split; [lia|]. split; [discriminate|].
  exact (exec_groups (host_group hostIdx) re m mt hostIdx _ Hre E G eq_refl).
Qed.

(** X3. A port test read off a message has a port between 1 and 65535
    and a host that is not empty and holds only characters that
    [sanitizeHost] allows; unless the host is longer than 253
    characters, [testPort] then makes exactly one connection, to that
    host and port.  The port [extractPortFromMessage] reads is in the
    same range. *)
Theorem detected_port_tests_are_valid (message : jsstring) :
  (forall r, detectPortTestRequest message = Some r ->
     1 <= pr_port r <= 65535 /\ host_text (pr_host r) /\
     forall w, (length (pr_host r) <= 253)%nat ->
       snd (testPort w (Some (JStr (pr_host r))) (pr_port r))
       = [Connect (pr_port r) (pr_host r)]) /\
  (forall p, extractPortFromMessage message = Some p -> 1 <= p <= 65535).
Proof.
  split.
  - intros r H. unfold detectPortTestRequest in H.
    apply (first_port_test_sound _ _ _ port_tests_groups) in H as [Hp Hh].
    split; [exact Hp|]. split; [exact Hh|].
    intros w Hlen. unfold testPort.
    rewrite (host_text_sanitized _ Hh Hlen).
    rewrite parseInt_number_small
      by (assert (65535 < 2 ^ 53) by (now apply Z.ltb_lt; vm_compute); lia).
    cbn [is_some_Z negb orb].
    replace ((pr_port r <? 1) || (65535 <? pr_port r))%bool with false
      by (symmetry; apply orb_false_iff; split; apply Z.ltb_ge; lia).
    destruct (socket_connect w (pr_port r) (pr_host r)); reflexivity.
  - intros p. unfold extractPortFromMessage.
    destruct (exec _ (trim message)) as [mt|]; [|discriminate].
    destruct (group 1 (groups mt)) as [ps|]; [|discriminate].
    destruct ((1 <=? parseInt_digits ps) && (parseInt_digits ps <=? 65535))%bool eqn:Hp;
      [|discriminate].
    intros [= <-]. apply andb_true_iff in Hp as [H1 H2]. apply Z.leb_le in H1, H2. lia.
Qed.

Lemma match_all_from_sat (P : jsstring -> Prop) (r : regex) :
  (forall st st', reach r st st' -> P (consumed st st')) ->
  forall fuel p s, Forall P (match_all_from fuel r p s).
Proof.
  intros HP. induction fuel as [|fuel IH]; intros p s; cbn [match_all_from];
    [constructor|].
  destruct (exec_from r p s) as [m|] eqn:E; [|constructor].
  apply exec_from_reach in E as [st [_ [Hr [Hm _]]]].
  pose proof (HP _ _ Hr) as Hp. rewrite <- Hm in Hp.
  destruct (matched m) as [|c t] eqn:Em.
  - destruct (rest (after m)); constructor; auto.
  - constructor; auto.
Qed.

Lemma rev_head_in {A} (l : list A) (x : A) (t : list A) : rev l = x :: t -> In x l.
Proof. intros H. apply in_rev. rewrite H. now left. Qed.

Lemma dot_host_char (c : N) : N.eqb 46 c = true -> host_char c = true.
Proof. intros H. apply N.eqb_eq in H. now subst. Qed.

Lemma dash_host_char (c : N) : is_alnum c || N.eqb c 45 = true -> host_char c = true.
Proof.
  intros H. apply orb_true_iff in H as [H | H]; [now apply alnum_host_char|].
  apply N.eqb_eq in H. now subst.
Qed.

Lemma nonempty_text (n : nat) (s : jsstring) : (S n <= length s)%nat -> s <> [].
Proof. destruct s; cbn; [lia | discriminate]. Qed.

Lemma IPV4_text (st st' : mstate) :
  reach Diagnostics.IPV4_REGEX st st' -> host_text (consumed st st').
Proof.
  intros H.
  destruct (reach_consumed host_char _ st st' H) as [_ [L F]].
  - unfold Diagnostics.IPV4_REGEX, chr, digit. cbn [chars_in seqs upto opt].
    repeat apply conj; try exact I; try exact digit_host_char; exact dot_host_char.
  - split; [|exact F].
    change (min_len Diagnostics.IPV4_REGEX) with 7%nat in L.
    exact (nonempty_text _ _ L).
Qed.

Lemma HOSTNAME_text (st st' : mstate) :
  reach HOSTNAME_REGEX st st' -> host_text (consumed st st').
Proof.
  intros H.
  destruct (reach_consumed host_char _ st st' H) as [_ [L F]].
  - unfold HOSTNAME_REGEX, chr, plus. cbn [chars_in seqs opt].
    repeat apply conj; try exact I; try exact alnum_host_char;
      try exact alpha_host_char; try exact dot_host_char; exact dash_host_char.
  - split; [|exact F].
    change (min_len HOSTNAME_REGEX) with 4%nat in L.
    exact (nonempty_text _ _ L).
Qed.

(** X4. The host that [resolveHostFromConversation] finds in a
    conversation is never empty and holds only characters that
    [sanitizeHost] allows: a host taken from the context for
    [ping it] passes the sanitization unchanged unless it is longer
    than 253 characters.  A blank text gives no host. *)
Theorem resolved_hosts_are_sanitary (conversationText : jsstring) :
  (trim conversationText = [] -> resolveHostFromConversation conversationText = None) /\
  (forall h, resolveHostFromConversation conversationText = Some h ->
     host_text h /\
     ((length h <= 253)%nat -> sanitizeHost (Some (JStr h)) = Some h)).
Proof.
  unfold resolveHostFromConversation. split.
  - now intros ->.
  - intros h H.
    assert (host_text h) as Hh.
    { destruct (trim conversationText); [discriminate|].
      destruct (rev (match_all Diagnostics.IPV4_REGEX conversationText)) as [|ip ips] eqn:Ei.
      - destruct (rev (match_all HOSTNAME_REGEX conversationText)) as [|x xs] eqn:Eh;
          [discriminate|].
        injection H as <-. apply rev_head_in in Eh.
        pose proof (match_all_from_sat host_text HOSTNAME_REGEX HOSTNAME_text
                      (S (length conversationText)) None conversationText) as Hall.
        rewrite Forall_forall in Hall. now apply Hall.
      - injection H as <-. apply rev_head_in in Ei.
        pose proof (match_all_from_sat host_text Diagnostics.IPV4_REGEX IPV4_text
                      (S (length conversationText)) None conversationText) as Hall.
        rewrite Forall_forall in Hall. now apply Hall. }
    split; [exact Hh | now apply host_text_sanitized].
Qed.

(** ** The local-controller client, further *)

(** X5. Whatever endpoint [apiRequest] is given, the path it requests
    starts with [/api/]; an endpoint that is already normalized is left
    as it is. *)
Theorem normalize_endpoint_rooted (endpoint : jsstring) :
  startsWith (normalize_endpoint endpoint) (lit "/api/") = true /\
  normalize_endpoint (normalize_endpoint endpoint) = normalize_endpoint endpoint.
Proof.
  assert (startsWith (normalize_endpoint endpoint) (lit "/api/") = true) as H.
  { unfold normalize_endpoint.
    destruct (startsWith endpoint (lit "/api/")) eqn:E1; [exact E1|].
    destruct (startsWith endpoint (lit "/")) eqn:E2;
      [|destruct endpoint; reflexivity].
    destruct endpoint as [|c e]; [discriminate|].
    change (startsWith (c :: e) (lit "/")) with (N.eqb 47 c && startsWith e [])%bool in E2.
    apply andb_true_iff in E2 as [E2 _]. apply N.eqb_eq in E2. subst c.
    destruct e; reflexivity. }
  split; [exact H|].
  unfold normalize_endpoint at 1. now rewrite H.
Qed.

Lemma axios_state (w : controller) (req : request) (opts : request_options) (s : st) :
  snd (axios w req opts s) = (fst s, req :: snd s).
Proof.
  unfold axios. destruct (settle maxRedirects (w (snd s) req)) as [r|c m]; [|reflexivity].
  destruct (validateStatus opts (status r)); reflexivity.
Qed.

Lemma doRequest_state (w : controller) (endpoint : jsstring) (useSession : bool)
  (this : monitor) (sent : list request) :
  snd (doRequest w endpoint useSession (this, sent))
  = (with_prefix this, request_of this endpoint useSession :: sent).
Proof. rewrite doRequest_run. apply axios_state. Qed.

Lemma apiKey_with_prefix (this : monitor) : apiKey (with_prefix this) = apiKey this.
Proof.
  unfold with_prefix, detectApiPrefix. destruct (apiPrefix this); [reflexivity|].
  repeat match goal with |- context [if ?b then _ else _] => destruct b end; reflexivity.
Qed.

Lemma authenticate_keyless (w : controller) (this : monitor) (sent : list request) :
  apiKey this = [] ->
  authenticate w (this, sent)
  = (Throw (Error (lit "UniFi API key not configured")), (this, sent)).
Proof.
  intros H. unfold authenticate, mbind, this_. cbn [fst]. rewrite H.
  destruct (baseUrl this); reflexivity.
Qed.

(** One activation of a client without a key: it does not end with a
    new call, it logs in nowhere, and it sends one request at most. *)
Lemma on_the_wire_calls (w : controller) (calls : list request) :
  never_redirects w -> on_the_wire w calls = calls.
Proof.
  intros H. induction calls as [|q earlier IH]; [reflexivity|].
  cbn [on_the_wire]. rewrite IH.
  destruct (w earlier q) as [r|c m|next o] eqn:E; [reflexivity | reflexivity|].
  elim (H earlier q next o E).
Qed.

Lemma follow_ups_length (n : nat) (o : outcome) : (length (follow_ups n o) <= n)%nat.
Proof.
  revert o. induction n as [|n IH]; intros o; destruct o as [r|c m|next o'];
    cbn [follow_ups length]; try lia.
  specialize (IH o'). lia.
Qed.

Lemma on_the_wire_grows (w : controller) (q : request) (earlier : list request) :
  (length (on_the_wire w (q :: earlier))
   <= length (on_the_wire w earlier) + S maxRedirects)%nat.
Proof.
  cbn [on_the_wire]. rewrite length_app, length_rev. cbn [length].
  pose proof (follow_ups_length maxRedirects (w earlier q)). lia.
Qed.

(** What a client without a key may add to its calls in one activation
    of [apiRequest]: nothing, or one [GET] of the endpoint. *)
Lemma keyless_activation (w : controller) (endpoint : jsstring) (this : monitor)
  (sent : list request) :
  apiKey this = [] ->
  exists res this' sent',
    apiRequest_try w endpoint (this, sent) = (res, (this', sent')) /\
    res <> Ok Again /\
    (sent' = sent \/
     exists b this0, apiKey this0 = [] /\ sent' = request_of this0 endpoint b :: sent).
Proof.
  intros Hkey. unfold apiRequest_try.
  unfold mbind at 1. unfold this_ at 1. cbn [fst].
  assert (forall (this0 : monitor) sent0 response,
            apiKey this0 = [] ->
            exists res this' sent',
              (if is_401_403 (status response)
               then mbind (update reset_session)
                      (fun _ => mbind (authenticate w) (fun _ => ret Again))
               else ret (Return (unwrap (data response)))) (this0, sent0)
              = (res, (this', sent')) /\
              res <> Ok Again /\ sent' = sent0) as Hend.
  { intros this0 sent0 response Hk.
    destruct (is_401_403 (status response)).
    - unfold mbind at 1. unfold update at 1. cbn [fst snd].
      unfold mbind at 1. rewrite authenticate_keyless by exact Hk.
      do 3 eexists. split; [reflexivity|]. split; [discriminate | reflexivity].
    - do 3 eexists. split; [reflexivity|]. split; [discriminate | reflexivity]. }
  assert (forall b (this0 : monitor), apiKey this0 = [] ->
            exists res this' sent',
              mbind (doRequest w endpoint b)
                (fun response =>
                   if is_401_403 (status response)
                   then mbind (update reset_session)
                          (fun _ => mbind (authenticate w) (fun _ => ret Again))
                   else ret (Return (unwrap (data response)))) (this0, sent)
              = (res, (this', sent')) /\
              res <> Ok Again /\
              (sent' = sent \/
               exists b this0, apiKey this0 = [] /\
                               sent' = request_of this0 endpoint b :: sent)) as Hreq.
  { intros b this0 Hk. unfold mbind at 1.
    pose proof (doRequest_state w endpoint b this0 sent) as Hs.
    destruct (doRequest w endpoint b (this0, sent)) as [[response|e] s1].
    - cbn [snd] in Hs. subst s1.
      destruct (Hend (with_prefix this0) (request_of this0 endpoint b :: sent) response)
        as (res & this' & sent' & -> & Hres & ->); [now rewrite apiKey_with_prefix|].
      do 3 eexists. split; [reflexivity|]. split; [exact Hres|].
      right. now exists b, this0.
    - cbn [snd] in Hs. subst s1.
      do 3 eexists. split; [reflexivity|]. split; [discriminate|].
      right. now exists b, this0. }
  assert (forall (this0 : monitor), apiKey this0 = [] ->
            exists res this' sent',
              mbind (mbind (doRequest w endpoint false)
                       (fun response =>
                          if is_401_403 (status response)
                          then mbind (update (set_useSessionAuth (Some true)))
                                 (fun _ => mbind (authenticate w)
                                    (fun _ => doRequest w endpoint true))
                          else ret response))
                (fun response =>
                   if is_401_403 (status response)
                   then mbind (update reset_session)
                          (fun _ => mbind (authenticate w) (fun _ => ret Again))
                   else ret (Return (unwrap (data response)))) (this0, sent)
              = (res, (this', sent')) /\
              res <> Ok Again /\
              (sent' = sent \/
               exists b this0, apiKey this0 = [] /\
                               sent' = request_of this0 endpoint b :: sent)) as Hfirst.
  { intros this0 Hk. unfold mbind at 1. unfold mbind at 1.
    pose proof (doRequest_state w endpoint false this0 sent) as Hs.
    destruct (doRequest w endpoint false (this0, sent)) as [[response|e] s1];
      cbn [snd] in Hs; subst s1.
    - destruct (is_401_403 (status response)) eqn:E.
      + unfold mbind at 1. unfold update at 1. cbn [fst snd].
        unfold mbind at 1. rewrite authenticate_keyless
          by (cbn [apiKey set_useSessionAuth]; now rewrite apiKey_with_prefix).
        do 3 eexists. split; [reflexivity|]. split; [discriminate|].
        right. now exists false, this0.
      + unfold ret at 1. rewrite E.
        do 3 eexists. split; [reflexivity|]. split; [discriminate|].
        right. now exists false, this0.
    - do 3 eexists. split; [reflexivity|]. split; [discriminate|].
      right. now exists false, this0. }
  destruct (useSessionAuth this) as [[|]|]; [|apply Hfirst; assumption ..].
  destruct (nonempty (cookie this)).
  - unfold mbind at 2. unfold ret at 1. apply Hreq. assumption.
  - unfold mbind at 1. unfold mbind at 1. unfold mbind at 1.
    rewrite authenticate_keyless by assumption.
    do 3 eexists. split; [reflexivity|]. split; [discriminate|].
    now left.
Qed.

Lemma request_of_keyless (this : monitor) (endpoint : jsstring) (b : bool) :
  apiKey this = [] ->
  is_post (request_of this endpoint b) = false /\
  login_password (request_of this endpoint b) = None /\
  x_api_key (request_of this endpoint b) = None.
Proof.
  intros H. unfold request_of. cbn [is_post login_password x_api_key].
  now rewrite apiKey_with_prefix, H.
Qed.

(** X6. A client without an API key never logs in: [apiRequest] ends
    in its first activation, with a payload or an error, after one call
    of axios at most, a [GET] without a key and without a password.  On
    the wire that call is one request, and as many more as the
    controller has redirects followed, up to [maxRedirects]; against a
    controller that never redirects, nothing else goes out. *)
Theorem keyless_client_never_logs_in
  (w : controller) (endpoint : jsstring) (this : monitor) (sent : list request)
  (fuel : nat) :
  apiKey this = [] ->
  exists res this' sent',
    apiRequest (S fuel) w endpoint (this, sent) = (Some res, (this', sent')) /\
    (sent' = sent \/
     exists q, sent' = q :: sent /\ is_post q = false /\ login_password q = None /\
               x_api_key q = None) /\
    logins sent' = logins sent /\
    (length (on_the_wire w sent') <= length (on_the_wire w sent) + S maxRedirects)%nat /\
    (never_redirects w -> on_the_wire w sent' = sent').
Proof.
  intros Hkey. cbn [apiRequest]. unfold try_catch.
  destruct (keyless_activation w (normalize_endpoint endpoint) this sent Hkey)
    as (res & this' & sent' & Htry & Hres & Hs).
  assert ((sent' = sent \/
           exists q, sent' = q :: sent /\ is_post q = false /\ login_password q = None /\
                     x_api_key q = None) /\
          logins sent' = logins sent /\
          (length (on_the_wire w sent') <= length (on_the_wire w sent) + S maxRedirects)%nat /\
          (never_redirects w -> on_the_wire w sent' = sent')) as Hfacts.
  { split; [|split; [|split]].
    - destruct Hs as [-> | (b & this0 & Hk & ->)]; [now left|].
      right. eexists. split; [reflexivity|]. now apply request_of_keyless.
    - destruct Hs as [-> | (b & this0 & Hk & ->)]; reflexivity.
    - destruct Hs as [-> | (b & this0 & Hk & ->)]; [lia | apply on_the_wire_grows].
    - intros Hn. now apply on_the_wire_calls. }
  rewrite Htry. destruct res as [[payload|]|e].
  - exists (Ok payload), this', sent'. auto.
  - now elim Hres.
  - destruct (apiRequest_catch_rethrows w _ _ _ e Htry) as [-> | ->];
      do 3 eexists; split; eauto.
Qed.

(** A client without a key that is answered 401: one request, and the
    error of the missing key. *)
Lemma keyless_client_never_logs_in_witness :
  exists res this' sent',
    apiRequest 1 revoked devices_endpoint
      (new (lit "https://192.168.1.1/") [] [] true, [])
    = (Some res, (this', sent')) /\
    (sent' = [] \/
     exists q, sent' = [q] /\ is_post q = false /\ login_password q = None /\
               x_api_key q = None) /\
    logins sent' = logins [] /\
    (length (on_the_wire revoked sent') <= length (on_the_wire revoked []) + S maxRedirects)%nat /\
    (never_redirects revoked -> on_the_wire revoked sent' = sent').
Proof.
  exact (keyless_client_never_logs_in revoked devices_endpoint
           (new (lit "https://192.168.1.1/") [] [] true) [] 0 eq_refl).
Defined.

Lemma probe_prefixes_outcome (w : controller) (base : jsstring) (prefixes : list jsstring) :
  forall this sent,
  exists this' sent',
    probe_prefixes w base prefixes (this, sent) = (Ok tt, (this', sent')) /\
    (this' = detectApiPrefix this \/
     exists p, In p prefixes /\ this' = set_apiPrefix (Some p) this) /\
    logins sent' = logins sent /\
    (length sent' <= length sent + length prefixes)%nat.
Proof.
  induction prefixes as [|p ps IH]; intros this sent; cbn [probe_prefixes].
  - exists (detectApiPrefix this), sent. repeat split; auto. cbn. lia.
  - unfold mbind at 1. unfold this_ at 1. cbn [fst].
    unfold mbind at 1. unfold try_catch at 1. unfold mbind at 1.
    match goal with |- context [axios w ?q ?o ?s] =>
      pose proof (axios_state w q o s) as Hs; destruct (axios w q o s) as [[res|e] s1]
    end; cbn [fst snd] in Hs; subst s1.
    + unfold ret at 1. destruct (probe_accepts res).
      * do 2 eexists. split; [reflexivity|]. split; [right; exists p; split; [now left | reflexivity]|].
        split; [reflexivity | cbn [length fst snd]; lia].
      * match goal with |- context [probe_prefixes w base ps (this, ?l)] =>
          destruct (IH this l) as (this' & sent' & -> & Hp & Hl & Hlen)
        end.
        exists this', sent'. split; [reflexivity|]. split.
        -- destruct Hp as [Hp | [q [Hq Hp]]]; [now left | right; exists q; split; [now right | exact Hp]].
        -- split; [exact Hl | cbn [length] in *; lia].
    + unfold ret at 1.
      match goal with |- context [probe_prefixes w base ps (this, ?l)] =>
        destruct (IH this l) as (this' & sent' & -> & Hp & Hl & Hlen)
      end.
      exists this', sent'. split; [reflexivity|]. split.
      * destruct Hp as [Hp | [q [Hq Hp]]]; [now left | right; exists q; split; [now right | exact Hp]].
      * split; [exact Hl | cbn [length] in *; lia].
Qed.

Lemma detectApiPrefix_prefix (this : monitor) :
  apiPrefix (detectApiPrefix this) = Some unifi_api \/
  apiPrefix (detectApiPrefix this) = Some proxy_network.
Proof.
  unfold detectApiPrefix.
  repeat match goal with |- context [if ?b then _ else _] => destruct b end; cbn; auto.
Qed.

Lemma detectApiPrefix_fields (this : monitor) :
  baseUrl (detectApiPrefix this) = baseUrl this /\
  apiKey (detectApiPrefix this) = apiKey this /\
  site (detectApiPrefix this) = site this /\
  cookie (detectApiPrefix this) = cookie this /\
  csrfToken (detectApiPrefix this) = csrfToken this /\
  useSessionAuth (detectApiPrefix this) = useSessionAuth this.
Proof.
  unfold detectApiPrefix.
  repeat match goal with |- context [if ?b then _ else _] => destruct b end;
    repeat split; reflexivity.
Qed.

(** X7. A login that [authenticate] completes leaves the client in
    session mode with one of the two API prefixes, its base URL, key
    and site untouched, after exactly one login and at most two probes;
    and it is only attempted by a client that has a base URL and a
    key. *)
Theorem authenticate_postcondition
  (w : controller) (this this' : monitor) (sent sent' : list request) (b : bool) :
  authenticate w (this, sent) = (Ok b, (this', sent')) ->
  b = true /\ configured this /\
  useSessionAuth this' = Some true /\
  (apiPrefix this' = Some unifi_api \/ apiPrefix this' = Some proxy_network) /\
  baseUrl this' = baseUrl this /\ apiKey this' = apiKey this /\ site this' = site this /\
  logins sent' = S (logins sent) /\ (length sent' <= length sent + 3)%nat.
Proof.
  unfold authenticate. unfold mbind at 1. unfold this_ at 1. cbn [fst].
  destruct (baseUrl this) as [|b0 bs] eqn:Eb; [discriminate|].
  destruct (apiKey this) as [|k0 ks] eqn:Ek; [discriminate|].
  cbv zeta. unfold try_catch at 1. unfold mbind at 1.
  match goal with |- context [axios w ?q ?o ?s] =>
    pose proof (axios_state w q o s) as Hs; destruct (axios w q o s) as [[r|e] s1]
  end; cbn [fst snd] in Hs; subst s1.
  2:{ destruct (err_is_refused e); [discriminate|].
      destruct (err_is_401_403 e); discriminate. }
  destruct (negb (status r =? 200)).
  { unfold throw at 1. destruct (err_is_refused _); [discriminate|].
    destruct (err_is_401_403 _); discriminate. }
  unfold mbind at 1.
  match goal with |- context [match set_cookie r with _ => _ end ?s] =>
    assert (exists this1, match set_cookie r with
                          | Some cookies =>
                              update (set_cookie_field
                                        (Some (join (lit "; ") (map before_semicolon cookies))))
                          | None => ret tt
                          end s = (Ok tt, (this1, snd s)) /\
                          baseUrl this1 = baseUrl this /\ apiKey this1 = apiKey this /\
                          site this1 = site this) as (this1 & -> & Hb1 & Hk1 & Hs1)
      by (destruct (set_cookie r); eexists; (split; [reflexivity|]); repeat split; reflexivity)
  end.
  cbn [snd]. unfold mbind at 1. unfold update at 1. cbn [fst snd].
  unfold mbind at 1. unfold try_catch at 1.
  unfold detectApiPrefixByProbing. unfold mbind at 1. unfold this_ at 1. cbn [fst].
  match goal with |- context [probe_prefixes w ?base ?ps (?t, ?l)] =>
    destruct (probe_prefixes_outcome w base ps t l) as (this2 & sent2 & -> & Hp & Hl & Hlen)
  end.
  unfold mbind, update, ret. cbn [fst snd].
  intros H. injection H as Hb Ht Hsent. subst b this' sent'.
  split; [reflexivity|]. split; [split; [rewrite Eb | rewrite Ek]; discriminate|].
  split; [reflexivity|].
  assert (logins sent2 = S (logins sent)) as Hl' by (rewrite Hl; reflexivity).
  assert (length sent2 <= length sent + 3)%nat as Hlen' by (cbn [length] in Hlen; lia).
  cbn [apiPrefix baseUrl apiKey site set_useSessionAuth].
  destruct Hp as [-> | [p [Hin ->]]].
  - destruct (detectApiPrefix_fields (set_csrfToken (nonempty (x_csrf_token r)) this1))
      as (-> & -> & -> & _).
    split; [apply detectApiPrefix_prefix|].
    cbn [baseUrl apiKey site set_csrfToken]. rewrite Hb1, Hk1, Hs1, Eb, Ek.
    repeat split; assumption.
  - cbn [apiPrefix baseUrl apiKey site set_apiPrefix set_csrfToken].
    rewrite Hb1, Hk1, Hs1, Eb, Ek.
    split; [destruct Hin as [<- | [<- | []]]; auto|].
    repeat split; assumption.
Qed.

Lemma authenticate_postcondition_witness :
  exists sent',
    authenticate login_only (fresh_client, []) = (Ok true, (session_client, sent')) /\
    useSessionAuth session_client = Some true /\ logins sent' = 1%nat.
Proof.
  exists (snd (snd (authenticate login_only (fresh_client, [])))).
  assert (authenticate login_only (fresh_client, [])
          = (Ok true, (session_client,
                       snd (snd (authenticate login_only (fresh_client, []))))))
    as H by (vm_compute; reflexivity).
  destruct (authenticate_postcondition _ _ _ _ _ _ H) as (_ & _ & Hu & _ & _ & _ & _ & Hl & _).
  split; [exact H|]. split; [exact Hu | exact Hl].
Defined.

Lemma no_client_status_not_401 (e : jserror) :
  no_client_status e -> err_is_401_403 e = false.
Proof.
  unfold no_client_status, err_is_401_403, is_401_403.
  destruct (response_status e) as [s|]; [|reflexivity].
  intros H. apply orb_false_iff. split; apply Z.eqb_neq; lia.
Qed.

(** X8. The ways [authenticate] fails: without a base URL or a key, on
    a refused connection, and with [UniFi authentication error: ...]
    for everything else.  A login that is answered with a status other
    than 200, 401 and 403 included, is reported as [UniFi
    authentication error: UniFi API key authentication failed]; the
    message about an invalid or expired key is never given. *)
Theorem authenticate_failures :
  (forall w s s' e,
     authenticate w s = (Throw e, s') ->
     e = Error (lit "UniFi API key not configured") \/
     e = Error (lit "Cannot connect to UniFi controller at " ++ getCleanBaseUrl (fst s)) \/
     exists m, e = Error (lit "UniFi authentication error: " ++ m)) /\
  (forall w this sent r,
     configured this ->
     w sent (login_request this) = Responded r ->
     status r <> 200 -> status r < 500 ->
     authenticate w (this, sent)
     = (Throw (Error (lit "UniFi authentication error: UniFi API key authentication failed")),
        (this, login_request this :: sent))).
Proof.
  split.
  - intros w [this sent] s' e. unfold authenticate.
    unfold mbind at 1. unfold this_ at 1. cbn [fst].
    destruct (baseUrl this) as [|b0 bs] eqn:Eb; [intros [= <- _]; now left|].
    destruct (apiKey this) as [|k0 ks] eqn:Ek; [intros [= <- _]; now left|].
    cbv zeta. unfold try_catch at 1. unfold mbind at 1.
    match goal with |- context [axios w ?q ?o ?s] =>
      pose proof (axios_throws w q s) as Hax;
      destruct (axios w q o s) as [[r|e0] s1]
    end.
    + destruct (negb (status r =? 200)).
      * unfold throw at 1. cbn [err_is_refused err_is_401_403 Error code response_status].
        intros [= <- _]. right; right. eexists. reflexivity.
      * destruct s1 as [this0 sent0]. unfold mbind at 1.
        match goal with |- context [match set_cookie r with _ => _ end ?s] =>
          assert (exists this1, match set_cookie r with
                                | Some cookies =>
                                    update (set_cookie_field
                                              (Some (join (lit "; ")
                                                       (map before_semicolon cookies))))
                                | None => ret tt
                                end s = (Ok tt, (this1, snd s))) as (this1 & ->)
            by (destruct (set_cookie r); eexists; reflexivity)
        end.
        cbn [snd]. unfold mbind at 1. unfold update at 1. cbn [fst snd].
        unfold mbind at 1. unfold try_catch at 1.
        unfold detectApiPrefixByProbing. unfold mbind at 1. unfold this_ at 1. cbn [fst].
        match goal with |- context [probe_prefixes w ?base ?ps ?s] =>
          destruct (probe_prefixes_resolves w base ps s) as [s2 ->]
        end.
        unfold mbind, update, ret. discriminate.
    + specialize (Hax s1 e0 eq_refl).
      destruct (err_is_refused e0); [intros [= <- _]; right; now left|].
      rewrite (no_client_status_not_401 e0 Hax).
      intros [= <- _]. right; right. eexists. reflexivity.
  - intros w this sent r [Hb Hk] Hr Hs Hlt. unfold authenticate.
    unfold mbind at 1. unfold this_ at 1. cbn [fst].
    destruct (baseUrl this) as [|b0 bs] eqn:Eb; [now elim Hb|].
    destruct (apiKey this) as [|k0 ks] eqn:Ek; [now elim Hk|].
    cbv zeta. unfold try_catch at 1. unfold mbind at 1.
    unfold login_request in *. rewrite Ek in *.
    rewrite (axios_resolves w _ (this, sent) r Hr Hlt). cbn [fst snd].
    replace (status r =? 200) with false by (symmetry; now apply Z.eqb_neq).
    reflexivity.
Qed.

(** ** The requests of a client stay on its base URL *)

Lemma startsWith_app (b x : jsstring) : startsWith (b ++ x) b = true.
Proof.
  induction b as [|c b IH]; [now destruct x|].
  cbn [app startsWith]. now rewrite N.eqb_refl, IH.
Qed.

Lemma startsWith_app_l (b e p : jsstring) :
  startsWith b p = true -> startsWith (b ++ e) p = true.
Proof.
  revert b. induction p as [|x p IH]; intros b H; [now destruct (b ++ e)|].
  destruct b as [|y b]; [discriminate|].
  cbn [app startsWith] in *. apply andb_true_iff in H as [H1 H2].
  now rewrite H1, IH.
Qed.

Lemma same_client_refl (a : monitor) : same_client a a.
Proof. repeat split. Qed.

Lemma same_client_trans (a b c : monitor) :
  same_client a b -> same_client b c -> same_client a c.
Proof.
  intros (H1 & H2 & H3 & H4) (K1 & K2 & K3 & K4).
  repeat split; congruence.
Qed.

Lemma same_client_base (a b : monitor) :
  same_client a b -> getCleanBaseUrl a = getCleanBaseUrl b.
Proof. intros (H & _). unfold getCleanBaseUrl. now rewrite H. Qed.

Section Confined.

Variable this0 : monitor.

Lemma confined_ret {A} (Q : A -> Prop) (a : A) : Q a -> confined this0 Q (ret a).
Proof.
  intros H s Hs. split; [exact Hs|]. split.
  - exists []. split; [reflexivity | constructor].
  - cbn. intros a' E. now injection E as <-.
Qed.

Lemma confined_throw {A} (Q : A -> Prop) (e : jserror) : confined this0 Q (throw e).
Proof.
  intros s Hs. split; [exact Hs|]. split.
  - exists []. split; [reflexivity | constructor].
  - cbn. discriminate.
Qed.

Lemma confined_this : confined this0 (fun t => same_client t this0) this_.
Proof.
  intros s Hs. split; [exact Hs|]. split.
  - exists []. split; [reflexivity | constructor].
  - cbn. intros a E. now injection E as <-.
Qed.

Lemma confined_update (f : monitor -> monitor) :
  (forall m, same_client (f m) m) -> confined this0 (fun _ => True) (update f).
Proof.
  intros Hf s Hs. split; [|split].
  - cbn. eapply same_client_trans; [apply Hf | exact Hs].
  - exists []. split; [reflexivity | constructor].
  - trivial.
Qed.

Lemma confined_axios (w : controller) (q : request) (o : request_options) :
  own_request this0 q -> confined this0 (fun _ => True) (axios w q o).
Proof.
  intros Hq s Hs. rewrite axios_state. cbn [fst snd]. split; [exact Hs|]. split; [|trivial].
  exists [q]. split; [reflexivity | now constructor].
Qed.

Lemma confined_mbind {A B} (Q : A -> Prop) (R : B -> Prop) (m : M A) (k : A -> M B) :
  confined this0 Q m -> (forall a, Q a -> confined this0 R (k a)) ->
  confined this0 R (mbind m k).
Proof.
  intros Hm Hk s Hs. unfold mbind.
  destruct (Hm s Hs) as (H1 & (new & H2 & H3) & H4).
  destruct (m s) as [[a|e] s1]; cbn [fst snd] in *.
  - destruct (Hk a (H4 a eq_refl) s1 H1) as (K1 & (new' & K2 & K3) & K4).
    split; [exact K1|]. split; [|exact K4].
    exists (new' ++ new). rewrite K2, H2, app_assoc. split; [reflexivity|].
    apply Forall_app. now split.
  - split; [exact H1|]. split; [|discriminate].
    exists new. now split.
Qed.

Lemma confined_try_catch {A} (Q : A -> Prop) (m : M A) (h : jserror -> M A) :
  confined this0 Q m -> (forall e, confined this0 Q (h e)) ->
  confined this0 Q (try_catch m h).
Proof.
  intros Hm Hh s Hs. unfold try_catch.
  destruct (Hm s Hs) as (H1 & (new & H2 & H3) & H4).
  destruct (m s) as [[a|e] s1]; cbn [fst snd] in *.
  - split; [exact H1|]. split; [|exact H4].
    exists new. now split.
  - destruct (Hh e s1 H1) as (K1 & (new' & K2 & K3) & K4).
    split; [exact K1|]. split; [|exact K4].
    exists (new' ++ new). rewrite K2, H2, app_assoc. split; [reflexivity|].
    apply Forall_app. now split.
Qed.

Lemma confined_weaken {A} (Q R : A -> Prop) (m : M A) :
  confined this0 Q m -> (forall a, Q a -> R a) -> confined this0 R m.
Proof.
  intros Hm HQR s Hs. destruct (Hm s Hs) as (H1 & H2 & H3).
  split; [exact H1|]. split; [exact H2|]. intros a Ha. apply HQR, H3, Ha.
Qed.

Lemma same_detectApiPrefix (m : monitor) : same_client (detectApiPrefix m) m.
Proof.
  unfold detectApiPrefix.
  repeat match goal with |- context [if ?b then _ else _] => destruct b end;
    repeat split.
Qed.

Lemma confined_probe_prefixes (w : controller) (prefixes : list jsstring) :
  confined this0 (fun _ => True) (probe_prefixes w (getCleanBaseUrl this0) prefixes).
Proof.
  induction prefixes as [|p ps IH]; cbn [probe_prefixes].
  - apply confined_update, same_detectApiPrefix.
  - eapply confined_mbind; [apply confined_this|]. intros this Hthis.
    eapply confined_mbind with (Q := fun _ => True).
    + apply confined_try_catch; [|intros e; now apply confined_ret].
      eapply confined_mbind; [|intros res _; now apply confined_ret].
      apply confined_axios. right. cbn [is_post login_password x_api_key url].
      repeat split; auto. apply startsWith_app.
    + intros [|] _; [|exact IH]. apply confined_update. intros m. repeat split.
Qed.

Lemma confined_authenticate (w : controller) :
  confined this0 (fun _ => True) (authenticate w).
Proof.
  unfold authenticate.
  eapply confined_mbind; [apply confined_this|]. intros this Hthis.
  destruct (baseUrl this) as [|b0 bs] eqn:Eb; [apply confined_throw|].
  destruct (apiKey this) as [|k0 ks] eqn:Ek; [apply confined_throw|].
  cbv zeta. apply confined_try_catch.
  - eapply confined_mbind with (Q := fun _ => True).
    + apply confined_axios. left. unfold login_request.
      rewrite (same_client_base _ _ Hthis).
      destruct Hthis as (_ & <- & _). now rewrite Ek.
    + intros response _. destruct (negb (status response =? 200)); [apply confined_throw|].
      eapply confined_mbind with (Q := fun _ => True).
      { destruct (set_cookie response);
          [apply confined_update; intros m; repeat split | now apply confined_ret]. }
      intros _ _. eapply confined_mbind with (Q := fun _ => True).
      { apply confined_update. intros m. repeat split. }
      intros _ _. eapply confined_mbind with (Q := fun _ => True).
      { apply confined_try_catch.
        - unfold detectApiPrefixByProbing.
          eapply confined_mbind; [apply confined_this|]. intros t Ht.
          rewrite (same_client_base _ _ Ht). apply confined_probe_prefixes.
        - intros e. apply confined_update, same_detectApiPrefix. }
      intros _ _. eapply confined_mbind with (Q := fun _ => True).
      { apply confined_update. intros m. repeat split. }
      intros _ _. now apply confined_ret.
  - intros err. destruct (err_is_refused err); [apply confined_throw|].
    destruct (err_is_401_403 err); apply confined_throw.
Qed.

Lemma confined_doRequest (w : controller) (endpoint : jsstring) (useSession : bool) :
  confined this0 (fun _ => True) (doRequest w endpoint useSession).
Proof.
  unfold doRequest.
  eapply confined_mbind
    with (Q := fun b => startsWith b (getCleanBaseUrl this0) = true).
  - unfold getApiBaseUrl.
    eapply confined_mbind; [apply confined_this|]. intros this Hthis.
    eapply confined_mbind with (Q := fun _ => True).
    { destruct (apiPrefix this);
        [now apply confined_ret | apply confined_update, same_detectApiPrefix]. }
    intros _ _. eapply confined_mbind; [apply confined_this|]. intros t Ht.
    apply confined_ret. rewrite (same_client_base _ _ Ht). apply startsWith_app.
  - intros base Hbase. eapply confined_mbind; [apply confined_this|]. intros this Hthis.
    apply confined_axios. right. cbn [is_post login_password x_api_key url].
    repeat split.
    + destruct Hthis as (_ & <- & _). destruct (apiKey this); cbn; auto.
    + now apply startsWith_app_l.
Qed.

Lemma confined_apiRequest_try (w : controller) (endpoint : jsstring) :
  confined this0 (fun _ => True) (apiRequest_try w endpoint).
Proof.
  unfold apiRequest_try.
  eapply confined_mbind; [apply confined_this|]. intros this Hthis.
  eapply confined_mbind with (Q := fun _ => True).
  - assert (confined this0 (fun _ : response => True)
              (mbind (doRequest w endpoint false)
                 (fun response =>
                    if is_401_403 (status response)
                    then mbind (update (set_useSessionAuth (Some true)))
                           (fun _ => mbind (authenticate w)
                              (fun _ => doRequest w endpoint true))
                    else ret response))) as Hkey.
    { eapply confined_mbind; [apply confined_doRequest|]. intros response _.
      destruct (is_401_403 (status response)); [|now apply confined_ret].
      eapply confined_mbind with (Q := fun _ => True).
      { apply confined_update. intros m. repeat split. }
      intros _ _. eapply confined_mbind; [apply confined_authenticate|].
      intros _ _. apply confined_doRequest. }
    destruct (useSessionAuth this) as [[|]|]; [|exact Hkey ..].
    eapply confined_mbind with (Q := fun _ => True); [|intros _ _; apply confined_doRequest].
    destruct (nonempty (cookie this)); [now apply confined_ret|].
    eapply confined_mbind; [apply confined_authenticate|].
    intros _ _. now apply confined_ret.
  - intros response _. destruct (is_401_403 (status response)); [|now apply confined_ret].
    eapply confined_mbind with (Q := fun _ => True).
    { apply confined_update. intros m. repeat split. }
    intros _ _. eapply confined_mbind; [apply confined_authenticate|].
    intros _ _. now apply confined_ret.
Qed.

Lemma confined_apiRequest_catch (err : jserror) :
  confined this0 (fun _ => True) (apiRequest_catch err).
Proof.
  unfold apiRequest_catch.
  eapply confined_mbind; [apply confined_this|]. intros this Hthis.
  destruct (err_is_refused err); [apply confined_throw|].
  destruct (err_is_401_403 err); [apply confined_throw|].
  destruct (response_status err) as [z|]; [|apply confined_throw].
  destruct (z =? 404) eqn:E.
  - apply Z.eqb_eq in E. subst z.
    destruct (apiPrefix this); [|apply confined_throw].
    eapply confined_mbind with (Q := fun _ => True).
    { apply confined_update. intros m. repeat split. }
    intros _ _. now apply confined_ret.
  - assert (z <> 404) as Hz by now apply Z.eqb_neq.
    destruct z as [|p|p]; try apply confined_throw.
    do 9 (destruct p as [p|p|]; try apply confined_throw).
    now elim Hz.
Qed.

End Confined.

Lemma apiRequest_confined
  (w : controller) (fuel : nat) (endpoint : jsstring) (this : monitor)
  (sent : list request) :
  same_client (fst (snd (apiRequest fuel w endpoint (this, sent)))) this /\
  exists new,
    snd (snd (apiRequest fuel w endpoint (this, sent))) = new ++ sent /\
    Forall (own_request this) new.
Proof.
  enough (forall this0 s, same_client (fst s) this0 ->
            same_client (fst (snd (apiRequest fuel w endpoint s))) this0 /\
            exists new,
              snd (snd (apiRequest fuel w endpoint s)) = new ++ snd s /\
              Forall (own_request this0) new) as H
    by exact (H this (this, sent) (same_client_refl this)).
  revert endpoint. induction fuel as [|fuel IH]; intros endpoint this0 s Hs.
  - cbn [apiRequest fst snd]. split; [exact Hs|]. exists []. split; [reflexivity | constructor].
  - cbn [apiRequest].
    destruct (confined_try_catch this0 (fun _ => True) _ _
                (confined_apiRequest_try this0 w (normalize_endpoint endpoint))
                (confined_apiRequest_catch this0) s Hs) as (H1 & (new & H2 & H3) & _).
    destruct (try_catch (apiRequest_try w (normalize_endpoint endpoint)) apiRequest_catch s)
      as [[[payload|]|e] s1]; cbn [fst snd] in *.
    + split; [exact H1|]. exists new. now split.
    + destruct (IH (normalize_endpoint endpoint) this0 s1 H1) as (K1 & new' & K2 & K3).
      split; [exact K1|]. exists (new' ++ new). rewrite K2, H2, app_assoc.
      split; [reflexivity|]. apply Forall_app. now split.
    + split; [exact H1|]. exists new. now split.
Qed.

(** X9. Whatever the controller answers, [apiRequest] leaves the base
    URL, the key, the site and the TLS setting of the client as they
    were, and every call of axios it makes, in any number of
    activations, is the client's own: the login, which carries the key
    in its body and goes to [/api/auth/login] under the clean base URL,
    or a [GET] to a URL that starts with the clean base URL and carries
    no key or the client's in [X-API-Key].  Against a controller that
    never redirects these calls are all that goes out. *)
Theorem calls_stay_on_the_base
  (w : controller) (fuel : nat) (endpoint : jsstring) (this : monitor)
  (sent : list request) :
  same_client (fst (snd (apiRequest fuel w endpoint (this, sent)))) this /\
  (exists new,
     snd (snd (apiRequest fuel w endpoint (this, sent))) = new ++ sent /\
     Forall (own_request this) new) /\
  (never_redirects w ->
   on_the_wire w (snd (snd (apiRequest fuel w endpoint (this, sent))))
   = snd (snd (apiRequest fuel w endpoint (this, sent)))).
Proof.
  destruct (apiRequest_confined w fuel endpoint this sent) as [H1 H2].
  split; [exact H1|]. split; [exact H2|].
  intros Hn. now apply on_the_wire_calls.
Qed.

(** A client whose key was revoked: the request and the login both go
    to the controller, and nothing else goes out. *)
Lemma calls_stay_on_the_base_witness :
  on_the_wire revoked (snd (snd (apiRequest 1 revoked devices_endpoint (fresh_client, []))))
  = [login_request fresh_client;
     mkRequest false (lit "https://192.168.1.1/proxy/network/api/s/default/stat/device")
       None (Some (lit "KEY")) None None].
Proof.
  rewrite (proj2 (proj2 (calls_stay_on_the_base revoked 1 devices_endpoint fresh_client [])))
    by (intros sent req next o; discriminate).
  vm_compute. reflexivity.
Defined.

(** Where the controller redirects, axios repeats the request at the
    address the controller names, with the key. *)
Example apiRequest_follows_redirects :
  on_the_wire (redirecting (lit "https://elsewhere.example/") (Some (JArr [])))
    (snd (snd (apiRequest 1
                 (redirecting (lit "https://elsewhere.example/") (Some (JArr [])))
                 devices_endpoint (fresh_client, []))))
  = [mkRequest false (lit "https://elsewhere.example/") None (Some (lit "KEY")) None None;
     mkRequest false (lit "https://192.168.1.1/proxy/network/api/s/default/stat/device")
       None (Some (lit "KEY")) None None].
Proof. vm_compute. reflexivity. Qed.



(** The sites are counted by their [length], whatever they are: an
    object with a [length] of its own is taken at its word. *)
Example testConnection_reads_length :
  testConnection
    (fun endpoint => if str_eqb endpoint (lit "/api/sites")
                     then Ok (JObj [("length"%string, JNum 5)]) else Ok (JObj []))
  = (true, lit "Connected to UniFi controller. Found 5 site(s).").
Proof. vm_compute. reflexivity. Qed.

Lemma first_events_spec (api : jsstring -> result json) (limit : nat)
  (endpoints : list jsstring) :
  (Forall (silent api) endpoints /\ first_events api limit endpoints = []) \/
  (exists pre endpoint post raw,
     endpoints = pre ++ endpoint :: post /\ Forall (silent api) pre /\
     api endpoint = Ok raw /\ normalize_events raw <> [] /\
     first_events api limit endpoints = firstn limit (normalize_events raw)).
Proof.
  induction endpoints as [|e es IH]; cbn [first_events].
  - left. split; [constructor | reflexivity].
  - destruct (api e) as [raw|err] eqn:E.
    + destruct (normalize_events raw) as [|x xs] eqn:En.
      * destruct IH as [[Hall Hnil] | (pre & e' & post & raw' & -> & Hpre & He & Hn & Hr)].
        -- left. split; [|exact Hnil]. constructor; [|exact Hall].
           unfold silent. now rewrite E.
        -- right. exists (e :: pre), e', post, raw'.
           repeat split; auto. constructor; [|exact Hpre]. unfold silent. now rewrite E.
      * right. exists [], e, es, raw. rewrite En.
        repeat split; auto. discriminate.
    + destruct IH as [[Hall Hnil] | (pre & e' & post & raw' & -> & Hpre & He & Hn & Hr)].
      * left. split; [|exact Hnil]. constructor; [|exact Hall].
        unfold silent. now rewrite E.
      * right. exists (e :: pre), e', post, raw'.
        repeat split; auto. constructor; [|exact Hpre]. unfold silent. now rewrite E.
Qed.

(** X11. [getIntrusionEvents] never rejects and answers with at most
    [limit] events: those of the first of its four endpoints, in order,
    whose answer holds any, the endpoints before it having failed or
    answered without events; with none, the empty list. *)
Theorem getIntrusionEvents_first_answer
  (site : jsstring) (api : jsstring -> result json) (limit : nat) :
  exists events,
    getIntrusionEvents site api limit = Ok events /\
    (length events <= limit)%nat /\
    ((Forall (silent api) (intrusion_endpoints site) /\ events = []) \/
     (exists pre endpoint post raw,
        intrusion_endpoints site = pre ++ endpoint :: post /\
        Forall (silent api) pre /\
        api endpoint = Ok raw /\ normalize_events raw <> [] /\
        events = firstn limit (normalize_events raw))).
Proof.
  unfold getIntrusionEvents. eexists. split; [reflexivity|].
  fold (intrusion_endpoints site).
  destruct (first_events_spec api limit (intrusion_endpoints site))
    as [[Hall ->] | (pre & e & post & raw & Heq & Hpre & He & Hn & ->)].
  - split; [cbn; lia | now left].
  - split; [apply firstn_le_length|].
    right. exists pre, e, post, raw. auto.
Qed.

(** ** Counts and lists of the health metrics *)

Lemma filter_disjoint_length {A} (f g : A -> bool) (xs : list A) :
  (forall x, In x xs -> f x && g x = false) ->
  (length (filter f xs) + length (filter g xs) <= length xs)%nat.
Proof.
  induction xs as [|x xs IH]; intros H; cbn [filter length]; [lia|].
  specialize (IH (fun y Hy => H y (or_intror Hy))).
  pose proof (H x (or_introl eq_refl)) as Hx.
  destruct (f x), (g x); cbn [length] in *; try discriminate; lia.
Qed.

Lemma filter_r_field (k : string) (test : value -> bool) (xs kept : list json) :
  filter_r (fun x => bind (get k x) (fun v => Ok (test v))) xs = Ok kept ->
  kept = filter (fun x => test (field k x)) xs.
Proof.
  intros H. apply filter_r_ok in H as [f [Hf ->]].
  apply filter_ext_in. intros x Hx. specialize (Hf x Hx).
  apply bind_ok in Hf as [v [Hv Hf]]. apply get_ok in Hv as [_ ->].
  now injection Hf.
Qed.

Lemma filter_Forall {A} (f : A -> bool) (xs : list A) :
  Forall (fun x => f x = true /\ In x xs) (filter f xs).
Proof.
  apply Forall_forall. intros x Hx. apply filter_In in Hx. tauto.
Qed.

Lemma firstn_Forall {A} (P : A -> Prop) (n : nat) (xs : list A) :
  Forall P xs -> Forall P (firstn n xs).
Proof.
  intros H. revert n. induction H as [|x xs Hx _ IH]; intros [|n]; cbn [firstn];
    constructor; auto.
Qed.

Lemma local_counts
  (site : jsstring) (api : jsstring -> result json) (m : health_metrics) :
  UniFiMonitor.getHealthMetrics site api = Ok m ->
  0 <= online (UniFiMonitor.devices m) <= total (UniFiMonitor.devices m) /\
  0 <= offline (UniFiMonitor.devices m) <= total (UniFiMonitor.devices m) /\
  0 <= wireless (UniFiMonitor.clients m) /\ 0 <= wired (UniFiMonitor.clients m) /\
  wireless (UniFiMonitor.clients m) + wired (UniFiMonitor.clients m)
  <= c_total (UniFiMonitor.clients m).
Proof.
  intros H. apply rethrow_ok in H. cbv zeta in H.
  apply bind_ok in H as [on [Hon H]].
  apply bind_ok in H as [wl [Hwl H]].
  apply bind_ok in H as [wd [Hwd H]].
  injection H as <-.
  cbn [UniFiMonitor.devices UniFiMonitor.clients total online offline c_total wireless wired].
  apply filter_r_field in Hon, Hwl, Hwd. subst on wl wd. unfold len.
  pose proof (filter_length_le (fun x => is_num (field "state" x) 1)
                (catch_default (getDevices site api) [])) as H1.
  pose proof (filter_disjoint_length
                (fun x => is_bool (field "is_wired" x) false)
                (fun x => is_bool (field "is_wired" x) true)
                (catch_default (getClients site api) [])) as H2.
  assert (forall x : json,
            is_bool (field "is_wired" x) false && is_bool (field "is_wired" x) true = false)
    as Hdis by (intros x; destruct (field "is_wired" x) as [[|[|]| | | |]|]; reflexivity).
  specialize (H2 (fun x _ => Hdis x)). lia.
Qed.


(** X12. The counts of the local health metrics are consistent: the
    online devices are at most the devices, the offline count is never
    negative, and the wireless and the wired clients together are at
    most the clients (a client whose [is_wired] is not a boolean is in
    neither count). *)
Theorem local_counts_are_consistent
  (site : jsstring) (api : jsstring -> result json) (m : health_metrics) :
  UniFiMonitor.getHealthMetrics site api = Ok m ->
  0 <= online (UniFiMonitor.devices m) <= total (UniFiMonitor.devices m) /\
  0 <= offline (UniFiMonitor.devices m) <= total (UniFiMonitor.devices m) /\
  0 <= wireless (UniFiMonitor.clients m) /\ 0 <= wired (UniFiMonitor.clients m) /\
  wireless (UniFiMonitor.clients m) + wired (UniFiMonitor.clients m)
  <= c_total (UniFiMonitor.clients m).
Proof. apply local_counts. Qed.

Lemma local_counts_are_consistent_witness :
  exists m,
    UniFiMonitor.getHealthMetrics (lit "default")
      (serving [online_ap; offline_ap]
         [JObj [("mac"%string, JStr (lit "c1"))];
          JObj [("mac"%string, JStr (lit "c2")); ("is_wired"%string, JBool true)]]) = Ok m /\
    wireless (UniFiMonitor.clients m) + wired (UniFiMonitor.clients m)
    <= c_total (UniFiMonitor.clients m) /\
    c_total (UniFiMonitor.clients m) = 2 /\ wired (UniFiMonitor.clients m) = 1 /\
    wireless (UniFiMonitor.clients m) = 0.
Proof.
  destruct (UniFiMonitor.getHealthMetrics (lit "default")
              (serving [online_ap; offline_ap]
                 [JObj [("mac"%string, JStr (lit "c1"))];
                  JObj [("mac"%string, JStr (lit "c2")); ("is_wired"%string, JBool true)]]))
    as [m|e] eqn:E; [|vm_compute in E; discriminate].
  exists m. split; [reflexivity|].
  split; [exact (proj2 (proj2 (proj2 (proj2 (local_counts_are_consistent _ _ _ E)))))|].
  vm_compute in E. injection E as <-. repeat split; reflexivity.
Defined.

Lemma local_metrics_lists (site : jsstring) (api : jsstring -> result json)
  (m : health_metrics) :
  UniFiMonitor.getHealthMetrics site api = Ok m ->
  UniFiMonitor.devicesList m
  = firstn MAX_LIST (filter UniFiMonitor.isValidDevice
                       (catch_default (getDevices site api) [])) /\
  UniFiMonitor.clientsList m
  = firstn MAX_LIST (filter UniFiMonitor.isValidClient
                       (catch_default (getClients site api) [])) /\
  total (UniFiMonitor.devices m) = len (catch_default (getDevices site api) []) /\
  c_total (UniFiMonitor.clients m) = len (catch_default (getClients site api) []).
Proof.
  intros H. apply rethrow_ok in H. cbv zeta in H.
  apply bind_ok in H as [on [Hon H]].
  apply bind_ok in H as [wl [Hwl H]].
  apply bind_ok in H as [wd [Hwd H]].
  injection H as <-. repeat split; reflexivity.
Qed.

(** X13. The lists of the local health metrics hold at most 250 entries
    each, every one an entry of the controller's answer: a device with
    a non-blank [mac] or [mac_address], a client with a non-blank MAC,
    address or name.  Entries without are counted in the totals and
    left out of the lists. *)
Theorem local_lists_are_capped
  (site : jsstring) (api : jsstring -> result json) (m : health_metrics) :
  UniFiMonitor.getHealthMetrics site api = Ok m ->
  (length (UniFiMonitor.devicesList m) <= 250)%nat /\
  (length (UniFiMonitor.clientsList m) <= 250)%nat /\
  Forall (fun d => UniFiMonitor.isValidDevice d = true /\
                   In d (catch_default (getDevices site api) []))
    (UniFiMonitor.devicesList m) /\
  Forall (fun c => UniFiMonitor.isValidClient c = true /\
                   In c (catch_default (getClients site api) []))
    (UniFiMonitor.clientsList m) /\
  Z.of_nat (length (UniFiMonitor.devicesList m)) <= total (UniFiMonitor.devices m) /\
  Z.of_nat (length (UniFiMonitor.clientsList m)) <= c_total (UniFiMonitor.clients m).
Proof.
  intros H. destruct (local_metrics_lists site api m H) as (-> & -> & -> & ->).
  split; [apply firstn_le_length|]. split; [apply firstn_le_length|].
  split; [apply firstn_Forall, filter_Forall|].
  split; [apply firstn_Forall, filter_Forall|].
  unfold len. rewrite !length_firstn.
  pose proof (filter_length_le UniFiMonitor.isValidDevice
                (catch_default (getDevices site api) [])).
  pose proof (filter_length_le UniFiMonitor.isValidClient
                (catch_default (getClients site api) [])).
  lia.
Qed.

Lemma local_lists_are_capped_witness :
  exists m,
    UniFiMonitor.getHealthMetrics (lit "default")
      (serving [online_ap; JObj [("name"%string, JStr (lit "no address"))]] []) = Ok m /\
    (length (UniFiMonitor.devicesList m) <= 250)%nat /\
    UniFiMonitor.devicesList m = [online_ap] /\ total (UniFiMonitor.devices m) = 2.
Proof.
  destruct (UniFiMonitor.getHealthMetrics (lit "default")
              (serving [online_ap; JObj [("name"%string, JStr (lit "no address"))]] []))
    as [m|e] eqn:E; [|vm_compute in E; discriminate].
  exists m. split; [reflexivity|].
  split; [exact (proj1 (local_lists_are_capped _ _ _ E))|].
  vm_compute in E. injection E as <-. split; reflexivity.
Defined.

Lemma some_r_null (pre post : list json) :
  (forall d, In d pre -> statusless d) ->
  some_r has_status (pre ++ JNull :: post) = Throw (TypeError_null "state").
Proof.
  induction pre as [|d pre IH]; intros H; cbn [app some_r].
  - reflexivity.
  - rewrite statusless_has_no_status by (apply H; now left). cbn [bind].
    apply IH. intros x Hx. apply H. now right.
Qed.



(** X15. The counts of the cloud health metrics are consistent: the
    online devices are between none and all, the offline count is never
    negative, the wireless and the wired clients add up to the clients;
    and its lists are capped, the sites at 100 and the devices and
    clients at 250. *)
Theorem cloud_counts_are_consistent
  (StringToNumber : jsstring -> option Z) (sites devices_ clients_ : json)
  (m : cloud_metrics) :
  UniFiSiteManagerMonitor.getHealthMetrics StringToNumber sites devices_ clients_ = Ok m ->
  0 <= online (devices m) <= total (devices m) /\
  0 <= offline (devices m) <= total (devices m) /\
  0 <= wireless (clients m) <= c_total (clients m) /\
  wireless (clients m) + wired (clients m) = c_total (clients m) /\
  (length (sitesList m) <= 100)%nat /\ (length (devicesList m) <= 250)%nat /\
  (length (rawDeviceList m) <= 250)%nat /\ (length (clientsList m) <= 250)%nat.
Proof.
  unfold UniFiSiteManagerMonitor.getHealthMetrics. cbv zeta. intros H.
  apply bind_ok in H as [on [Hon H]].
  assert (devices m = mkDeviceCounts (len (array_or_empty devices_)) on
                        (len (array_or_empty devices_) - on) /\
          clients m = mkClientCounts (len (array_or_empty clients_))
                        (len (filter is_wireless (array_or_empty clients_)))
                        (len (array_or_empty clients_)
                         - len (filter is_wireless (array_or_empty clients_))) /\
          sitesList m = firstn 100 (array_or_empty sites) /\
          devicesList m = firstn MAX_LIST (filter (isValidDevice) (array_or_empty devices_)) /\
          rawDeviceList m = firstn MAX_LIST (array_or_empty devices_) /\
          clientsList m = firstn MAX_LIST (filter isValidClient (array_or_empty clients_)))
    as (-> & -> & -> & -> & -> & ->)
    by (injection H as <-; repeat split; reflexivity).
  clear H. cbn [total online offline c_total wireless wired].
  assert (0 <= on <= len (array_or_empty devices_)) as Hrange.
  { pose proof (filter_length_le (_deviceIsOnline StringToNumber)
                  (array_or_empty devices_)) as Hle.
    destruct ((0 <? len (array_or_empty devices_)) &&
              (len (filter (_deviceIsOnline StringToNumber) (array_or_empty devices_)) =? 0)).
    - apply bind_ok in Hon as [b [_ Hon]].
      destruct b; cbn [negb] in Hon; injection Hon as <-; unfold len in *; lia.
    - injection Hon as <-. unfold len in *. lia. }
  pose proof (filter_length_le is_wireless (array_or_empty clients_)) as Hw.
  unfold len in *.
  repeat split; try lia; apply firstn_le_length.
Qed.

Lemma cloud_counts_are_consistent_witness :
  exists m,
    UniFiSiteManagerMonitor.getHealthMetrics (fun _ => None) (JArr [])
      (JArr [online_ap; offline_ap; plain_ap]) (JArr [JObj []]) = Ok m /\
    0 <= online (devices m) <= total (devices m) /\
    wired (clients m) = 1.
Proof.
  destruct (UniFiSiteManagerMonitor.getHealthMetrics (fun _ => None) (JArr [])
              (JArr [online_ap; offline_ap; plain_ap]) (JArr [JObj []]))
    as [m|e] eqn:E; [|vm_compute in E; discriminate].
  exists m. split; [reflexivity|].
  split; [exact (proj1 (cloud_counts_are_consistent _ _ _ _ _ E))|].
  vm_compute in E. injection E as <-. reflexivity.
Defined.

(** ** The aggregator, further *)

Lemma fetch_controller_id (api_of : controller_config -> jsstring -> result json)
  (ce : list json -> result (list json)) (cfg : controller_config) :
  id (fetch_controller api_of ce cfg) = cfg_id cfg /\
  name (fetch_controller api_of ce cfg) = display_name cfg.
Proof.
  unfold fetch_controller. cbv zeta.
  destruct (UniFiMonitor.getHealthMetrics (site_of cfg) (api_of cfg)); split; reflexivity.
Qed.

Lemma getMonitoringData_controllers (api_of : controller_config -> jsstring -> result json)
  (ce : list json -> result (list json)) (cfgs : list controller_config) :
  controllers (getMonitoringData api_of ce cfgs)
  = map (fetch_controller api_of ce) (filter cfg_enabled cfgs).
Proof.
  unfold getMonitoringData. cbv zeta.
  destruct (filter cfg_enabled cfgs) as [|c cs]; [reflexivity|].
  destruct (filter success (map (fetch_controller api_of ce) (c :: cs))); reflexivity.
Qed.

(** X16. [getMonitoringData] reports the enabled controllers of the
    configuration, each once and in the order of the configuration,
    under its [id] and under its name or, without a name, its base URL;
    a disabled controller is not reported and changes nothing in the
    report of the others. *)
Theorem enabled_controllers_are_reported
  (api_of : controller_config -> jsstring -> result json)
  (ce : list json -> result (list json)) (cfgs : list controller_config) :
  map id (controllers (getMonitoringData api_of ce cfgs))
  = map cfg_id (filter cfg_enabled cfgs) /\
  map name (controllers (getMonitoringData api_of ce cfgs))
  = map display_name (filter cfg_enabled cfgs) /\
  controllers (getMonitoringData api_of ce cfgs)
  = controllers (getMonitoringData api_of ce (filter cfg_enabled cfgs)).
Proof.
  rewrite !getMonitoringData_controllers, !map_map.
  split; [|split].
  - apply map_ext. intros cfg. apply fetch_controller_id.
  - apply map_ext. intros cfg. apply fetch_controller_id.
  - f_equal. induction cfgs as [|c cs IH]; cbn [filter]; [reflexivity|].
    destruct (cfg_enabled c) eqn:E; [|exact IH].
    cbn [filter]. rewrite E. now f_equal.
Qed.

Lemma sum_over_from (f g : health_metrics -> Z) (ok : list controller_result) :
  (forall c m, In c ok -> metrics c = Some m -> 0 <= f m <= g m) ->
  forall a b, 0 <= a <= b ->
    0 <= fold_left (fun s c => s + match metrics c with Some m => f m | None => 0 end) ok a
    <= fold_left (fun s c => s + match metrics c with Some m => g m | None => 0 end) ok b.
Proof.
  induction ok as [|c ok IH]; intros H a b Hab; cbn [fold_left]; [exact Hab|].
  apply IH; [intros c' m Hc; apply H; now right|].
  destruct (metrics c) as [m|] eqn:E; [|lia].
  pose proof (H c m (or_introl eq_refl) E). lia.
Qed.

Lemma sum_over_le (f g : health_metrics -> Z) (ok : list controller_result) :
  (forall c m, In c ok -> metrics c = Some m -> 0 <= f m <= g m) ->
  0 <= sum_over f ok <= sum_over g ok.
Proof. intros H. apply sum_over_from; [exact H | lia]. Qed.

Lemma fetch_controller_metrics (api_of : controller_config -> jsstring -> result json)
  (ce : list json -> result (list json)) (cfg : controller_config) (m : health_metrics) :
  metrics (fetch_controller api_of ce cfg) = Some m ->
  UniFiMonitor.getHealthMetrics (site_of cfg) (api_of cfg) = Ok m.
Proof.
  unfold fetch_controller. cbv zeta.
  destruct (UniFiMonitor.getHealthMetrics (site_of cfg) (api_of cfg)) as [m'|e];
    cbn [bind metrics]; [now intros [= ->] | discriminate].
Qed.

(** X17. The fleet summary is consistent: it exists exactly when a
    controller succeeded; its controller total is the number of enabled
    controllers, of which at least one and at most all are online; and
    its online devices are at most its devices, so that no offline
    count of it is negative. *)
Theorem summary_is_consistent
  (api_of : controller_config -> jsstring -> result json)
  (ce : list json -> result (list json)) (cfgs : list controller_config) :
  (unifi_summary (getMonitoringData api_of ce cfgs) = None <->
   forall c, In c (controllers (getMonitoringData api_of ce cfgs)) ->
             Aggregator.success c = false) /\
  (forall s, unifi_summary (getMonitoringData api_of ce cfgs) = Some s ->
     controllers_total s = Z.of_nat (length (filter cfg_enabled cfgs)) /\
     1 <= controllers_online s <= controllers_total s /\
     controllers_offline s = controllers_total s - controllers_online s /\
     0 <= online (sum_devices s) <= total (sum_devices s) /\
     0 <= offline (sum_devices s)).
Proof.
  rewrite getMonitoringData_controllers.
  unfold getMonitoringData. cbv zeta.
  destruct (filter cfg_enabled cfgs) as [|c0 cs0] eqn:Een.
  { split; [split; [intros _ c [] | reflexivity] | discriminate]. }
  rewrite <- Een.
  set (results := map (fetch_controller api_of ce) (filter cfg_enabled cfgs)).
  destruct (filter Aggregator.success results) as [|k ks] eqn:Eok.
  - rewrite Een. cbn [unifi_summary]. fold results. rewrite <- Een.
    split; [|discriminate]. split; [|reflexivity].
    intros _ c Hc. destruct (Aggregator.success c) eqn:E; [|reflexivity].
    assert (In c (filter Aggregator.success results)) as Hin
      by (apply filter_In; split; [exact Hc | exact E]).
    rewrite Eok in Hin. destruct Hin.
  - rewrite Een. cbn [unifi_summary]. fold results. rewrite <- Een, <- Eok.
    split.
    + split; [discriminate|]. intros H.
      assert (In k (filter Aggregator.success results)) as Hin by (rewrite Eok; now left).
      apply filter_In in Hin as [Hin Hs]. rewrite (H k Hin) in Hs. discriminate.
    + intros s [= <-].
      cbn [controllers_total controllers_online controllers_offline sum_devices
           total online offline].
      pose proof (filter_length_le Aggregator.success results) as Hle.
      assert (length results = length (filter cfg_enabled cfgs)) as Hlen
        by (unfold results; apply length_map).
      assert (1 <= length (filter Aggregator.success results))%nat as Hpos
        by (rewrite Eok; cbn; lia).
      assert (0 <= sum_over (fun m => online (UniFiMonitor.devices m))
                     (filter Aggregator.success results)
              <= sum_over (fun m => total (UniFiMonitor.devices m))
                   (filter Aggregator.success results)) as Hsum.
      { apply sum_over_le. intros c m Hc Hm.
        apply filter_In in Hc as [Hc _]. unfold results in Hc.
        apply in_map_iff in Hc as [cfg [<- _]].
        apply fetch_controller_metrics in Hm.
        apply (local_counts _ _ _ Hm). }
      repeat split; try lia.
Qed.

(** ** The requests of the cloud-fleet client *)


Lemma cloud_request_run (w : controller) (this : SiteManagerApi.client) (path : jsstring)
  (sent : list SiteManagerApi.http_request) (r : response) :
  SiteManagerApi.apiKey this <> [] ->
  settle maxRedirects (w sent (cloud_request this path)) = Answered r ->
  SiteManagerApi.request w this path sent
  = (if status r <? 500
     then if is_401_403 (status r)
          then Throw (Error (lit "UniFi Site Manager API key invalid or expired. Check Settings "
                             ++ [8594%N] ++ lit " API Keys (EA) or API section (GA)."))
          else if status r =? 429
          then Throw (Error (lit "UniFi Site Manager rate limit exceeded. Retry later."))
          else if (status r <? 200) || (300 <=? status r)
          then Throw (Error (lit "UniFi Site Manager API returned " ++
                             num_to_string (status r)))
          else Ok (data r)
     else Throw (mkError (lit "Request failed with status code " ++
                          num_to_string (status r))
                   (Some (lit "ERR_BAD_RESPONSE")) (Some (status r))),
     cloud_request this path :: sent).
Proof.
  intros Hk Hw. unfold SiteManagerApi.request, SiteManagerApi.axios_get.
  destruct (SiteManagerApi.apiKey this) eqn:Ek; [now elim Hk|].
  unfold cloud_request in Hw. rewrite Hw.
  cbn [validateStatus SiteManagerApi.getOptions].
  destruct (status r <? 500); [|reflexivity].
  destruct (is_401_403 (status r)); [reflexivity|].
  destruct (status r =? 429); [reflexivity|].
  destruct ((status r <? 200) || (300 <=? status r)); reflexivity.
Qed.

Lemma cloud_request_state (w : controller) (this : SiteManagerApi.client) (path : jsstring)
  (sent : list SiteManagerApi.http_request) :
  SiteManagerApi.apiKey this <> [] ->
  snd (SiteManagerApi.request w this path sent) = cloud_request this path :: sent.
Proof.
  intros Hk. unfold SiteManagerApi.request, SiteManagerApi.axios_get.
  destruct (SiteManagerApi.apiKey this) eqn:Ek; [now elim Hk|].
  fold (cloud_request this path).
  destruct (settle maxRedirects (w sent (cloud_request this path))) as [r|c m];
    [|reflexivity].
  destruct (validateStatus _ _); [|reflexivity].
  destruct (is_401_403 (status r)); [reflexivity|].
  destruct (status r =? 429); [reflexivity|].
  destruct ((status r <? 200) || (300 <=? status r)); reflexivity.
Qed.

Lemma cloud_request_outcomes
  (w : controller) (this : SiteManagerApi.client) (path : jsstring)
  (sent : list SiteManagerApi.http_request) :
  (SiteManagerApi.apiKey this = [] ->
   SiteManagerApi.request w this path sent
   = (Throw (Error (lit "UniFi Site Manager API key not configured")), sent)) /\
  (forall d sent',
     SiteManagerApi.request w this path sent = (Ok d, sent') <->
     SiteManagerApi.apiKey this <> [] /\
     sent' = cloud_request this path :: sent /\
     x_api_key (cloud_request this path) = Some (SiteManagerApi.apiKey this) /\
     exists r, settle maxRedirects (w sent (cloud_request this path)) = Answered r /\
               200 <= status r < 300 /\ d = data r).
Proof.
  split.
  - intros Hk. unfold SiteManagerApi.request. now rewrite Hk.
  - intros d sent'. split.
    + intros H.
      assert (SiteManagerApi.apiKey this <> []) as Hk.
      { intros Hk. unfold SiteManagerApi.request in H. rewrite Hk in H. discriminate. }
      split; [exact Hk|].
      pose proof (cloud_request_state w this path sent Hk) as Hs.
      rewrite H in Hs. cbn [snd] in Hs. split; [exact Hs|]. split; [reflexivity|].
      destruct (settle maxRedirects (w sent (cloud_request this path))) as [r|c m] eqn:Hw.
      * rewrite (cloud_request_run w this path sent r Hk Hw) in H.
        exists r. split; [reflexivity|].
        destruct (status r <? 500); [|discriminate].
        destruct (is_401_403 (status r)); [discriminate|].
        destruct (status r =? 429); [discriminate|].
        destruct ((status r <? 200) || (300 <=? status r)) eqn:E; [discriminate|].
        apply orb_false_iff in E as [E1 E2]. apply Z.ltb_ge in E1. apply Z.leb_gt in E2.
        split; [lia | congruence].
      * unfold SiteManagerApi.request, SiteManagerApi.axios_get in H.
        destruct (SiteManagerApi.apiKey this) eqn:Ek; [now elim Hk|].
        fold (cloud_request this path) in H. rewrite Hw in H. discriminate.
    + intros (Hk & -> & _ & r & Hw & Hs & ->).
      rewrite (cloud_request_run w this path sent r Hk Hw).
      replace (status r <? 500) with true by (symmetry; apply Z.ltb_lt; lia).
      replace (is_401_403 (status r)) with false
        by (symmetry; unfold is_401_403; apply orb_false_iff; split; apply Z.eqb_neq; lia).
      replace (status r =? 429) with false by (symmetry; apply Z.eqb_neq; lia).
      replace ((status r <? 200) || (300 <=? status r)) with false
        by (symmetry; apply orb_false_iff; split; [apply Z.ltb_ge | apply Z.leb_gt]; lia).
      reflexivity.
Qed.

(** X18. The cloud client's [request]: without an API key it throws
    before anything is sent; it resolves, with the body of the answer,
    exactly when its one call of axios, which carries the key in
    [X-API-Key], ends, after the redirects that axios follows, in an
    answer with a status from 200 to 299. *)
Theorem cloud_request_resolves_on_2xx
  (w : controller) (this : SiteManagerApi.client) (path : jsstring)
  (sent : list SiteManagerApi.http_request) :
  (SiteManagerApi.apiKey this = [] ->
   SiteManagerApi.request w this path sent
   = (Throw (Error (lit "UniFi Site Manager API key not configured")), sent)) /\
  (forall d sent',
     SiteManagerApi.request w this path sent = (Ok d, sent') <->
     SiteManagerApi.apiKey this <> [] /\
     sent' = cloud_request this path :: sent /\
     x_api_key (cloud_request this path) = Some (SiteManagerApi.apiKey this) /\
     exists r, settle maxRedirects (w sent (cloud_request this path)) = Answered r /\
               200 <= status r < 300 /\ d = data r).
Proof. apply cloud_request_outcomes. Qed.

Section CloudLoops.

Variable w : controller.
Variable this : SiteManagerApi.client.
Hypothesis Hw : stateless w.
Hypothesis Hkey : SiteManagerApi.apiKey this <> [].

Lemma request_answers (path : jsstring) (d : value)
  (sent : list SiteManagerApi.http_request) :
  answers w this path d ->
  SiteManagerApi.request w this path sent = (Ok d, cloud_request this path :: sent).
Proof.
  intros (r & Hr & Hs & <-). rewrite (Hw [] sent) in Hr.
  rewrite (cloud_request_run w this path sent r Hkey Hr).
  replace (status r <? 500) with true by (symmetry; apply Z.ltb_lt; lia).
  replace (is_401_403 (status r)) with false
    by (symmetry; unfold is_401_403; apply orb_false_iff; split; apply Z.eqb_neq; lia).
  replace (status r =? 429) with false by (symmetry; apply Z.eqb_neq; lia).
  replace ((status r <? 200) || (300 <=? status r)) with false
    by (symmetry; apply orb_false_iff; split; [apply Z.ltb_ge | apply Z.leb_gt]; lia).
  reflexivity.
Qed.

Lemma request_refuses (path : jsstring) (sent : list SiteManagerApi.http_request) :
  refuses w this path ->
  exists e, SiteManagerApi.request w this path sent
            = (Throw e, cloud_request this path :: sent).
Proof.
  intros Href.
  pose proof (cloud_request_state w this path sent Hkey) as Hs.
  destruct (SiteManagerApi.request w this path sent) as [[d|e] sent'] eqn:E;
    cbn [snd] in Hs; subst sent'; [|eauto].
  exfalso.
  destruct (settle maxRedirects (w sent (cloud_request this path))) as [r|c m] eqn:Hr.
  - rewrite (cloud_request_run w this path sent r Hkey Hr) in E.
    rewrite (Hw sent []) in Hr. specialize (Href r Hr).
    destruct (status r <? 500); [|discriminate].
    destruct (is_401_403 (status r)); [discriminate|].
    destruct (status r =? 429); [discriminate|].
    destruct ((status r <? 200) || (300 <=? status r)) eqn:E2; [discriminate|].
    apply orb_false_iff in E2 as [E1 E2]. apply Z.ltb_ge in E1. apply Z.leb_gt in E2. lia.
  - unfold SiteManagerApi.request, SiteManagerApi.axios_get in E.
    destruct (SiteManagerApi.apiKey this); [now elim Hkey|].
    fold (cloud_request this path) in E. rewrite Hr in E. discriminate.
Qed.

Lemma answers_or_refuses (path : jsstring) :
  refuses w this path \/ exists d, answers w this path d.
Proof.
  unfold refuses, answers.
  destruct (settle maxRedirects (w [] (cloud_request this path))) as [r|c m];
    [|left; discriminate].
  destruct (Z_le_dec 200 (status r)) as [H1|H1];
    [destruct (Z_lt_dec (status r) 300) as [H2|H2]|].
  - right. exists (data r), r. auto.
  - left. intros r' [= <-]. lia.
  - left. intros r' [= <-]. lia.
Qed.

(** The loop asks the paths in order, one request each, and ends at
    the first path whose answer its body returns on. *)
Lemma try_each_spec {A} (on_answer : value -> option A) (dflt : A)
  (paths : list jsstring) :
  forall sent,
    (Forall (fun p => refuses w this p \/
                      exists d, answers w this p d /\ on_answer d = None) paths /\
     SiteManagerApi.try_each w this on_answer dflt paths sent
     = (Ok dflt, cloud_requests this paths ++ sent)) \/
    (exists pre p post d a,
       paths = pre ++ p :: post /\
       Forall (fun p => refuses w this p \/
                        exists d, answers w this p d /\ on_answer d = None) pre /\
       answers w this p d /\ on_answer d = Some a /\
       SiteManagerApi.try_each w this on_answer dflt paths sent
       = (Ok a, cloud_requests this (pre ++ [p]) ++ sent)).
Proof.
  unfold cloud_requests.
  induction paths as [|p ps IH]; intros sent; cbn [SiteManagerApi.try_each].
  - left. split; [constructor | reflexivity].
  - assert (forall l, rev (map (cloud_request this) (p :: l)) ++ sent
                      = rev (map (cloud_request this) l) ++ cloud_request this p :: sent)
      as Hrev by (intros l; cbn [map rev]; now rewrite <- app_assoc).
    destruct (answers_or_refuses p) as [Href | [d Hd]].
    + destruct (request_refuses p sent Href) as [e ->].
      destruct (IH (cloud_request this p :: sent))
        as [[Hall ->] | (pre & q & post & d & a & -> & Hpre & Hq & Ha & ->)].
      * left. split; [constructor; [now left | exact Hall] | now rewrite Hrev].
      * right. exists (p :: pre), q, post, d, a.
        split; [reflexivity|]. split; [constructor; [now left | exact Hpre]|].
        split; [exact Hq|]. split; [exact Ha|].
        change ((p :: pre) ++ [q]) with (p :: (pre ++ [q])). now rewrite Hrev.
    + rewrite (request_answers p d sent Hd).
      destruct (on_answer d) as [a|] eqn:Ea.
      * right. exists [], p, ps, d, a. repeat split; auto.
      * destruct (IH (cloud_request this p :: sent))
          as [[Hall ->] | (pre & q & post & d' & a & -> & Hpre & Hq & Ha & ->)].
        -- left. split; [constructor; [right; eauto | exact Hall] | now rewrite Hrev].
        -- right. exists (p :: pre), q, post, d', a.
           split; [reflexivity|]. split; [constructor; [right; eauto | exact Hpre]|].
           split; [exact Hq|]. split; [exact Ha|].
           change ((p :: pre) ++ [q]) with (p :: (pre ++ [q])). now rewrite Hrev.
Qed.

Lemma try_each_total_spec {A} (f : value -> A) (dflt : A) (paths : list jsstring)
  (sent : list SiteManagerApi.http_request) :
  (Forall (refuses w this) paths /\
   SiteManagerApi.try_each w this (fun d => Some (f d)) dflt paths sent
   = (Ok dflt, cloud_requests this paths ++ sent)) \/
  (exists pre p post d,
     paths = pre ++ p :: post /\ Forall (refuses w this) pre /\ answers w this p d /\
     SiteManagerApi.try_each w this (fun d => Some (f d)) dflt paths sent
     = (Ok (f d), cloud_requests this (pre ++ [p]) ++ sent)).
Proof.
  assert (forall l,
            Forall (fun p => refuses w this p \/
                             exists d, answers w this p d /\ Some (f d) = None) l ->
            Forall (refuses w this) l) as Hall.
  { intros l H. eapply Forall_impl; [|exact H].
    intros p [Hp | [d [_ Hd]]]; [exact Hp | discriminate]. }
  destruct (try_each_spec (fun d => Some (f d)) dflt paths sent)
    as [[H1 H2] | (pre & p & post & d & a & Hp & Hpre & Hd & Ha & Hr)].
  - left. split; [now apply Hall | exact H2].
  - right. exists pre, p, post, d. injection Ha as <-. auto.
Qed.

End CloudLoops.

(** X19. Against an API whose answers do not depend on earlier
    requests, [_tryPaths] and [getSites] of a client with a key ask
    their paths in order, one call of axios each, and stop at the first
    path whose call ends, after the redirects that axios follows, in an
    answer with a 2xx status: [_tryPaths] resolves to its body
    ([undefined] for [null]), [getSites] to the list extracted from it,
    empty or not; when no path is answered so, they resolve to
    [undefined] and to the empty list after one call for each path. *)
Theorem cloud_loops_stop_at_first_answer
  (w : controller) (this : SiteManagerApi.client) (paths : list jsstring)
  (sent : list SiteManagerApi.http_request) :
  stateless w -> SiteManagerApi.apiKey this <> [] ->
  ((Forall (refuses w this) paths /\
    SiteManagerApi._tryPaths w this paths sent
    = (Ok None, cloud_requests this paths ++ sent)) \/
   (exists pre p post d,
      paths = pre ++ p :: post /\ Forall (refuses w this) pre /\ answers w this p d /\
      SiteManagerApi._tryPaths w this paths sent
      = (Ok (SiteManagerApi.defined d), cloud_requests this (pre ++ [p]) ++ sent))) /\
  ((Forall (refuses w this) SiteManagerApi.sites_paths /\
    SiteManagerApi.getSites w this sent
    = (Ok [], cloud_requests this SiteManagerApi.sites_paths ++ sent)) \/
   (exists pre p post d,
      SiteManagerApi.sites_paths = pre ++ p :: post /\
      Forall (refuses w this) pre /\ answers w this p d /\
      SiteManagerApi.getSites w this sent
      = (Ok (SiteManagerApi._extractArray d
               ["data"; "sites"; "items"; "results"; "entries"]%string),
         cloud_requests this (pre ++ [p]) ++ sent))).
Proof.
  intros Hw Hkey. split.
  - apply (try_each_total_spec w this Hw Hkey SiteManagerApi.defined None paths sent).
  - apply (try_each_total_spec w this Hw Hkey
             (fun d => SiteManagerApi._extractArray d
                         ["data"; "sites"; "items"; "results"; "entries"]%string)
             [] SiteManagerApi.sites_paths sent).
Qed.

Lemma cloud_loops_stop_at_first_answer_witness :
  stateless (sites_only []) /\
  ((Forall (refuses (sites_only []) cloud_client) SiteManagerApi.sites_paths /\
    SiteManagerApi.getSites (sites_only []) cloud_client []
    = (Ok [], cloud_requests cloud_client SiteManagerApi.sites_paths ++ [])) \/
   (exists pre p post d,
      SiteManagerApi.sites_paths = pre ++ p :: post /\
      Forall (refuses (sites_only []) cloud_client) pre /\
      answers (sites_only []) cloud_client p d /\
      SiteManagerApi.getSites (sites_only []) cloud_client []
      = (Ok (SiteManagerApi._extractArray d
               ["data"; "sites"; "items"; "results"; "entries"]%string),
         cloud_requests cloud_client (pre ++ [p]) ++ []))) /\
  SiteManagerApi.getSites (sites_only []) cloud_client []
  = (Ok [], cloud_requests cloud_client
              [lit "/api/list-sites"; lit "/list-sites"; lit "/api/sites"]).
Proof.
  assert (stateless (sites_only [])) as Hs by (intros s1 s2 req; reflexivity).
  split; [exact Hs|]. split.
  - exact (proj2 (cloud_loops_stop_at_first_answer (sites_only []) cloud_client
                    SiteManagerApi.sites_paths [] Hs ltac:(discriminate))).
  - vm_compute. reflexivity.
Defined.

Lemma assoc_single (key k : string) (v : json) :
  assoc key [(k, v)] = if String.eqb key k then Some v else None.
Proof. reflexivity. Qed.

Lemma extract_from_single (k : string) (v : json) (arr : list json) (keys : list string) :
  SiteManagerApi.check (Some v) = Some arr -> In k keys ->
  SiteManagerApi.extract_from (JObj [(k, v)]) keys = arr.
Proof.
  intros Hc. induction keys as [|key keys IH]; intros Hin; [destruct Hin|].
  cbn [SiteManagerApi.extract_from]. unfold field, opt_get. rewrite assoc_single.
  destruct (String.eqb key k) eqn:E.
  - now rewrite Hc.
  - cbn [SiteManagerApi.check]. apply IH.
    destruct Hin as [-> | Hin]; [|exact Hin].
    rewrite String.eqb_refl in E. discriminate.
Qed.

Lemma extract_from_first (data : json) (keys : list string) :
  SiteManagerApi.extract_from data keys
  = match find (fun k => is_some (SiteManagerApi.check (field k data))) keys with
    | Some k => match SiteManagerApi.check (field k data) with
                | Some arr => arr
                | None => []
                end
    | None => []
    end.
Proof.
  induction keys as [|k keys IH]; [reflexivity|].
  cbn [SiteManagerApi.extract_from find].
  destruct (SiteManagerApi.check (field k data)) as [arr|] eqn:E; cbn [is_some].
  - now rewrite E.
  - exact IH.
Qed.

Lemma first_not_null (f : string -> value) (ks : list string) :
  fold_right nullish None (map f ks)
  = match find (fun k => negb (absent (f k))) ks with
    | Some k => f k
    | None => None
    end.
Proof.
  induction ks as [|k ks IH]; [reflexivity|]. cbn [map fold_right find].
  destruct (f k) as [[]|] eqn:E; cbn [nullish absent negb]; try exact IH;
    symmetry; exact E.
Qed.

(** X20. [_extractArray] undoes the envelopes of the cloud API.  A list
    comes back as it is, [null] and [undefined] give the empty list,
    and so does a number, a string or a boolean.  In an object it
    looks under the keys it is given, in their order, and answers with
    the first list that [check] finds there, or with the empty list.
    [check] finds a list in a list itself and, in an object, under the
    first of the inner keys whose value is neither [null] nor absent:
    that value when it is a list, the list under its [devices] when it
    is an object that has one.  So an inner key that comes first with a
    value that is no list hides the inner keys after it. *)
Theorem extractArray_envelopes :
  (forall xs keys, SiteManagerApi._extractArray (Some (JArr xs)) keys = xs) /\
  (forall keys,
     SiteManagerApi._extractArray None keys = [] /\
     SiteManagerApi._extractArray (Some JNull) keys = [] /\
     (forall n, SiteManagerApi._extractArray (Some (JNum n)) keys = []) /\
     (forall str, SiteManagerApi._extractArray (Some (JStr str)) keys = []) /\
     (forall b, SiteManagerApi._extractArray (Some (JBool b)) keys = [])) /\
  (forall fields keys,
     SiteManagerApi._extractArray (Some (JObj fields)) keys
     = match find (fun k => is_some (SiteManagerApi.check (assoc k fields))) keys with
       | Some k => match SiteManagerApi.check (assoc k fields) with
                   | Some arr => arr
                   | None => []
                   end
       | None => []
       end) /\
  (forall xs, SiteManagerApi.check (Some (JArr xs)) = Some xs) /\
  (forall inner,
     SiteManagerApi.check (Some (JObj inner))
     = match find (fun i => negb (absent (assoc i inner))) inner_keys with
       | Some i =>
           match assoc i inner with
           | Some (JArr xs) => Some xs
           | Some (JObj deeper) =>
               match assoc "devices" deeper with
               | Some (JArr ds) => Some ds
               | _ => None
               end
           | _ => None
           end
       | None => None
       end) /\
  (forall val,
     match val with Some (JArr _) | Some (JObj _) => False | _ => True end ->
     SiteManagerApi.check val = None) /\
  (forall xs keys k inner, In k keys -> In inner inner_keys ->
     SiteManagerApi._extractArray (Some (JObj [(k, JArr xs)])) keys = xs /\
     SiteManagerApi._extractArray (Some (JObj [(k, JObj [(inner, JArr xs)])])) keys = xs /\
     SiteManagerApi._extractArray
       (Some (JObj [(k, JObj [(inner, JObj [("devices"%string, JArr xs)])])])) keys = xs).
Proof.
  split; [reflexivity|]. split.
  { intros keys. repeat split; intros;
      (induction keys as [|k keys IH]; [reflexivity | exact IH]). }
  split.
  { intros fields keys. cbn [SiteManagerApi._extractArray].
    exact (extract_from_first (JObj fields) keys). }
  split; [reflexivity|]. split.
  { intros inner. unfold SiteManagerApi.check.
    change ["data"; "sites"; "devices"; "hosts"; "items"; "results"; "entries"; "result"]%string
      with inner_keys.
    rewrite (first_not_null (fun k => assoc k inner) inner_keys).
    destruct (find (fun i => negb (absent (assoc i inner))) inner_keys); reflexivity. }
  split.
  { intros [[]|] H; try reflexivity; destruct H. }
  intros xs keys k inner Hk Hi. split; [|split]; cbn [SiteManagerApi._extractArray].
  - now apply extract_from_single.
  - apply extract_from_single; [|exact Hk].
    unfold inner_keys in Hi. cbn [In] in Hi.
    repeat (destruct Hi as [<- | Hi]; [reflexivity|]). destruct Hi.
  - apply extract_from_single; [|exact Hk].
    unfold inner_keys in Hi. cbn [In] in Hi.
    repeat (destruct Hi as [<- | Hi]; [reflexivity|]). destruct Hi.
Qed.

(** Lists of sites under [sites], under [sites.data] and under
    [data.sites] are found; a list under [sites.sites] is hidden by an
    empty object under [sites.data]. *)
Lemma extractArray_envelopes_witness :
  SiteManagerApi._extractArray (Some (JObj [("sites"%string, JArr [JNum 2])]))
    ["data"; "sites"; "items"; "results"; "entries"]%string
  = [JNum 2] /\
  SiteManagerApi._extractArray
    (Some (JObj [("sites"%string, JObj [("data"%string, JArr [JNum 2])])]))
    ["data"; "sites"; "items"; "results"; "entries"]%string
  = [JNum 2] /\
  SiteManagerApi._extractArray
    (Some (JObj [("data"%string, JObj [("sites"%string, JArr [JNum 2])])]))
    ["data"; "sites"; "items"; "results"; "entries"]%string
  = [JNum 2] /\
  SiteManagerApi._extractArray
    (Some (JObj [("sites"%string,
                  JObj [("data"%string, JObj []); ("sites"%string, JArr [JNum 2])])]))
    ["data"; "sites"; "items"; "results"; "entries"]%string
  = [].
Proof.
  destruct (proj2 (proj2 (proj2 (proj2 (proj2 (proj2 extractArray_envelopes)))))
              [JNum 2] ["data"; "sites"; "items"; "results"; "entries"]%string
              "sites"%string "data"%string)
    as (H1 & H2 & _); [cbn; tauto | cbn; tauto |].
  destruct (proj2 (proj2 (proj2 (proj2 (proj2 (proj2 extractArray_envelopes)))))
              [JNum 2] ["data"; "sites"; "items"; "results"; "entries"]%string
              "data"%string "sites"%string)
    as (_ & H3 & _); [cbn; tauto | cbn; tauto |].
  split; [exact H1|]. split; [exact H2|]. split; [exact H3|].
  rewrite (proj1 (proj2 (proj2 extractArray_envelopes))). reflexivity.
Defined.

(** X21. When no path is answered with a 2xx status, [getAlerts]
    resolves to [undefined], not to the empty list that its [?? []]
    reads like, since [??] is applied to the promise;
    [getInternetHealth] and [getEvents] resolve to the empty list. *)
Theorem cloud_getters_without_answer
  (w : controller) (this : SiteManagerApi.client)
  (sent : list SiteManagerApi.http_request) (limit : nat) :
  stateless w -> SiteManagerApi.apiKey this <> [] ->
  (forall path, refuses w this path) ->
  fst (SiteManagerApi.getAlerts w this sent) = Ok None /\
  fst (SiteManagerApi.getInternetHealth w this sent) = Ok [] /\
  fst (SiteManagerApi.getEvents w this limit sent) = Ok [].
Proof.
  intros Hw Hkey Href.
  assert (forall paths, SiteManagerApi._tryPaths w this paths sent
                        = (Ok None, cloud_requests this paths ++ sent)) as Htry.
  { intros paths.
    destruct (try_each_total_spec w this Hw Hkey SiteManagerApi.defined None paths sent)
      as [[_ H] | (pre & p & post & d & _ & _ & (r & Hr & Hs & _) & _)]; [exact H|].
    elim (Href p r Hr Hs). }
  unfold SiteManagerApi.getAlerts, SiteManagerApi.getInternetHealth,
    SiteManagerApi.getEvents, SiteManagerApi._fetchCloudResource.
  rewrite !Htry. cbn [fst SiteManagerApi.as_list].
  repeat split. now destruct limit.
Qed.

Lemma cloud_getters_without_answer_witness :
  fst (SiteManagerApi.getAlerts no_such_path cloud_client []) = Ok None /\
  fst (SiteManagerApi.getInternetHealth no_such_path cloud_client []) = Ok [] /\
  fst (SiteManagerApi.getEvents no_such_path cloud_client 100 []) = Ok [].
Proof.
  apply cloud_getters_without_answer.
  - intros s1 s2 req. reflexivity.
  - discriminate.
  - intros path r [= <-]. cbn. lia.
Defined.

Lemma slash_is_not_http (p : jsstring) :
  startsWith p (lit "/") = true -> startsWith p (lit "http") = false.
Proof.
  destruct p as [|c p]; [discriminate|].
  change (startsWith (c :: p) (lit "/")) with (N.eqb 47 c && startsWith p [])%bool.
  change (startsWith (c :: p) (lit "http"))
    with (N.eqb 104 c && startsWith p (lit "ttp"))%bool.
  intros H. apply andb_true_iff in H as [H _]. apply N.eqb_eq in H. subst c. reflexivity.
Qed.

(** X22. [requestSiteManagerPath] calls axios at most once, and only
    with the cloud client enabled and keyed and for a path that, once
    trimmed, starts with [/]: the call is a [GET] of the configured
    base URL followed by that path, with the key in [X-API-Key].  It
    reports success only when the call ends, after the redirects axios
    follows, with an answer of a status from 200 to 299, and then with
    the body of that answer.  Against an API that never redirects, the
    call is all that is sent. *)
Theorem requestSiteManagerPath_asks_the_base
  (w : controller) (sm : option SiteManagerApi.site_manager_config) (path : value)
  (sent : list SiteManagerApi.http_request) :
  (snd (SiteManagerApi.requestSiteManagerPath w sm path sent) = sent \/
   exists cfg p,
     sm = Some cfg /\ SiteManagerApi.sm_enabled cfg = true /\
     SiteManagerApi.sm_apiKey cfg <> [] /\ path = Some (JStr p) /\
     startsWith (trim p) (lit "/") = true /\
     snd (SiteManagerApi.requestSiteManagerPath w sm path sent)
     = mkRequest false
         (SiteManagerApi.baseUrl
            (SiteManagerApi.new (SiteManagerApi.sm_baseUrl cfg)
               (SiteManagerApi.sm_apiKey cfg) (SiteManagerApi.sm_verifySSL cfg))
          ++ trim p)
         None (Some (SiteManagerApi.sm_apiKey cfg)) None None :: sent) /\
  (forall d, fst (SiteManagerApi.requestSiteManagerPath w sm path sent)
             = SiteManagerApi.Success d ->
     exists req r, snd (SiteManagerApi.requestSiteManagerPath w sm path sent) = req :: sent /\
                   settle maxRedirects (w sent req) = Answered r /\
                   200 <= status r < 300 /\ d = data r) /\
  (never_redirects w ->
   on_the_wire w (snd (SiteManagerApi.requestSiteManagerPath w sm path sent))
   = snd (SiteManagerApi.requestSiteManagerPath w sm path sent)).
Proof.
  split; [|split; [|intros Hn; now apply on_the_wire_calls]].
  all: unfold SiteManagerApi.requestSiteManagerPath.
  all: destruct sm as [cfg|]; [|first [now left | discriminate]].
  all: destruct (SiteManagerApi.sm_enabled cfg) eqn:Een; [|first [now left | discriminate]].
  all: destruct (SiteManagerApi.sm_apiKey cfg) as [|k0 ks] eqn:Ek;
    [first [now left | discriminate]|].
  all: rewrite <- Ek.
  all: set (mon := SiteManagerApi.new (SiteManagerApi.sm_baseUrl cfg)
                (SiteManagerApi.sm_apiKey cfg) (SiteManagerApi.sm_verifySSL cfg)).
  all: assert (SiteManagerApi.apiKey mon <> []) as Hkey
    by (unfold mon; cbn [SiteManagerApi.apiKey SiteManagerApi.new]; rewrite Ek; discriminate).
  all: destruct path as [[| | |p| |]|]; try first [now left | discriminate].
  all: destruct (startsWith (trim p) (lit "/")) eqn:Es; cbn [negb orb];
    [|first [now left | discriminate]].
  all: assert (match trim p with [] => true | _ :: _ => false end = false) as ->
    by (destruct (trim p); [discriminate | reflexivity]).
  all: pose proof (cloud_request_state w mon (trim p) sent Hkey) as Hst.
  - assert (cloud_request mon (trim p)
            = mkRequest false (SiteManagerApi.baseUrl mon ++ trim p) None
                (Some (SiteManagerApi.sm_apiKey cfg)) None None) as Hreq.
    { unfold cloud_request, SiteManagerApi.get_request, SiteManagerApi.url_of.
      rewrite (slash_is_not_http (trim p) Es), Es. reflexivity. }
    right. exists cfg, p.
    split; [reflexivity|]. split; [exact Een|]. split; [rewrite Ek; discriminate|].
    split; [reflexivity|]. split; [exact Es|].
    transitivity (cloud_request mon (trim p) :: sent); [|now rewrite Hreq].
    rewrite <- Hst.
    destruct (SiteManagerApi.request w mon (trim p) sent) as [[d|e] s']; reflexivity.
  - intros d Hd.
    destruct (SiteManagerApi.request w mon (trim p) sent) as [[d'|e] s'] eqn:E;
      [|discriminate].
    cbn [fst] in Hd. injection Hd as ->.
    apply (proj2 (cloud_request_outcomes w mon (trim p) sent)) in E
      as (_ & -> & _ & r & Hr & Hs & ->).
    exists (cloud_request mon (trim p)), r. auto.
Qed.

Lemma requestSiteManagerPath_asks_the_base_witness :
  on_the_wire no_such_path
    (snd (SiteManagerApi.requestSiteManagerPath no_such_path (Some cloud_config)
            (Some (JStr (lit " /api/list-alerts "))) []))
  = [mkRequest false (lit "https://api.ui.com/api/list-alerts") None (Some (lit "KEY"))
       None None].
Proof.
  rewrite (proj2 (proj2 (requestSiteManagerPath_asks_the_base no_such_path
                           (Some cloud_config) (Some (JStr (lit " /api/list-alerts "))) [])));
    [vm_compute; reflexivity | discriminate].
Defined.

(** A path that does not start with [/] is not asked for; and where
    the API redirects, the call succeeds with what the other place
    answers, the key having been sent there. *)
Example requestSiteManagerPath_follows_redirects :
  snd (SiteManagerApi.requestSiteManagerPath no_such_path (Some cloud_config)
         (Some (JStr (lit "http://internal.example/"))) []) = [] /\
  SiteManagerApi.requestSiteManagerPath
    (redirecting (lit "https://elsewhere.example/") (Some (JStr (lit "theirs"))))
    (Some cloud_config) (Some (JStr (lit "/api/list-alerts"))) []
  = (SiteManagerApi.Success (Some (JStr (lit "theirs"))),
     [mkRequest false (lit "https://api.ui.com/api/list-alerts") None (Some (lit "KEY"))
        None None]) /\
  on_the_wire (redirecting (lit "https://elsewhere.example/") (Some (JStr (lit "theirs"))))
    [mkRequest false (lit "https://api.ui.com/api/list-alerts") None (Some (lit "KEY"))
       None None]
  = [mkRequest false (lit "https://elsewhere.example/") None (Some (lit "KEY")) None None;
     mkRequest false (lit "https://api.ui.com/api/list-alerts") None (Some (lit "KEY"))
       None None].
Proof. repeat split; vm_compute; reflexivity. Qed.

(** ** Rows of the client and device lists *)

Lemma number_is_no_state_word (n : Z) :
  str_eqb (toLowerCase (num_to_string n)) (lit "offline") = false /\
  str_eqb (toLowerCase (num_to_string n)) (lit "disconnected") = false.
Proof.
  unfold num_to_string.
  destruct (Z.to_int n) as [u|u]; destruct u; split; reflexivity.
Qed.

Lemma trimmed_or_dash_nonempty (v : value) : ContextRows.trimmed_or_dash v <> [].
Proof.
  unfold ContextRows.trimmed_or_dash. destruct (trim (String_ v)); discriminate.
Qed.



(** ** The conversation behind a request *)

Lemma recentText_window (old recent : list json) :
  (6 <= length recent)%nat -> recentText (old ++ recent) = recentText recent.
Proof.
  intros H. unfold recentText. do 2 f_equal.
  rewrite length_app.
  replace (length old + length recent - 6)%nat
    with (length old + (length recent - 6))%nat by lia.
  rewrite skipn_app.
  replace (length old + (length recent - 6) - length old)%nat
    with (length recent - 6)%nat by lia.
  rewrite skipn_all2 by lia. reflexivity.
Qed.

(** X25. Only the last six messages of the conversation are consulted:
    whatever was said before them changes neither the text in which a
    host is looked for nor the diagnostics that are run. *)
Theorem only_the_last_six_messages_count
  (w : os) (query : value) (old recent : list json) :
  (6 <= length recent)%nat ->
  recentText (old ++ recent) = recentText recent /\
  getMonitoringContext_diagnostics w query (old ++ recent)
  = getMonitoringContext_diagnostics w query recent.
Proof.
  intros H. pose proof (recentText_window old recent H) as Hr.
  split; [exact Hr|].
  unfold getMonitoringContext_diagnostics, pingReq, traceReq, portReq, referent.
  now rewrite Hr.
Qed.

(** The request [ping] names no host, so the host is looked for in
    the conversation: an address said seven messages ago is not found,
    and nothing is run; said six messages ago, it is pinged. *)
Lemma only_the_last_six_messages_count_witness :
  getMonitoringContext_diagnostics quiet_os (Some (JStr (lit "ping")))
    ([said "check 10.0.0.1"] ++ small_talk)
  = getMonitoringContext_diagnostics quiet_os (Some (JStr (lit "ping"))) small_talk /\
  snd (getMonitoringContext_diagnostics quiet_os (Some (JStr (lit "ping")))
         ([said "check 10.0.0.1"] ++ small_talk)) = [] /\
  snd (getMonitoringContext_diagnostics quiet_os (Some (JStr (lit "ping")))
         ([said "check 10.0.0.1"] ++ tl small_talk))
  = [Exec (lit "ping -c 4 -W 3 10.0.0.1")].
Proof.
  split; [|split].
  - exact (proj2 (only_the_last_six_messages_count quiet_os (Some (JStr (lit "ping")))
                    [said "check 10.0.0.1"] small_talk (Nat.le_refl 6))).
  - vm_compute. reflexivity.
  - vm_compute. reflexivity.
Defined.

(** ** The dashboard log *)

Lemma skipn_S_tl {A} (k : nat) : forall l : list A, skipn (S k) l = tl (skipn k l).
Proof.
  induction k as [|k IH]; intros [|x l]; try reflexivity.
  cbn [skipn]. apply (IH l).
Qed.

Lemma add_call_last (all : list Dashboard.log_entry) (c : log_call) :
  add_call (last_n 100 all) c
  = last_n 100 (all ++ pushed [c]).
Proof.
  unfold add_call, Dashboard.addDashboardLog, last_n, pushed. cbv zeta. cbn [map].
  set (e := Dashboard.entry_of _ _ _ _ _).
  rewrite !length_app, length_skipn. cbn [length]. unfold Dashboard.MAX_DASHBOARD_LOG.
  destruct (Nat.ltb 100 (length all - (length all - 100) + 1)) eqn:E.
  - apply Nat.ltb_lt in E.
    assert (100 <= length all)%nat as Hlen by lia.
    replace (length all + 1 - 100)%nat with (S (length all - 100)) by lia.
    rewrite skipn_app.
    replace (S (length all - 100) - length all)%nat with 0%nat by lia.
    change (skipn 0 [e]) with [e]. rewrite skipn_S_tl.
    destruct (skipn (length all - 100) all) as [|x xs] eqn:Es.
    + apply (f_equal (@length _)) in Es. rewrite length_skipn in Es. cbn in Es. lia.
    + reflexivity.
  - apply Nat.ltb_ge in E.
    assert (length all < 100)%nat as Hlen by lia.
    replace (length all - 100)%nat with 0%nat by lia.
    replace (length all + 1 - 100)%nat with 0%nat by lia.
    reflexivity.
Qed.

Lemma add_all_last (calls : list log_call) :
  forall all, add_all calls (last_n 100 all) = last_n 100 (all ++ pushed calls).
Proof.
  induction calls as [|c calls IH]; intros all; cbn [add_all fold_left pushed map].
  - now rewrite app_nil_r.
  - rewrite add_call_last. fold (add_all calls (last_n 100 (all ++ pushed [c]))).
    rewrite IH. rewrite <- app_assoc. reflexivity.
Qed.

(** X26. The dashboard log keeps the last hundred entries: after any
    sequence of [addDashboardLog] calls on the empty log it holds the
    entries of the last hundred calls, in the order of the calls, and
    the dashboard shows at most fifty of them, the latest first. *)
Theorem dashboard_log_keeps_the_last_hundred (calls : list log_call) :
  add_all calls [] = last_n 100 (pushed calls) /\
  (length (add_all calls []) <= 100)%nat /\
  Dashboard.dashboard_view (add_all calls []) = rev (last_n 50 (pushed calls)) /\
  (length (Dashboard.dashboard_view (add_all calls [])) <= 50)%nat.
Proof.
  assert (add_all calls [] = last_n 100 (pushed calls)) as H
    by (apply (add_all_last calls [])).
  assert (Dashboard.dashboard_view (add_all calls []) = rev (last_n 50 (pushed calls))) as Hv.
  { rewrite H. unfold Dashboard.dashboard_view, last_n.
    rewrite skipn_skipn, length_skipn. f_equal. f_equal. lia. }
  split; [exact H|]. split; [|split; [exact Hv|]].
  - rewrite H. unfold last_n. rewrite length_skipn. lia.
  - rewrite Hv, length_rev. unfold last_n. rewrite length_skipn. lia.
Qed.

(** X27. The user name logged for a failed authentication holds at most
    fifty code units, each a word character, [@], [.], [-] or the [?]
    that stands for any other; a name of at most fifty such characters
    is logged as it is, and anything that is not a string as [?]. *)
Theorem safeUser_is_printable (username : value) :
  (length (Dashboard.safeUser username) <= 50)%nat /\
  Forall (fun c => Dashboard.safe_char c = true \/ c = 63%N) (Dashboard.safeUser username) /\
  (forall u, username = Some (JStr u) -> (length u <= 50)%nat ->
     Forall (fun c => Dashboard.safe_char c = true) u ->
     Dashboard.safeUser username = u) /\
  ((forall u, username <> Some (JStr u)) -> Dashboard.safeUser username = lit "?").
Proof.
  split; [|split; [|split]].
  - destruct username as [[| | |u| |]|]; cbn [Dashboard.safeUser];
      try (change (length (lit "?")) with 1%nat; lia).
    rewrite length_map. apply firstn_le_length.
  - destruct username as [[| | |u| |]|]; cbn [Dashboard.safeUser];
      try (repeat constructor; now right).
    apply Forall_forall. intros c Hc. apply in_map_iff in Hc as [x [<- _]].
    destruct (Dashboard.safe_char x) eqn:E; [now left | now right].
  - intros u -> Hlen Hall. cbn [Dashboard.safeUser].
    rewrite firstn_all2 by exact Hlen.
    induction Hall as [|c u Hc _ IH]; cbn [map]; [reflexivity|].
    rewrite Hc. f_equal. apply IH. cbn [length] in Hlen. lia.
  - intros H. destruct username as [[| | |u| |]|]; try reflexivity.
    now elim (H u).
Qed.

(** ** The configuration views *)

Lemma get_path_none (path : list string) :
  fold_left (fun v k => opt_get k v) path None = None.
Proof. induction path as [|k path IH]; [reflexivity | exact IH]. Qed.

Lemma assoc_set_field_same (k : string) (v : json) (fields : list (string * json)) :
  assoc k fields <> None -> assoc k (Dashboard.set_field k v fields) = Some v.
Proof.
  induction fields as [|[k' x] fields IH]; cbn [assoc Dashboard.set_field];
    [intros H; now elim H|].
  destruct (String.eqb k k') eqn:E; cbn [assoc]; rewrite E; [reflexivity | exact IH].
Qed.

Lemma assoc_set_field_other (k k' : string) (v : json) (fields : list (string * json)) :
  k' <> k -> assoc k' (Dashboard.set_field k v fields) = assoc k' fields.
Proof.
  intros Hk. induction fields as [|[k0 x] fields IH]; cbn [assoc Dashboard.set_field];
    [reflexivity|].
  destruct (String.eqb k k0) eqn:E; cbn [assoc].
  - apply String.eqb_eq in E. subst k0.
    replace (String.eqb k' k) with false by (symmetry; now apply String.eqb_neq).
    reflexivity.
  - destruct (String.eqb k' k0); [reflexivity | exact IH].
Qed.

Lemma get_path_cons (k : string) (path : list string) (o : json) :
  Dashboard.get_path (k :: path) o
  = match opt_get k (Some o) with
    | Some inner => Dashboard.get_path path inner
    | None => None
    end.
Proof.
  unfold Dashboard.get_path. cbn [fold_left].
  destruct (opt_get k (Some o)); [reflexivity | apply get_path_none].
Qed.

(** Reading back what was written along a path that leads somewhere. *)
Lemma get_set_path (v : json) (path : list string) :
  forall o, truthy (Dashboard.get_path path o) = true ->
            Dashboard.get_path path (Dashboard.set_path path v o) = Some v.
Proof.
  induction path as [|k path IH]; intros o H; [reflexivity|].
  rewrite get_path_cons in H.
  destruct o as [| | | | |fields]; try discriminate.
  cbn [opt_get] in H. cbn [Dashboard.set_path].
  destruct (assoc k fields) as [inner|] eqn:E; [|discriminate].
  rewrite get_path_cons. cbn [opt_get].
  rewrite assoc_set_field_same by (rewrite E; discriminate).
  now apply IH.
Qed.

(** Writing along a path leaves the other top-level parts alone. *)
Lemma get_set_path_other (v : json) (k k' : string) (path path' : list string) (o : json) :
  k' <> k ->
  Dashboard.get_path (k' :: path') (Dashboard.set_path (k :: path) v o)
  = Dashboard.get_path (k' :: path') o.
Proof.
  intros Hk. rewrite !get_path_cons.
  destruct o as [| | | | |fields]; try reflexivity.
  cbn [Dashboard.set_path opt_get].
  destruct (assoc k fields) as [inner|]; [|reflexivity].
  cbn [opt_get]. now rewrite assoc_set_field_other.
Qed.

Lemma hide_hidden (path : list string) (o : json) :
  Dashboard.get_path path (Dashboard.hide path o) = Some Dashboard.hidden \/
  truthy (Dashboard.get_path path (Dashboard.hide path o)) = false.
Proof.
  unfold Dashboard.hide.
  destruct (truthy (Dashboard.get_path path o)) eqn:E; [left | now right].
  now apply get_set_path.
Qed.

Lemma hide_other (k k' : string) (path path' : list string) (o : json) :
  k' <> k ->
  Dashboard.get_path (k' :: path') (Dashboard.hide (k :: path) o)
  = Dashboard.get_path (k' :: path') o.
Proof.
  intros Hk. unfold Dashboard.hide.
  destruct (truthy (Dashboard.get_path (k :: path) o)); [|reflexivity].
  now apply get_set_path_other.
Qed.



(** On [sample_config]: the web password and the OpenAI key are hidden,
    the key of the Site Manager is not. *)
Example get_config_view_sample :
  exists view,
    Dashboard.get_config_view sample_config = Ok view /\
    Dashboard.get_path ["web"; "auth"; "password"]%string view = Some Dashboard.hidden /\
    Dashboard.get_path ["llm"; "openai"; "apiKey"]%string view = Some Dashboard.hidden /\
    Dashboard.get_path ["monitoring"; "siteManager"; "apiKey"]%string view
    = Some (JStr (lit "cloud-key")).
Proof. eexists. split; [reflexivity|]. repeat split; vm_compute; reflexivity. Qed.

(** ** The log analyzer *)

Lemma scan_lines_spec (ls : list jsstring) :
  forall acc index,
    LogAnalyzer.scan_lines acc index ls
    = LogAnalyzer.mkPatterns
        (LogAnalyzer.errors acc ++ findings is_error_line index ls)
        (LogAnalyzer.warnings acc ++ findings is_warning_line index ls)
        (LogAnalyzer.timestamps acc ++ matches_of LogAnalyzer.timestamp_re ls)
        (LogAnalyzer.ipAddresses acc ++ matches_of LogAnalyzer.ip_re ls)
        (LogAnalyzer.urls acc ++ matches_of LogAnalyzer.url_re ls).
Proof.
  induction ls as [|l ls IH]; intros acc index;
    cbn [LogAnalyzer.scan_lines findings matches_of flat_map].
  - rewrite !app_nil_r. now destruct acc.
  - rewrite IH. unfold LogAnalyzer.scan_line.
    cbn [LogAnalyzer.errors LogAnalyzer.warnings LogAnalyzer.timestamps
         LogAnalyzer.ipAddresses LogAnalyzer.urls].
    unfold matches_of, is_error_line, is_warning_line.
    now rewrite <- !app_assoc.
Qed.

Lemma extractLogPatterns_spec (snippet : jsstring) :
  LogAnalyzer.extractLogPatterns snippet
  = LogAnalyzer.mkPatterns
      (findings is_error_line 0 (LogAnalyzer.split_lines snippet))
      (findings is_warning_line 0 (LogAnalyzer.split_lines snippet))
      (matches_of LogAnalyzer.timestamp_re (LogAnalyzer.split_lines snippet))
      (matches_of LogAnalyzer.ip_re (LogAnalyzer.split_lines snippet))
      (matches_of LogAnalyzer.url_re (LogAnalyzer.split_lines snippet)).
Proof. unfold LogAnalyzer.extractLogPatterns. now rewrite scan_lines_spec. Qed.

Lemma findings_length (keep : jsstring -> bool) (ls : list jsstring) :
  forall index, (length (findings keep index ls) <= length ls)%nat.
Proof.
  induction ls as [|l ls IH]; intros index; cbn [findings length]; [lia|].
  rewrite length_app. specialize (IH (index + 1)).
  destruct (keep l); cbn [length]; lia.
Qed.

Lemma findings_sound (keep : jsstring -> bool) (ls : list jsstring) :
  forall index f, In f (findings keep index ls) ->
    exists n l, nth_error ls n = Some l /\
                LogAnalyzer.line f = index + 1 + Z.of_nat n /\
                LogAnalyzer.content f = trim l /\ keep l = true.
Proof.
  induction ls as [|l ls IH]; intros index f Hf; cbn [findings] in Hf; [destruct Hf|].
  apply in_app_or in Hf as [Hf | Hf].
  - destruct (keep l) eqn:E; [|destruct Hf].
    destruct Hf as [<- | []]. exists 0%nat, l. cbn. repeat split; auto; lia.
  - destruct (IH _ _ Hf) as (n & l' & Hn & Hl & Hc & Hk).
    exists (S n), l'. cbn [nth_error]. repeat split; auto; lia.
Qed.

Lemma matches_of_length (re : regex) (ls : list jsstring) :
  (length (matches_of re ls) <= length ls)%nat.
Proof.
  induction ls as [|l ls IH]; cbn [matches_of flat_map length]; [lia|].
  rewrite length_app. fold (matches_of re ls).
  unfold LogAnalyzer.first_match. destruct (exec re l); cbn [length]; lia.
Qed.

Lemma unique_from_length (xs : list jsstring) :
  forall seen, (length (LogAnalyzer.unique_from seen xs) <= length xs)%nat.
Proof.
  induction xs as [|x xs IH]; intros seen; cbn [LogAnalyzer.unique_from length]; [lia|].
  destruct (existsb (str_eqb x) seen); cbn [length].
  - specialize (IH seen). lia.
  - specialize (IH (x :: seen)). lia.
Qed.

Lemma split_lines_nonempty (snippet : jsstring) :
  (1 <= length (LogAnalyzer.split_lines snippet))%nat.
Proof.
  induction snippet as [|c s IH]; cbn [LogAnalyzer.split_lines]; [cbn; lia|].
  destruct (N.eqb c 10); [cbn [length]; lia|].
  destruct (LogAnalyzer.split_lines s); cbn [length] in *; lia.
Qed.

(** X29. Every error and warning that [extractLogPatterns] reports
    names a line of the snippet, by its number counted from 1, and
    carries that line, trimmed; an error line holds one of the words
    [error], [exception], [fatal] and [critical], and a warning line
    holds [warn] and does not hold [error], whatever the case of the
    letters. *)
Theorem log_findings_name_their_lines (snippet : jsstring) (f : LogAnalyzer.finding) :
  (In f (LogAnalyzer.errors (LogAnalyzer.extractLogPatterns snippet)) ->
   exists n l,
     nth_error (LogAnalyzer.split_lines snippet) n = Some l /\
     LogAnalyzer.line f = Z.of_nat n + 1 /\
     LogAnalyzer.content f = trim l /\ test LogAnalyzer.error_re l = true) /\
  (In f (LogAnalyzer.warnings (LogAnalyzer.extractLogPatterns snippet)) ->
   exists n l,
     nth_error (LogAnalyzer.split_lines snippet) n = Some l /\
     LogAnalyzer.line f = Z.of_nat n + 1 /\
     LogAnalyzer.content f = trim l /\
     test LogAnalyzer.warning_re l = true /\ test (lit_i "error") l = false).
Proof.
  rewrite extractLogPatterns_spec. cbn [LogAnalyzer.errors LogAnalyzer.warnings].
  split; intros H; apply findings_sound in H as (n & l & Hn & Hl & Hc & Hk);
    exists n, l; (split; [exact Hn|]); (split; [lia|]); (split; [exact Hc|]).
  - exact Hk.
  - unfold is_warning_line in Hk. apply andb_true_iff in Hk as [H1 H2].
    split; [exact H1|]. now destruct (test (lit_i "error") l).
Qed.

(** X30. [analyzeLogSnippet] answers a blank snippet with the empty
    analysis; for any other, the snippet has at least one line, the
    counts of errors, warnings and distinct addresses are each at most
    the number of lines, and the lists hold at most five errors, five
    warnings, three time stamps, five addresses and three URLs. *)
Theorem log_analysis_is_bounded (snippet : jsstring) :
  (LogAnalyzer.analyzeLogSnippet snippet = LogAnalyzer.Empty <-> trim snippet = []) /\
  (forall s p,
     LogAnalyzer.analyzeLogSnippet snippet = LogAnalyzer.Analysis s p ->
     1 <= LogAnalyzer.totalLines s /\
     0 <= LogAnalyzer.errorCount s <= LogAnalyzer.totalLines s /\
     0 <= LogAnalyzer.warningCount s <= LogAnalyzer.totalLines s /\
     0 <= LogAnalyzer.uniqueIPs s <= LogAnalyzer.totalLines s /\
     (length (LogAnalyzer.errors p) <= 5)%nat /\
     (length (LogAnalyzer.warnings p) <= 5)%nat /\
     (length (LogAnalyzer.timestamps p) <= 3)%nat /\
     (length (LogAnalyzer.ipAddresses p) <= 5)%nat /\
     (length (LogAnalyzer.urls p) <= 3)%nat).
Proof.
  unfold LogAnalyzer.analyzeLogSnippet. split.
  - destruct (trim snippet); split; intros H; try discriminate; reflexivity.
  - intros s p. destruct (trim snippet); [discriminate|].
    set (ls := LogAnalyzer.split_lines snippet).
    intros H.
    assert (s = LogAnalyzer.mkSummary (LogAnalyzer.count ls)
                  (LogAnalyzer.count (findings is_error_line 0 ls))
                  (LogAnalyzer.count (findings is_warning_line 0 ls))
                  (negb (Nat.eqb (length (matches_of LogAnalyzer.timestamp_re ls)) 0))
                  (LogAnalyzer.count (LogAnalyzer.unique (matches_of LogAnalyzer.ip_re ls)))
                  (negb (Nat.eqb (length (matches_of LogAnalyzer.url_re ls)) 0)) /\
            p = LogAnalyzer.mkPatterns
                  (firstn 5 (findings is_error_line 0 ls))
                  (firstn 5 (findings is_warning_line 0 ls))
                  (firstn 3 (LogAnalyzer.unique (matches_of LogAnalyzer.timestamp_re ls)))
                  (firstn 5 (LogAnalyzer.unique (matches_of LogAnalyzer.ip_re ls)))
                  (firstn 3 (matches_of LogAnalyzer.url_re ls))) as [-> ->].
    { rewrite extractLogPatterns_spec in H. fold ls in H.
      injection H as <- <-. split; reflexivity. }
    cbn [LogAnalyzer.totalLines LogAnalyzer.errorCount LogAnalyzer.warningCount
         LogAnalyzer.uniqueIPs LogAnalyzer.errors LogAnalyzer.warnings
         LogAnalyzer.timestamps LogAnalyzer.ipAddresses LogAnalyzer.urls].
    unfold LogAnalyzer.count.
    pose proof (split_lines_nonempty snippet). fold ls in H0.
    pose proof (findings_length is_error_line ls 0).
    pose proof (findings_length is_warning_line ls 0).
    pose proof (matches_of_length LogAnalyzer.ip_re ls).
    pose proof (unique_from_length (matches_of LogAnalyzer.ip_re ls) []).
    unfold LogAnalyzer.unique in *.
    repeat split; try lia; apply firstn_le_length.
Qed.
